(** * Adversarial Robustness Toolbox: certified trainer and adversarial patch

    A shallow embedding of

    - [art/defences/trainer/certified_trainer_pytorch.py]
      ([DefaultLinearScheduler], [AdversarialTrainerCertified.fit]) and
    - [art/attacks/evasion/adversarial_patch/adversarial_patch_tensorflow.py]
      ([AdversarialPatchTensorFlowV2]).

    Python's [float] arithmetic is taken through the interface [Scalar],
    which has two instances: exact rationals ([Q]), the idealised reading of
    the arithmetic, and IEEE 754 binary64 ([PrimFloat.float]), the numbers
    CPython computes with.  Both come with the conversion to [float32]
    (round to nearest, ties to even) that TensorFlow applies to what is
    stored in a [tf.float32] variable.  The calls into the deep-learning
    frameworks (forward passes, losses, gradients, shuffles) are parameters
    of the sections below. *)

From Stdlib Require Import ZArith QArith Qminmax Qround Qpower Qreduction.
From Stdlib Require Import Floats SpecFloat Uint63 List Bool Lia String.
From Stdlib Require Import Lqa Permutation.
Import ListNotations.

(** ** Conversion to [float32]

    A [float32] is a sign and a magnitude [m * 2 ^ e] with [m < 2 ^ 24] and
    [e >= -149].  A rational is converted by rounding its magnitude to the
    nearest such number, ties going to the even [m].  Magnitudes of
    [2 ^ 128] and more, which TensorFlow turns into an infinity, are rounded
    on the same grid: the rationals have no infinity. *)

(** [2 ^ e] *)
Definition pow2 (e : Z) : Q := (2 ^ e)%Q.

(** The integer nearest to [q], the even one of the two on a tie. *)
Definition round_half_even (q : Q) : Z :=
  let f := Qfloor q in
  match Qcompare (q - inject_Z f) (1 # 2) with
  | Lt => f
  | Gt => (f + 1)%Z
  | Eq => if Z.even f then f else (f + 1)%Z
  end.

(** [floor(log2(q))] for [q > 0] *)
Definition ilog2 (q : Q) : Z :=
  let k := (Z.log2 (Qnum q) - Z.log2 (Zpos (Qden q)))%Z in
  if Qle_bool (pow2 k) q then k else (k - 1)%Z.

(** The [float32] nearest to the magnitude [q > 0]: 24 significant bits,
    and multiples of [2 ^ -149] below [2 ^ -126]. *)
Definition round_magnitude (q : Q) : Q :=
  let e := Z.max (ilog2 q - 23) (-149) in
  (inject_Z (round_half_even (q / pow2 e)) * pow2 e)%Q.

(** [np.float32(q)] *)
Definition round_float32 (q : Q) : Q :=
  match Qcompare q 0 with
  | Eq => 0%Q
  | Gt => round_magnitude (Qred q)
  | Lt => (- round_magnitude (Qred (- q)))%Q
  end.

(** [np.float32(x)] for a binary64 [x], as a binary64: the rounding of the
    IEEE 754 specification to 24 bits of precision and exponents up to
    [128], with its infinities. *)
Definition float32_of_float (x : float) : float :=
  match Prim2SF x with
  | S754_finite s m e =>
      SF2Prim (binary_normalize 24 128 (cond_Zopp s (Zpos m)) e s)
  | _ => x
  end.

(** ** Scalars *)

Class Scalar (F : Type) : Type := {
  f_zero : F;
  f_one : F;
  f_add : F -> F -> F;
  f_sub : F -> F -> F;
  f_mul : F -> F -> F;
  f_div : F -> F -> F;
  f_opp : F -> F;
  f_leb : F -> F -> bool;
  f_of_Z : Z -> F;
  f_float32 : F -> F
}.

#[global] Instance Scalar_Q : Scalar Q := {
  f_zero := 0%Q;
  f_one := 1%Q;
  f_add := Qplus;
  f_sub := Qminus;
  f_mul := Qmult;
  f_div := Qdiv;
  f_opp := Qopp;
  f_leb := Qle_bool;
  f_of_Z := inject_Z;
  f_float32 := round_float32
}.

(** binary64.  [f_of_Z] is the conversion [float(n)] of a Python [int]; it is
    exact for [0 <= n < 2^53], the only range it is used on here. *)
#[global] Instance Scalar_float : Scalar float := {
  f_zero := 0%float;
  f_one := 1%float;
  f_add := PrimFloat.add;
  f_sub := PrimFloat.sub;
  f_mul := PrimFloat.mul;
  f_div := PrimFloat.div;
  f_opp := PrimFloat.opp;
  f_leb := PrimFloat.leb;
  f_of_Z := fun n => PrimFloat.of_uint63 (Uint63.of_Z n);
  f_float32 := float32_of_float
}.

(** ** [DefaultLinearScheduler] *)

Module DefaultLinearScheduler.
Section Scheduler.
Context {F : Type} `{Scalar F}.

Record t : Type := mk {
  step_per_epoch : F;
  bound : F
}.

(** [__init__(self, step_per_epoch, initial_bound=0.0)] *)
Definition init (step_per_epoch0 : F) (initial_bound : F) : t :=
  {| step_per_epoch := step_per_epoch0; bound := initial_bound |}.

(** [step(self)]: [self.bound += self.step_per_epoch; return self.bound].
    The result is the returned value and the scheduler after the call. *)
Definition step (self : t) : F * t :=
  let self' := {| step_per_epoch := step_per_epoch self;
                  bound := f_add (bound self) (step_per_epoch self) |} in
  (bound self', self').

(** [n] successive calls to [step()]. *)
Fixpoint steps (n : nat) (self : t) : t :=
  match n with
  | O => self
  | S k => steps k (snd (step self))
  end.

(** The scheduler [fit] builds when no schedule is configured:
    [DefaultLinearScheduler(step_per_epoch=self.bound / epochs,
    initial_bound=0.0)]. *)
Definition of_fit (trainer_bound : F) (epochs : Z) : t :=
  init (f_div trainer_bound (f_of_Z epochs)) f_zero.

End Scheduler.
Arguments t F : clear implicits.
End DefaultLinearScheduler.

Module DLS := DefaultLinearScheduler.

(** The hexadecimal literal is the binary64 number Python writes [0.1]. *)
Definition py_0_1 : float := 0x1.999999999999ap-4%float.

(** ** Python exceptions and the effect monad

    A computation takes the state of the run and gives back either a value
    or the exception it raised, together with the state reached; the state
    reached at a [Raise] is kept, so that what happened before the exception
    can be read from it. *)

Inductive exn : Type :=
| ValueError (msg : string)
| UnboundLocalError (name : string)
| ZeroDivisionError
| TypeError
| AssertionError (msg : string).

Inductive outcome (A : Type) : Type :=
| Return (a : A)
| Raise (e : exn).
Arguments Return {A} a.
Arguments Raise {A} e.

Definition M (W A : Type) : Type := W -> outcome A * W.

Definition ret {W A : Type} (a : A) : M W A := fun w => (Return a, w).

Definition raise {W A : Type} (e : exn) : M W A := fun w => (Raise e, w).

Definition bind {W A B : Type} (m : M W A) (k : A -> M W B) : M W B :=
  fun w =>
    match m w with
    | (Return a, w') => k a w'
    | (Raise e, w') => (Raise e, w')
    end.

Declare Scope py_scope.
Delimit Scope py_scope with py.
Notation "x <- m ;; k" := (bind m (fun x => k))
  (at level 61, m at next level, right associativity) : py_scope.
Notation "' pat <- m ;; k" := (bind m (fun x => match x with pat => k end))
  (at level 61, pat pattern, m at next level, right associativity) : py_scope.
Notation "m ;; k" := (bind m (fun _ => k))
  (at level 61, right associativity) : py_scope.

(** Reading a local variable that may not have been assigned. *)
Definition lookup {W A : Type} (name : string) (v : option A) : M W A :=
  match v with
  | Some a => ret a
  | None => raise (UnboundLocalError name)
  end.

(** [int(np.ceil(n / float(d)))] for [d <> 0]. *)
Definition ceil_div (n d : Z) : Z := (- ((- n) / d))%Z.

(** [xs[lo:lo+len]] for non-negative bounds. *)
Definition slice {A : Type} (xs : list A) (lo len : nat) : list A :=
  firstn len (skipn lo xs).

(** [xs[idx]] for an index array [idx] (NumPy fancy indexing). *)
Definition take {A : Type} (xs : list A) (idx : list nat) : list A :=
  flat_map (fun j => match nth_error xs j with
                     | Some a => [a]
                     | None => []
                     end) idx.

(** ** [AdversarialTrainerCertified] *)

Module AdversarialTrainerCertified.

Inductive forward_mode : Type := concrete | abstract.

(** What a run of [fit] does to the objects around it, in order.
    [EvZeroGrad] is [self._classifier._optimizer.zero_grad()] (line 252) and
    [EvModelZeroGrad] is [self._classifier.model.zero_grad()] (line 326);
    [EvAttackGenerate rows] is [self.attack.generate(i_batch, y=o_batch)] on
    the batch made of the rows [rows] of the training set. *)
Inductive event (F : Type) : Type :=
| EvModelTrain (mode : bool)
| EvCertificationScheduleStep (returned : F)
| EvRandomShuffle
| EvZeroGrad
| EvSetForwardMode (mode : forward_mode)
| EvCertifyViaSubtraction (predicted_class class_to_consider : nat) (result : bool)
| EvAttackGenerate (rows : list nat)
| EvModelZeroGrad
| EvSetDescription (bound pgd_loss certified_loss acc : F) (samples_certified : nat)
| EvBackward (loss : F)
| EvOptimizerStep
| EvLrSchedulerStep.
Arguments EvModelTrain {F} mode.
Arguments EvCertificationScheduleStep {F} returned.
Arguments EvRandomShuffle {F}.
Arguments EvZeroGrad {F}.
Arguments EvSetForwardMode {F} mode.
Arguments EvCertifyViaSubtraction {F} predicted_class class_to_consider result.
Arguments EvAttackGenerate {F} rows.
Arguments EvModelZeroGrad {F}.
Arguments EvSetDescription {F} bound pgd_loss certified_loss acc samples_certified.
Arguments EvBackward {F} loss.
Arguments EvOptimizerStep {F}.
Arguments EvLrSchedulerStep {F}.

(** The state of a run: the parameters of the wrapped model, the position
    in the stream of random choices, and the events so far (oldest first). *)
Record world (F params : Type) : Type := mkWorld {
  w_params : params;
  w_seed : nat;
  w_trace : list (event F)
}.
Arguments mkWorld {F params} w_params w_seed w_trace.
Arguments w_params {F params} w.
Arguments w_seed {F params} w.
Arguments w_trace {F params} w.

(** The certifier [self._classifier] (type [CERTIFIER_TYPE]) and the
    libraries [fit] calls, none of which is part of this module: their
    methods are fields.  [sample] is one preprocessed input, a label is a
    class index (after [reduce_labels]), [zono_in] is a zonotope at the input
    of the network and [zono] one at its output. *)
Record certifier (F sample params optimizer zono_in zono : Type) : Type := {
  (** [self._classifier.nb_classes] *)
  nb_classes : nat;
  (** [torch.argmax(self._classifier.model.forward(np.expand_dims(sample, axis=0)))] *)
  concrete_argmax : params -> sample -> nat;
  (** [np.eye(math.prod(input_shape)) * bound] through
      [self._classifier.pre_process(cent=np.copy(sample), eps=eps_bound)] *)
  pre_process : sample -> F -> zono_in;
  (** [self._classifier.model.forward(eps=eps_bound, cent=processed_sample)] *)
  abstract_forward : params -> zono_in -> zono;
  max_logit_loss : zono -> nat -> F;
  interval_loss_cce : zono -> nat -> F;
  (** [certify_via_subtraction(predicted_class, class_to_consider, cent, eps)] *)
  certify_via_subtraction : nat -> nat -> zono -> bool;
  (** [ProjectedGradientDescent(...).generate(i_batch, y=o_batch)] *)
  pgd_generate : params -> nat -> list sample -> list nat -> list sample;
  (** [get_accuracy(model.forward(i_batch), o_batch)] *)
  get_accuracy : params -> list sample -> list nat -> F;
  (** [concrete_loss(model.forward(i_batch), o_batch)] *)
  concrete_loss : params -> list sample -> list nat -> F;
  (** [loss.backward()] then [self._classifier._optimizer.step()]; the loss
      is a function of the shuffled certification set, [batch_size], the
      bound and the adversarial batch *)
  optimizer_step :
    optimizer -> params -> list (sample * nat) -> Z -> F -> list sample -> list nat
    -> params;
  (** [random.shuffle(ind)] *)
  random_shuffle : nat -> list nat -> list nat;
  (** [sklearn.utils.shuffle(x_cert, y_cert)] *)
  sklearn_shuffle : nat -> list (sample * nat) -> list (sample * nat)
}.
Arguments nb_classes {F sample params optimizer zono_in zono} c.
Arguments concrete_argmax {F sample params optimizer zono_in zono} c.
Arguments pre_process {F sample params optimizer zono_in zono} c.
Arguments abstract_forward {F sample params optimizer zono_in zono} c.
Arguments max_logit_loss {F sample params optimizer zono_in zono} c.
Arguments interval_loss_cce {F sample params optimizer zono_in zono} c.
Arguments certify_via_subtraction {F sample params optimizer zono_in zono} c.
Arguments pgd_generate {F sample params optimizer zono_in zono} c.
Arguments get_accuracy {F sample params optimizer zono_in zono} c.
Arguments concrete_loss {F sample params optimizer zono_in zono} c.
Arguments optimizer_step {F sample params optimizer zono_in zono} c.
Arguments random_shuffle {F sample params optimizer zono_in zono} c.
Arguments sklearn_shuffle {F sample params optimizer zono_in zono} c.

(** The [certification_loss] argument of [fit]. *)
Inductive certification_loss_t (F zono : Type) : Type :=
| max_logit_loss_name
| interval_loss_cce_name
| custom_loss (f : zono -> nat -> F).
Arguments max_logit_loss_name {F zono}.
Arguments interval_loss_cce_name {F zono}.
Arguments custom_loss {F zono} f.

(** The attributes [__init__] stores; [_optimizer] is
    [self._classifier._optimizer] and [pgd_batch_size] is
    [self.pgd_params["batch_size"]]. *)
Record trainer (F sample optimizer zono_in user_schedule : Type) : Type := {
  _optimizer : option optimizer;
  nb_epochs : option Z;
  bound : F;
  loss_weighting : F;
  batch_size : option Z;
  concrete_to_zonotope : option (sample -> F -> zono_in);
  use_certification_schedule : bool;
  certification_schedule : option user_schedule;
  pgd_batch_size : Z
}.
Arguments _optimizer {F sample optimizer zono_in user_schedule} t.
Arguments nb_epochs {F sample optimizer zono_in user_schedule} t.
Arguments bound {F sample optimizer zono_in user_schedule} t.
Arguments loss_weighting {F sample optimizer zono_in user_schedule} t.
Arguments batch_size {F sample optimizer zono_in user_schedule} t.
Arguments concrete_to_zonotope {F sample optimizer zono_in user_schedule} t.
Arguments use_certification_schedule {F sample optimizer zono_in user_schedule} t.
Arguments certification_schedule {F sample optimizer zono_in user_schedule} t.
Arguments pgd_batch_size {F sample optimizer zono_in user_schedule} t.

Section Fit.
Context {F : Type} `{Scalar F}.
Context {sample params optimizer zono_in zono user_schedule lr_scheduler : Type}.
Variable clf : certifier F sample params optimizer zono_in zono.
Variable self : trainer F sample optimizer zono_in user_schedule.

Local Abbreviation W := (world F params).
Local Open Scope py_scope.

Definition log (e : event F) : M W unit :=
  fun w => (Return tt, mkWorld (w_params w) (w_seed w) (w_trace w ++ [e])).

Definition get_params : M W params := fun w => (Return (w_params w), w).

Definition set_params (p : params) : M W unit :=
  fun w => (Return tt, mkWorld p (w_seed w) (w_trace w)).

(** One draw from the random stream. *)
Definition fresh_seed : M W nat :=
  fun w => (Return (w_seed w), mkWorld (w_params w) (S (w_seed w)) (w_trace w)).

(** [self.set_forward_mode(mode)] *)
Definition set_forward_mode (mode : forward_mode) : M W unit :=
  log (EvSetForwardMode mode).

(** Lines 294-299: [for k in range(nb_classes): if k != concrete_pred: ...],
    over the classes [ks] still to visit; the list returned is
    [certification_results]. *)
Fixpoint certification_results (concrete_pred : nat) (z : zono) (ks : list nat)
  : M W (list bool) :=
  match ks with
  | [] => ret []
  | k :: ks' =>
      if negb (k =? concrete_pred)%nat then
        let cert_via_sub := certify_via_subtraction clf concrete_pred k z in
        log (EvCertifyViaSubtraction concrete_pred k cert_via_sub) ;;
        rest <- certification_results concrete_pred z ks' ;;
        ret (cert_via_sub :: rest)
      else certification_results concrete_pred z ks'
  end.

(** Python's [all]. *)
Definition all (bs : list bool) : bool := forallb (fun b => b) bs.

(** The loss selected by [certification_loss] (lines 278-288). *)
Definition sample_loss (certification_loss : certification_loss_t F zono)
    (z : zono) (label : nat) : F :=
  match certification_loss with
  | max_logit_loss_name => max_logit_loss clf z label
  | interval_loss_cce_name => interval_loss_cce clf z label
  | custom_loss f => f z label
  end.

(** Lines 258-302: the body of the loop over the samples, up to the [break]
    test.  The accumulator is [(certified_loss, samples_certified)]. *)
Definition sample_step (certification_loss : certification_loss_t F zono)
    (bound : F) (sample_label : sample * nat) (acc : F * nat) : M W (F * nat) :=
  let '(sample, label) := sample_label in
  let '(certified_loss, samples_certified) := acc in
  set_forward_mode concrete ;;
  theta <- get_params ;;
  let concrete_pred := concrete_argmax clf theta sample in
  match concrete_to_zonotope self with
  | None =>
      let processed_sample := pre_process clf sample bound in
      set_forward_mode abstract ;;
      let z := abstract_forward clf theta processed_sample in
      let certified_loss := f_add certified_loss (sample_loss certification_loss z label) in
      results <- certification_results concrete_pred z (seq 0 (nb_classes clf)) ;;
      let samples_certified :=
        if all results then S samples_certified else samples_certified in
      ret (certified_loss, samples_certified)
  | Some convert =>
      (* [eps_bound] is assigned in the other branch only *)
      let processed_sample := convert sample bound in
      set_forward_mode abstract ;;
      raise (UnboundLocalError "eps_bound")
  end.

(** Line 304: [(i + 1) % batch_size == 0 and i > 0]. *)
Definition break_test (batch_size : option Z) (i : nat) : M W bool :=
  match batch_size with
  | None => raise TypeError
  | Some b =>
      if (b =? 0)%Z then raise ZeroDivisionError
      else ret (((Z.of_nat i + 1) mod b =? 0)%Z && (0 <? i)%nat)
  end.

(** Lines 256-305: [for i, (sample, label) in enumerate(zip(x_cert, y_cert))],
    from index [i] on, over the samples [xs] not yet visited. *)
Fixpoint certified_loop (certification_loss : certification_loss_t F zono)
    (bound : F) (batch_size : option Z) (i : nat) (xs : list (sample * nat))
    (acc : F * nat) : M W (F * nat) :=
  match xs with
  | [] => ret acc
  | sample_label :: xs' =>
      acc' <- sample_step certification_loss bound sample_label acc ;;
      stop <- break_test batch_size i ;;
      if stop then ret acc'
      else certified_loop certification_loss bound batch_size (S i) xs' acc'
  end.

(** The variables of [fit] that live across batches and epochs.  [None] is a
    variable that has not been assigned. *)
Record locals : Type := mkLocals {
  l_bound : option F;
  l_schedule : option (DLS.t F);
  l_ind : list nat;
  l_cert : list (sample * nat)
}.

(** Lines 249-351: the body of the loop over the batches, for batch [m] of
    the preprocessed training set [data].  [bound] is assigned by the time a
    batch runs and is read here once for the whole batch;
    [certified_loss /= batch_size] raises [TypeError] on [None], and
    [samples_certified / batch_size], in the progress line, raises
    [ZeroDivisionError] on [0]. *)
Definition batch_step (opt : optimizer) (data : list (sample * nat))
    (certification_loss : certification_loss_t F zono) (batch_size : option Z)
    (st : locals) (m : nat) : M W locals :=
  log EvZeroGrad ;;
  seed <- fresh_seed ;;
  let cert := sklearn_shuffle clf seed (l_cert st) in
  bound <- lookup "bound" (l_bound st) ;;
  '(certified_loss, samples_certified) <-
    certified_loop certification_loss bound batch_size 0 cert (f_zero, O) ;;
  b <- match batch_size with None => raise TypeError | Some b => ret b end ;;
  let certified_loss := f_div certified_loss (f_of_Z b) in
  let pgd_b := Z.to_nat (pgd_batch_size self) in
  let rows := slice (l_ind st) (m * pgd_b) pgd_b in
  let batch := take data rows in
  let o_batch := map snd batch in
  set_forward_mode concrete ;;
  theta <- get_params ;;
  seed' <- fresh_seed ;;
  log (EvAttackGenerate rows) ;;
  let i_batch := pgd_generate clf theta seed' (map fst batch) o_batch in
  log EvModelZeroGrad ;;
  let acc := get_accuracy clf theta i_batch o_batch in
  let pgd_loss := concrete_loss clf theta i_batch o_batch in
  (if (b =? 0)%Z then raise ZeroDivisionError else ret tt) ;;
  log (EvSetDescription bound pgd_loss certified_loss acc samples_certified) ;;
  let loss := f_add (f_mul certified_loss (loss_weighting self))
                    (f_mul pgd_loss (f_sub f_one (loss_weighting self))) in
  log (EvBackward loss) ;;
  set_params (optimizer_step clf opt theta cert b bound i_batch o_batch) ;;
  log EvOptimizerStep ;;
  ret (mkLocals (l_bound st) (l_schedule st) (l_ind st) cert).

(** Line 248: [for m in pbar], over the batch numbers [ms] still to run. *)
Fixpoint batch_loop (opt : optimizer) (data : list (sample * nat))
    (certification_loss : certification_loss_t F zono) (batch_size : option Z)
    (ms : list nat) (st : locals) : M W locals :=
  match ms with
  | [] => ret st
  | m :: ms' =>
      st' <- batch_step opt data certification_loss batch_size st m ;;
      batch_loop opt data certification_loss batch_size ms' st'
  end.

(** Lines 241-354: the body of the loop over the epochs. *)
Definition epoch_step (opt : optimizer) (data : list (sample * nat))
    (certification_loss : certification_loss_t F zono) (batch_size : option Z)
    (num_batch : Z) (scheduler : option lr_scheduler) (st : locals) : M W locals :=
  st1 <- (if use_certification_schedule self then
            certification_schedule_function <-
              lookup "certification_schedule_function" (l_schedule st) ;;
            let '(bound, schedule') := DLS.step certification_schedule_function in
            log (EvCertificationScheduleStep bound) ;;
            ret (mkLocals (Some bound) (Some schedule') (l_ind st) (l_cert st))
          else ret st) ;;
  seed <- fresh_seed ;;
  log EvRandomShuffle ;;
  let st2 := mkLocals (l_bound st1) (l_schedule st1)
                      (random_shuffle clf seed (l_ind st1)) (l_cert st1) in
  st3 <- batch_loop opt data certification_loss batch_size
           (seq 0 (Z.to_nat num_batch)) st2 ;;
  match scheduler with
  | Some _ => log EvLrSchedulerStep
  | None => ret tt
  end ;;
  ret st3.

(** Line 240: [for _ in tqdm(range(epochs))], with [n] epochs to go. *)
Fixpoint epoch_loop (opt : optimizer) (data : list (sample * nat))
    (certification_loss : certification_loss_t F zono) (batch_size : option Z)
    (num_batch : Z) (scheduler : option lr_scheduler) (n : nat) (st : locals)
  : M W locals :=
  match n with
  | O => ret st
  | S n' =>
      st' <- epoch_step opt data certification_loss batch_size num_batch scheduler st ;;
      epoch_loop opt data certification_loss batch_size num_batch scheduler n' st'
  end.

(** Lines 205-208: the local [epochs]; it stays unassigned when both
    [nb_epochs] and [self.batch_size] are [None]. *)
Definition resolve_epochs (nb_epochs : option Z) : option Z :=
  match nb_epochs with
  | Some n => Some n
  | None =>
      match batch_size self with
      | Some b => Some b
      | None => None
      end
  end.

(** [fit(self, x, y, certification_loss, batch_size, nb_epochs,
    training_mode, scheduler)].  [data] is the training set after
    [check_and_transform_label_format], [apply_preprocessing] and
    [reduce_labels], sample by sample with its class index. *)
Definition fit (data : list (sample * nat))
    (certification_loss : certification_loss_t F zono)
    (batch_size nb_epochs : option Z) (training_mode : bool)
    (scheduler : option lr_scheduler) : M W unit :=
  let batch_size :=
    match batch_size with
    | None => AdversarialTrainerCertified.batch_size self
    | Some b => Some b
    end in
  let epochs := resolve_epochs nb_epochs in
  log (EvModelTrain training_mode) ;;
  match _optimizer self with
  | None =>
      raise (ValueError "An optimizer is needed to train the model, but none is provided.")
  | Some opt =>
      num_batch <-
        (if (pgd_batch_size self =? 0)%Z then raise ZeroDivisionError
         else ret (ceil_div (Z.of_nat (List.length data)) (pgd_batch_size self))) ;;
      let ind := seq 0 (List.length data) in
      certification_schedule_function <-
        (if use_certification_schedule self then
           match certification_schedule self with
           | None =>
               e <- lookup "epochs" epochs ;;
               if (e =? 0)%Z then raise ZeroDivisionError
               else ret (Some (DLS.of_fit (bound self) e))
           | Some _ => ret None
           end
         else ret None) ;;
      let bound :=
        if use_certification_schedule self then None
        else Some (AdversarialTrainerCertified.bound self) in
      e <- lookup "epochs" epochs ;;
      epoch_loop opt data certification_loss batch_size num_batch scheduler
        (Z.to_nat e) (mkLocals bound certification_schedule_function ind data) ;;
      ret tt
  end.

End Fit.
End AdversarialTrainerCertified.

(** ** Tensors and the TensorFlow objects the patch attack uses

    A tensor is the list of its entries in row-major order. *)

Section Tensors.
Context {F : Type} `{Scalar F}.

Definition tensor : Type := list F.

(** [np.ones(shape)] *)
Definition ones (shape : nat * nat * nat) : tensor :=
  let '(w, h, c) := shape in repeat f_one (w * h * c).

(** [t * v] for a scalar [v] *)
Definition scale (t : tensor) (v : F) : tensor := map (fun x => f_mul x v) t.

(** [t * u] for two tensors of one shape *)
Definition mul_elementwise (t u : tensor) : tensor :=
  map (fun xy => f_mul (fst xy) (snd xy)) (combine t u).

Definition f_min (x y : F) : F := if f_leb x y then x else y.
Definition f_max (x y : F) : F := if f_leb x y then y else x.

(** [tf.clip_by_value(t, clip_value_min, clip_value_max)], which TensorFlow
    computes as [maximum(minimum(t, clip_value_max), clip_value_min)]. *)
Definition clip_by_value (t : tensor) (clip_value_min clip_value_max : F) : tensor :=
  map (fun x => f_max (f_min x clip_value_max) clip_value_min) t.

(** A [tf.Variable]: its value, its constraint and the conversion to its
    dtype.  The constraint is a projection that optimizers apply after an
    update; the constructor and [assign] do not apply it, but both convert
    what they are given to the dtype of the variable. *)
Record Variable_ : Type := mkVariable {
  value : tensor;
  constraint : option (tensor -> tensor);
  dtype : F -> F
}.

(** [tf.Variable(initial_value=..., dtype=..., constraint=...)] *)
Definition tf_Variable (initial_value : tensor) (dtype : F -> F)
    (constraint : option (tensor -> tensor)) : Variable_ :=
  mkVariable (map dtype initial_value) constraint dtype.

(** [v.assign(t)] *)
Definition assign (v : Variable_) (t : tensor) : Variable_ :=
  mkVariable (map (dtype v) t) (constraint v) (dtype v).

(** [tf.keras.optimizers.SGD(learning_rate, momentum=0.0, nesterov=False)
    .apply_gradients(grads_and_vars)]: each variable becomes
    [var - learning_rate * grad], and is then projected by its constraint
    when it has one.  The update and the projection are tensors of the dtype
    of the variable, computed in the arithmetic of [F], and are stored as
    they are. *)
Definition apply_gradients (learning_rate : F)
    (grads_and_vars : list (tensor * Variable_)) : list Variable_ :=
  map (fun gv =>
         let '(g, v) := gv in
         let updated :=
           map (fun pg => f_sub (fst pg) (f_mul learning_rate (snd pg)))
               (combine (value v) g) in
         match constraint v with
         | Some project => mkVariable (project updated) (constraint v) (dtype v)
         | None => mkVariable updated (constraint v) (dtype v)
         end)
      grads_and_vars.

End Tensors.
Arguments tensor F : clear implicits.
Arguments Variable_ F : clear implicits.

(** ** [AdversarialPatchTensorFlowV2] *)

Module AdversarialPatchTensorFlowV2.

(** The classifier handed to the attack, with the parts of the attack that
    are TensorFlow computations on it: [_loss(images, target)] (the mean
    cross-entropy of the classifier on the images under a randomly placed
    patch) and its gradient with respect to the patch, as
    [tape.gradient(loss, [self._patch])] returns it.  The [nat] is the
    position in the stream of random placements. *)
Record classifier_t (F images target defence : Type) : Type := {
  input_shape : nat * nat * nat;
  clip_values : F * F;
  postprocessing_defences : option (list defence);
  predict : images -> target;
  _loss : tensor F -> nat -> images -> target -> F;
  gradient : tensor F -> nat -> images -> target -> tensor F
}.
Arguments input_shape {F images target defence} c.
Arguments clip_values {F images target defence} c.
Arguments postprocessing_defences {F images target defence} c.
Arguments predict {F images target defence} c.
Arguments _loss {F images target defence} c.
Arguments gradient {F images target defence} c.

(** The attributes of the attack that the methods below read or write.
    [targeted] does not exist before the first [_train_step]. *)
Record t (F images target defence : Type) : Type := mk {
  estimator : classifier_t F images target defence;
  learning_rate : F;
  max_iter : nat;
  patch_shape : nat * nat * nat;
  image_shape : nat * nat * nat;
  _patch : Variable_ F;
  targeted : option bool
}.
Arguments mk {F images target defence}.
Arguments estimator {F images target defence} t.
Arguments learning_rate {F images target defence} t.
Arguments max_iter {F images target defence} t.
Arguments patch_shape {F images target defence} t.
Arguments image_shape {F images target defence} t.
Arguments _patch {F images target defence} t.
Arguments targeted {F images target defence} t.

Section Attack.
Context {F : Type} `{Scalar F}.
Context {images target defence : Type}.

Local Abbreviation classifier_t' := (classifier_t F images target defence).
Local Abbreviation attack := (t F images target defence).

(** [c in [1, 3]] *)
Definition in_1_3 (c : nat) : bool := (c =? 1)%nat || (c =? 3)%nat.

(** [x is not None] *)
Definition is_not_None {A : Type} (x : option A) : bool :=
  match x with
  | Some _ => true
  | None => false
  end.

(** [x != []]: [None] is not equal to the empty list. *)
Definition ne_empty_list {A : Type} (x : option (list A)) : bool :=
  match x with
  | Some [] => false
  | _ => true
  end.

(** [assert cond, msg] *)
Definition assert (cond : bool) (msg : string) : outcome unit :=
  if cond then Return tt else Raise (AssertionError msg).

Definition and_then {A B : Type} (r : outcome A) (k : A -> outcome B) : outcome B :=
  match r with
  | Return a => k a
  | Raise e => Raise e
  end.

(** [__init__(self, classifier, ..., learning_rate, max_iter, ...,
    patch_shape)].  [patch_shape] defaults to [None], on which the first
    subscript raises [TypeError].  The patch is a [tf.float32] variable: the
    initial value, a NumPy array, is converted when the variable is built,
    and so are the clip values when the constraint compares them with the
    variable. *)
Definition init (classifier : classifier_t') (learning_rate : F) (max_iter : nat)
    (patch_shape : option (nat * nat * nat)) : outcome attack :=
  let image_shape := input_shape classifier in
  and_then (assert (in_1_3 (snd image_shape))
                   "Color channel need to be in last dimension") (fun _ =>
  match patch_shape with
  | None => Raise TypeError
  | Some patch_shape =>
  and_then (assert (in_1_3 (snd patch_shape))
                   "Color channel need to be in last dimension") (fun _ =>
  and_then (assert (fst (fst patch_shape) =? snd (fst patch_shape))%nat
                   "Patch height and width need to be the same.") (fun _ =>
  and_then (assert (is_not_None (postprocessing_defences classifier)
                    || ne_empty_list (postprocessing_defences classifier))
                   "Framework-specific implementation of Adversarial Patch attack does not yet support postprocessing defences.") (fun _ =>
  let lo := fst (clip_values classifier) in
  let hi := snd (clip_values classifier) in
  let mean_value := f_add (f_div (f_sub hi lo) (f_add f_one f_one)) lo in
  let initial_value := scale (ones patch_shape) mean_value in
  let patch :=
    tf_Variable initial_value f_float32
      (Some (fun x => clip_by_value x (f_float32 lo) (f_float32 hi))) in
  Return (mk classifier learning_rate max_iter patch_shape image_shape patch None))))
  end).

(** [_train_step(self, images, target)]: the loss and the attack after the
    call. *)
Definition _train_step (self : attack) (seed : nat) (images0 : images)
    (target0 : option target) : F * attack :=
  let '(target1, targeted1) :=
    match target0 with
    | None => (predict (estimator self) images0, false)
    | Some tg => (tg, true)
    end in
  let loss := _loss (estimator self) (value (_patch self)) seed images0 target1 in
  let gradients :=
    [gradient (estimator self) (value (_patch self)) seed images0 target1] in
  let gradients :=
    if negb targeted1 then map (fun g => map f_opp g) gradients else gradients in
  let patch' :=
    hd (_patch self)
       (apply_gradients (learning_rate self) (combine gradients [_patch self])) in
  (loss, mk (estimator self) (learning_rate self) (max_iter self) (patch_shape self)
            (image_shape self) patch' (Some targeted1)).

(** [reset_patch(self, initial_patch_value)] *)
Definition reset_patch (self : attack) (initial_patch_value : F) : attack :=
  let initial_value := scale (ones (patch_shape self)) initial_patch_value in
  mk (estimator self) (learning_rate self) (max_iter self) (patch_shape self)
     (image_shape self)
     (assign (_patch self) (mul_elementwise (ones (patch_shape self)) initial_value))
     (targeted self).

(** What can be done to an attack once it is built. *)
Inductive call : Type :=
| TrainStep (seed : nat) (images0 : images) (target0 : option target)
| ResetPatch (initial_patch_value : F).

Definition do_call (self : attack) (c : call) : attack :=
  match c with
  | TrainStep seed images0 target0 => snd (_train_step self seed images0 target0)
  | ResetPatch v => reset_patch self v
  end.

Definition do_calls (self : attack) (cs : list call) : attack :=
  fold_left do_call cs self.

End Attack.
End AdversarialPatchTensorFlowV2.

(** ** Notions used to state the properties *)

Module Props.
Import AdversarialTrainerCertified.
Section TrainerProps.
Context {F : Type} `{Scalar F}.
Context {sample params optimizer zono_in zono user_schedule : Type}.
Variable clf : certifier F sample params optimizer zono_in zono.
Variable self : trainer F sample optimizer zono_in user_schedule.
Local Open Scope py_scope.

(** The per-sample pass over the samples [xs], one at a time in sequence,
    with no early exit. *)
Fixpoint samples_in_sequence (certification_loss : certification_loss_t F zono)
    (bound : F) (xs : list (sample * nat)) (acc : F * nat)
  : M (world F params) (F * nat) :=
  match xs with
  | [] => ret acc
  | sample_label :: xs' =>
      acc' <- sample_step clf self certification_loss bound sample_label acc ;;
      samples_in_sequence certification_loss bound xs' acc'
  end.

(** The classes other than [c], in the order [range(nb_classes)] visits
    them. *)
Definition other_classes (c : nat) : list nat :=
  filter (fun k => negb (k =? c)%nat) (seq 0 (nb_classes clf)).

(** The sum of the certification losses of the samples [xs], added to
    [start] from left to right. *)
Definition sum_of_losses (certification_loss : certification_loss_t F zono)
    (theta : params) (bound : F) (xs : list (sample * nat)) (start : F) : F :=
  fold_left
    (fun total sl =>
       f_add total
         (sample_loss clf certification_loss
            (abstract_forward clf theta (pre_process clf (fst sl) bound)) (snd sl)))
    xs start.

(** [w] with the events [evs] appended to its trace. *)
Definition extend (w : world F params) (evs : list (event F)) : world F params :=
  mkWorld (w_params w) (w_seed w) (w_trace w ++ evs).

(** The events of the certification checks of one sample whose concrete
    prediction is [concrete_pred], over the classes [ks]. *)
Definition certify_events (concrete_pred : nat) (z : zono) (ks : list nat)
  : list (event F) :=
  map (fun k => EvCertifyViaSubtraction concrete_pred k
                  (certify_via_subtraction clf concrete_pred k z))
      (filter (fun k => negb (k =? concrete_pred)%nat) ks).

(** What the epoch loop needs of the variables of [fit]: the schedule object
    is there when a schedule is in use, the bound is assigned otherwise. *)
Definition ready (st : @locals F sample) : Prop :=
  (use_certification_schedule self = true -> l_schedule st <> None) /\
  (use_certification_schedule self = false -> l_bound st <> None).

End TrainerProps.

(** Number of epochs begun in a trace: each pass through the body of the
    epoch loop calls [random.shuffle(ind)] once, and nothing else does. *)
Fixpoint epochs_begun {F : Type} (trace : list (event F)) : nat :=
  match trace with
  | [] => O
  | EvRandomShuffle :: trace' => S (epochs_begun trace')
  | _ :: trace' => epochs_begun trace'
  end.

(** Number of calls to [self._classifier._optimizer.step()] in a trace. *)
Fixpoint optimizer_steps {F : Type} (trace : list (event F)) : nat :=
  match trace with
  | [] => O
  | EvOptimizerStep :: trace' => S (optimizer_steps trace')
  | _ :: trace' => optimizer_steps trace'
  end.

(** [m] returns normally from every state, with a value satisfying [post],
    after beginning [n] more epochs. *)
Definition runs {F params A : Type} (post : A -> Prop) (n : nat)
    (m : M (world F params) A) : Prop :=
  forall w, exists a w',
    m w = (Return a, w') /\ post a /\
    epochs_begun (w_trace w') = (epochs_begun (w_trace w) + n)%nat.

(** [lo <= x <= hi] *)
Definition within (lo hi x : Q) : Prop := (lo <= x)%Q /\ (x <= hi)%Q.

(** The projection of the patch variable is the clipping to the clip values
    of the classifier as [float32] numbers, as [__init__] sets it up. *)
Definition clipped_to_classifier {images target defence : Type}
    (a : AdversarialPatchTensorFlowV2.t Q images target defence) : Prop :=
  constraint (AdversarialPatchTensorFlowV2._patch a)
  = Some (fun x =>
            clip_by_value x
              (round_float32
                 (fst (AdversarialPatchTensorFlowV2.clip_values
                         (AdversarialPatchTensorFlowV2.estimator a))))
              (round_float32
                 (snd (AdversarialPatchTensorFlowV2.clip_values
                         (AdversarialPatchTensorFlowV2.estimator a))))).

(** The patch variable is a [tf.float32] variable. *)
Definition is_float32 {images target defence : Type}
    (a : AdversarialPatchTensorFlowV2.t Q images target defence) : Prop :=
  dtype (AdversarialPatchTensorFlowV2._patch a) = round_float32.

End Props.

(** ** Concrete instances, for running the definitions *)

Module Fixture.
Import AdversarialTrainerCertified.

(** A two-class certifier on samples numbered by [nat]: the concrete
    prediction of sample [s] is [s mod 2], every certification loss is [1],
    class [p] is certified to dominate class [k] exactly when [k < p], and a
    parameter update increments the parameters. *)
Definition clf : certifier Q nat nat unit (nat * Q) nat := {|
  nb_classes := 2;
  concrete_argmax := fun _ s => Nat.modulo s 2;
  pre_process := fun s b => (s, b);
  abstract_forward := fun _ zi => fst zi;
  max_logit_loss := fun _ _ => 1%Q;
  interval_loss_cce := fun _ _ => 1%Q;
  certify_via_subtraction := fun p k _ => (k <? p)%nat;
  pgd_generate := fun _ _ xs _ => xs;
  get_accuracy := fun _ _ _ => 0%Q;
  concrete_loss := fun _ _ _ => 0%Q;
  optimizer_step := fun _ theta _ _ _ _ _ => S theta;
  random_shuffle := fun _ ind => ind;
  sklearn_shuffle := fun _ xs => xs
|}.

(** The constructor defaults ([nb_epochs=20], [bound=0.1],
    [loss_weighting=0.1], [batch_size=10], PGD batch size 128), on a
    classifier with an optimizer. *)
Definition default_trainer : trainer Q nat unit (nat * Q) unit := {|
  _optimizer := Some tt;
  nb_epochs := Some 20%Z;
  bound := (1 # 10)%Q;
  loss_weighting := (1 # 10)%Q;
  batch_size := Some 10%Z;
  concrete_to_zonotope := None;
  use_certification_schedule := true;
  certification_schedule := None;
  pgd_batch_size := 128%Z
|}.

(** The same trainer over a classifier without an optimizer. *)
Definition trainer_without_optimizer : trainer Q nat unit (nat * Q) unit := {|
  _optimizer := None;
  nb_epochs := Some 20%Z;
  bound := (1 # 10)%Q;
  loss_weighting := (1 # 10)%Q;
  batch_size := Some 10%Z;
  concrete_to_zonotope := None;
  use_certification_schedule := true;
  certification_schedule := None;
  pgd_batch_size := 128%Z
|}.

(** The default trainer with a schedule object supplied by the caller. *)
Definition trainer_with_schedule : trainer Q nat unit (nat * Q) unit := {|
  _optimizer := Some tt;
  nb_epochs := Some 20%Z;
  bound := (1 # 10)%Q;
  loss_weighting := (1 # 10)%Q;
  batch_size := Some 10%Z;
  concrete_to_zonotope := None;
  use_certification_schedule := true;
  certification_schedule := Some tt;
  pgd_batch_size := 128%Z
|}.

(** The default trainer with [batch_size=3]. *)
Definition trainer_batch_3 : trainer Q nat unit (nat * Q) unit := {|
  _optimizer := Some tt;
  nb_epochs := Some 20%Z;
  bound := (1 # 10)%Q;
  loss_weighting := (1 # 10)%Q;
  batch_size := Some 3%Z;
  concrete_to_zonotope := None;
  use_certification_schedule := true;
  certification_schedule := None;
  pgd_batch_size := 128%Z
|}.

Definition w0 : world Q nat := mkWorld O O [].

(** Three samples; sample [1] is predicted as class [1] and labelled [0]. *)
Definition data : list (nat * nat) := [(1, 0); (2, 0); (3, 1)]%nat.

Import AdversarialPatchTensorFlowV2.

(** A classifier on inputs of shape [(2, 2, 1)] with pixel range [[0, 1]],
    whose loss gradient is [1] in every entry of the patch. *)
Definition patch_classifier (defences : option (list unit))
  : classifier_t Q unit nat unit := {|
  input_shape := (2, 2, 1)%nat;
  clip_values := (0, 1)%Q;
  postprocessing_defences := defences;
  predict := fun _ => O;
  _loss := fun _ _ _ _ => 0%Q;
  gradient := fun p _ _ _ => map (fun _ => 1%Q) p
|}.

End Fixture.
(** ** The outline of a run of [fit] *)

Module Outline.
Import AdversarialTrainerCertified.

(** The events of a run without those of the certified pass and without the
    losses: what is left tells which steps of training took place, in which
    order, and at which bound. *)
Inductive mark (F : Type) : Type :=
| MModelTrain (mode : bool)
| MScheduleStep (returned : F)
| MShuffle
| MZeroGrad
| MModelZeroGrad
| MProgress (bound : F)
| MBackward
| MOptimizerStep
| MLrSchedulerStep.
Arguments MModelTrain {F} mode.
Arguments MScheduleStep {F} returned.
Arguments MShuffle {F}.
Arguments MZeroGrad {F}.
Arguments MModelZeroGrad {F}.
Arguments MProgress {F} bound.
Arguments MBackward {F}.
Arguments MOptimizerStep {F}.
Arguments MLrSchedulerStep {F}.

Definition mark_of {F : Type} (e : event F) : list (mark F) :=
  match e with
  | EvModelTrain mode => [MModelTrain mode]
  | EvCertificationScheduleStep b => [MScheduleStep b]
  | EvRandomShuffle => [MShuffle]
  | EvZeroGrad => [MZeroGrad]
  | EvSetForwardMode _ => []
  | EvCertifyViaSubtraction _ _ _ => []
  | EvAttackGenerate _ => []
  | EvModelZeroGrad => [MModelZeroGrad]
  | EvSetDescription b _ _ _ _ => [MProgress b]
  | EvBackward _ => [MBackward]
  | EvOptimizerStep => [MOptimizerStep]
  | EvLrSchedulerStep => [MLrSchedulerStep]
  end.

Definition outline {F : Type} (trace : list (event F)) : list (mark F) :=
  flat_map mark_of trace.

(** The marks of one batch trained at the bound [b]. *)
Definition batch_marks {F : Type} (b : F) : list (mark F) :=
  [MZeroGrad; MModelZeroGrad; MProgress b; MBackward; MOptimizerStep].

(** The marks of one epoch of [nb] batches trained at the bound [b]; [step]
    is the value returned by the certification schedule, when one is in use,
    and [lr] tells whether a learning-rate scheduler was passed to [fit]. *)
Definition epoch_marks {F : Type} (step : option F) (b : F) (nb : nat) (lr : bool)
  : list (mark F) :=
  match step with
  | Some v => [MScheduleStep v]
  | None => []
  end
  ++ MShuffle :: List.concat (repeat (batch_marks b) nb)
  ++ (if lr then [MLrSchedulerStep] else []).

(** [m] returns normally from every state, with a value satisfying [post],
    and adds the marks [l] to the outline of the run. *)
Definition yields {F params A : Type} (post : A -> Prop) (l : list (mark F))
    (m : M (world F params) A) : Prop :=
  forall w, exists a w',
    m w = (Return a, w') /\ post a /\
    outline (w_trace w') = outline (w_trace w) ++ l.



(** Number of calls to [scheduler.step()], the learning-rate scheduler. *)
Fixpoint lr_scheduler_steps {F : Type} (trace : list (event F)) : nat :=
  match trace with
  | [] => O
  | EvLrSchedulerStep :: trace' => S (lr_scheduler_steps trace')
  | _ :: trace' => lr_scheduler_steps trace'
  end.



(** The forward mode the model was last set to. *)
Fixpoint last_forward_mode {F : Type} (trace : list (event F))
    (before : option forward_mode) : option forward_mode :=
  match trace with
  | [] => before
  | EvSetForwardMode mode :: trace' => last_forward_mode trace' (Some mode)
  | _ :: trace' => last_forward_mode trace' before
  end.

(** The bound of epoch [j] (from [0]) of a run of [fit] over [e] epochs: the
    value the default schedule returns at its [j + 1]-th step, or the bound
    of the trainer when no schedule is in use. *)
Definition epoch_bound {F : Type} `{Scalar F} (use_schedule : bool)
    (trainer_bound : F) (e : Z) (j : nat) : F :=
  if use_schedule
  then DLS.bound (DLS.steps (S j) (DLS.of_fit trainer_bound e))
  else trainer_bound.

(** The marks of a whole run of [fit]: [e] epochs of [nb] batches each. *)
Definition fit_marks {F : Type} `{Scalar F} (training_mode use_schedule : bool)
    (trainer_bound : F) (e : Z) (nb : nat) (lr : bool) : list (mark F) :=
  MModelTrain training_mode
  :: flat_map
       (fun j =>
          let b := epoch_bound use_schedule trainer_bound e j in
          epoch_marks (if use_schedule then Some b else None) b nb lr)
       (seq 0 (Z.to_nat e)).




Definition is_lr_scheduler_step {F : Type} (m : mark F) : bool :=
  match m with MLrSchedulerStep => true | _ => false end.

Definition is_shuffle {F : Type} (m : mark F) : bool :=
  match m with MShuffle => true | _ => false end.

Definition count {F : Type} (p : mark F -> bool) (l : list (mark F)) : nat :=
  List.length (filter p l).



(** An event of the certified pass: a change of forward mode or a
    certification check. *)
Definition of_certified_pass {F : Type} (e : event F) : Prop :=
  match e with
  | EvSetForwardMode _ | EvCertifyViaSubtraction _ _ _ => True
  | _ => False
  end.

(** [m] leaves the parameters and the random stream alone, whether it
    returns or raises, and adds only events of the certified pass. *)
Definition inert {F params A : Type} (m : M (world F params) A) : Prop :=
  forall w, exists evs,
    snd (m w) = Props.extend w evs /\ Forall of_certified_pass evs.

(** An event that is not a change of forward mode. *)
Definition not_a_mode {F : Type} (e : event F) : Prop :=
  match e with
  | EvSetForwardMode _ => False
  | _ => True
  end.

(** The events [evs] leave a model that is in concrete mode in concrete
    mode, and leave any model in concrete mode when [c] holds. *)
Definition ends_concrete {F : Type} (c : Prop) (evs : list (event F)) : Prop :=
  last_forward_mode evs (Some concrete) = Some concrete /\
  (c -> forall before, last_forward_mode evs before = Some concrete).

(** Whenever [m] returns, the value returned satisfies [post] and the events
    added to the trace satisfy [Q]. *)
Definition after {F params A : Type} (post : A -> Prop)
    (Q : list (event F) -> Prop) (m : M (world F params) A) : Prop :=
  forall w a w',
    m w = (Return a, w') ->
    post a /\ exists evs, w_trace w' = w_trace w ++ evs /\ Q evs.

Section Trains.
Context {F sample optimizer zono_in user_schedule : Type}.
Variable self : trainer F sample optimizer zono_in user_schedule.

(** A configuration under which the batches of [fit] do not raise: no
    conversion function, and a batch size that is an integer other than
    zero. *)
Definition batches_ok (batch_size0 : option Z) : Prop :=
  concrete_to_zonotope self = None /\
  exists b, batch_size0 = Some b /\ b <> 0%Z.

(** [num_batch] of [fit] on [n] samples. *)
Definition num_batches (n : nat) : nat :=
  Z.to_nat (ceil_div (Z.of_nat n) (pgd_batch_size self)).

(** A call [fit(x, y, batch_size=batch_size0, nb_epochs=nb_epochs0)] on [n]
    samples that trains for [e] epochs: the classifier has an optimizer,
    [epochs] resolves to [e], the PGD batch size is not zero, no schedule
    object is configured, [e] is not zero when the default schedule is built
    from it, and either there is no batch to run or the batches do not
    raise. *)
Definition trains (n : nat) (batch_size0 nb_epochs0 : option Z) (e : Z) : Prop :=
  _optimizer self <> None /\
  resolve_epochs self nb_epochs0 = Some e /\
  pgd_batch_size self <> 0%Z /\
  certification_schedule self = None /\
  (use_certification_schedule self = true -> e <> 0%Z) /\
  (num_batches n = O
   \/ batches_ok (match batch_size0 with
                  | Some b => Some b
                  | None => batch_size self
                  end)).

End Trains.

End Outline.

(** ** What a run of [fit] that trains computes

    Training as the docstrings describe it, written as a function: epoch
    after epoch, batch after batch, the parameters are stepped on a loss made
    of the certified loss of the first [batch_size] samples of the shuffled
    certification set, at the bound of the epoch, and of the loss on the
    adversarial examples of one slice of the shuffled indices. *)

Module Reference.
Import AdversarialTrainerCertified Props.

(** The rows of the training set handed to the attack, call by call. *)
Fixpoint attacked_rows {F : Type} (trace : list (event F)) : list (list nat) :=
  match trace with
  | [] => []
  | EvAttackGenerate rows :: trace' => rows :: attacked_rows trace'
  | _ :: trace' => attacked_rows trace'
  end.

(** The losses on which [backward()] was called, in order. *)
Fixpoint backward_losses {F : Type} (trace : list (event F)) : list F :=
  match trace with
  | [] => []
  | EvBackward loss :: trace' => loss :: backward_losses trace'
  | _ :: trace' => backward_losses trace'
  end.

Section Reference.
Context {F : Type} `{Scalar F}.
Context {sample params optimizer zono_in zono user_schedule : Type}.
Variable clf : certifier F sample params optimizer zono_in zono.
Variable self : trainer F sample optimizer zono_in user_schedule.
Variable opt : optimizer.
Variable data : list (sample * nat).
Variable certification_loss : certification_loss_t F zono.
Variable b : Z.

(** What training carries from one batch to the next: the parameters, the
    position in the random stream, the index array and the certification
    set. *)
Record pass : Type := mkPass {
  p_params : params;
  p_seed : nat;
  p_ind : list nat;
  p_cert : list (sample * nat)
}.

(** The samples the certified pass of a batch visits: the first [b] of the
    shuffled certification set, and the first two when [b = 1]. *)
Definition visited (cert : list (sample * nat)) : list (sample * nat) :=
  firstn (if (b =? 1)%Z then 2%nat else Z.to_nat b) cert.

(** The rows of PGD batch [m]: [ind[m * B : (m + 1) * B]]. *)
Definition rows_of (ind : list nat) (m : nat) : list nat :=
  slice ind (m * Z.to_nat (pgd_batch_size self)) (Z.to_nat (pgd_batch_size self)).

(** The certified loss of a batch trained at [bound]. *)
Definition certified_loss_of (bound : F) (p : pass) : F :=
  f_div (sum_of_losses clf certification_loss (p_params p) bound
           (visited (sklearn_shuffle clf (p_seed p) (p_cert p))) f_zero)
        (f_of_Z b).

(** The adversarial examples of PGD batch [m], with their labels. *)
Definition adversarial_batch (m : nat) (p : pass) : list sample * list nat :=
  let batch := take data (rows_of (p_ind p) m) in
  (pgd_generate clf (p_params p) (S (p_seed p)) (map fst batch) (map snd batch),
   map snd batch).

(** The loss of batch [m] trained at [bound]. *)
Definition loss_of (bound : F) (m : nat) (p : pass) : F :=
  f_add (f_mul (certified_loss_of bound p) (loss_weighting self))
        (f_mul (concrete_loss clf (p_params p) (fst (adversarial_batch m p))
                  (snd (adversarial_batch m p)))
               (f_sub f_one (loss_weighting self))).

(** Batch [m] trained at [bound]. *)
Definition train_batch (bound : F) (m : nat) (p : pass) : pass :=
  let cert := sklearn_shuffle clf (p_seed p) (p_cert p) in
  mkPass (optimizer_step clf opt (p_params p) cert b bound
            (fst (adversarial_batch m p)) (snd (adversarial_batch m p)))
         (S (S (p_seed p))) (p_ind p) cert.

(** The batches [ms] trained at [bound], one after the other; with the state
    reached come, for each batch, the rows attacked and the loss. *)
Fixpoint train_batches (bound : F) (ms : list nat) (p : pass)
  : pass * list (list nat * F) :=
  match ms with
  | [] => (p, [])
  | m :: ms' =>
      let r := train_batches bound ms' (train_batch bound m p) in
      (fst r, (rows_of (p_ind p) m, loss_of bound m p) :: snd r)
  end.

(** The start of an epoch: the indices are shuffled. *)
Definition shuffle_indices (p : pass) : pass :=
  mkPass (p_params p) (S (p_seed p)) (random_shuffle clf (p_seed p) (p_ind p))
         (p_cert p).

(** One epoch of [nb] batches trained at [bound]. *)
Definition train_epoch (bound : F) (nb : nat) (p : pass)
  : pass * list (list nat * F) :=
  train_batches bound (seq 0 nb) (shuffle_indices p).

(** One epoch for each bound of [bounds]. *)
Fixpoint train (bounds : list F) (nb : nat) (p : pass)
  : pass * list (list nat * F) :=
  match bounds with
  | [] => (p, [])
  | bound :: bounds' =>
      let r1 := train_epoch bound nb p in
      let r2 := train bounds' nb (fst r1) in
      (fst r2, snd r1 ++ snd r2)
  end.

(** The index arrays of the epochs of [train]. *)
Fixpoint epoch_indices (bounds : list F) (nb : nat) (p : pass) : list (list nat) :=
  match bounds with
  | [] => []
  | bound :: bounds' =>
      p_ind (shuffle_indices p)
      :: epoch_indices bounds' nb (fst (train_epoch bound nb p))
  end.

(** A call [fit(x, y, batch_size=batch_size0, nb_epochs=nb_epochs0)] that
    trains for [e] epochs with the optimizer [opt] and batches of [b]
    samples: [epochs] resolves to [e], the batch size in use is [b >= 1], the
    PGD batch size is not zero, neither a schedule object nor a conversion
    function is configured, and [e] is not zero when the default schedule is
    built from it. *)
Definition trains_with (batch_size0 nb_epochs0 : option Z) (e : Z) : Prop :=
  _optimizer self = Some opt /\
  resolve_epochs self nb_epochs0 = Some e /\
  pgd_batch_size self <> 0%Z /\
  certification_schedule self = None /\
  (use_certification_schedule self = true -> e <> 0%Z) /\
  concrete_to_zonotope self = None /\
  match batch_size0 with
  | Some b0 => Some b0
  | None => batch_size self
  end = Some b /\
  (1 <= b)%Z.

(** The state training starts from in the world [w]. *)
Definition start (w : world F params) : pass :=
  mkPass (w_params w) (w_seed w) (seq 0 (List.length data)) data.

(** [m], run from [w], returns a value and a world that satisfy [post],
    having attacked the batches [rows] and called [backward()] on
    [losses]. *)
Definition follows {A : Type} (m : M (world F params) A) (w : world F params)
    (post : A -> world F params -> Prop) (rows : list (list nat))
    (losses : list F) : Prop :=
  exists a w',
    m w = (Return a, w') /\ post a w' /\
    attacked_rows (w_trace w') = attacked_rows (w_trace w) ++ rows /\
    backward_losses (w_trace w') = backward_losses (w_trace w) ++ losses.

End Reference.
End Reference.

(** ** More concrete instances *)

Module Fixture2.
Import AdversarialTrainerCertified.

(** The default trainer with PGD batches of two samples. *)
Definition trainer_pgd_2 : trainer Q nat unit (nat * Q) unit := {|
  _optimizer := Some tt;
  nb_epochs := Some 20%Z;
  bound := (1 # 10)%Q;
  loss_weighting := (1 # 10)%Q;
  batch_size := Some 10%Z;
  concrete_to_zonotope := None;
  use_certification_schedule := true;
  certification_schedule := None;
  pgd_batch_size := 2%Z
|}.

(** The same without a certification schedule. *)
Definition trainer_no_schedule : trainer Q nat unit (nat * Q) unit := {|
  _optimizer := Some tt;
  nb_epochs := Some 20%Z;
  bound := (1 # 10)%Q;
  loss_weighting := (1 # 10)%Q;
  batch_size := Some 10%Z;
  concrete_to_zonotope := None;
  use_certification_schedule := false;
  certification_schedule := None;
  pgd_batch_size := 2%Z
|}.

(** The default trainer with a conversion function. *)
Definition trainer_with_conversion : trainer Q nat unit (nat * Q) unit := {|
  _optimizer := Some tt;
  nb_epochs := Some 20%Z;
  bound := (1 # 10)%Q;
  loss_weighting := (1 # 10)%Q;
  batch_size := Some 10%Z;
  concrete_to_zonotope := Some (fun s b => (s, b));
  use_certification_schedule := true;
  certification_schedule := None;
  pgd_batch_size := 128%Z
|}.


(** A trainer built with [batch_size=None]. *)
Definition trainer_no_batch_size : trainer Q nat unit (nat * Q) unit := {|
  _optimizer := Some tt;
  nb_epochs := Some 20%Z;
  bound := (1 # 10)%Q;
  loss_weighting := (1 # 10)%Q;
  batch_size := None;
  concrete_to_zonotope := None;
  use_certification_schedule := true;
  certification_schedule := None;
  pgd_batch_size := 128%Z
|}.

(** A trainer whose PGD parameters hold [batch_size = 0]. *)
Definition trainer_pgd_0 : trainer Q nat unit (nat * Q) unit := {|
  _optimizer := Some tt;
  nb_epochs := Some 20%Z;
  bound := (1 # 10)%Q;
  loss_weighting := (1 # 10)%Q;
  batch_size := Some 10%Z;
  concrete_to_zonotope := None;
  use_certification_schedule := true;
  certification_schedule := None;
  pgd_batch_size := 0%Z
|}.

End Fixture2.

(** ** The mask, the overlay and [generate] of the patch attack *)

Module AdversarialPatchOverlay.
Import AdversarialPatchTensorFlowV2.

Section Mask.
Context {F : Type} `{Scalar F}.

(** [np.linspace(start, stop, num)]: [arange(num) * step + start] with
    [step = (stop - start) / (num - 1)], the last entry then set to [stop];
    for [num = 1] the single entry is [0 * (stop - start) + start]. *)
Definition linspace (start stop : F) (num : nat) : list F :=
  match num with
  | O => []
  | S O => [f_add (f_mul (f_of_Z 0) (f_sub stop start)) start]
  | S (S _ as div) =>
      let step := f_div (f_sub stop start) (f_of_Z (Z.of_nat div)) in
      map (fun i => f_add (f_mul (f_of_Z (Z.of_nat i)) step) start) (seq 0 div)
      ++ [stop]
  end.

(** [x ** n] for a natural number [n] *)
Fixpoint f_pow (x : F) (n : nat) : F :=
  match n with
  | O => f_one
  | S n' => f_mul (f_pow x n') x
  end.

(** [np.clip(z, a_min, a_max)], that is
    [np.minimum(a_max, np.maximum(z, a_min))] *)
Definition np_clip (z a_min a_max : F) : F := f_min a_max (f_max z a_min).

(** Lines 200-207: [1 - np.clip((x_grid ** 2 + y_grid ** 2) ** sharpness, -1, 1)]
    on the grid of [diameter] by [diameter] points of [[-1, 1]]; row [j]
    belongs to [y[j]], column [i] to [x[i]]. *)
Definition mask_2d (diameter sharpness : nat) : list (list F) :=
  let x := linspace (f_opp f_one) f_one diameter in
  let y := linspace (f_opp f_one) f_one diameter in
  map (fun yj =>
         map (fun xi =>
                f_sub f_one
                  (np_clip (f_pow (f_add (f_pow xi 2) (f_pow yj 2)) sharpness)
                           (f_opp f_one) f_one))
             x)
      y.

(** One dimension of [np.broadcast_to]: a dimension of size [s] is
    compatible with a target of size [t] when [s = t] or [s = 1]. *)
Definition broadcastable (s t : nat) : bool := (s =? t)%nat || (s =? 1)%nat.

(** Broadcast a list along one dimension. *)
Definition broadcast_dim {A : Type} (l : list A) (t : nat) : list A :=
  if (List.length l =? t)%nat then l
  else match l with
       | [a] => repeat a t
       | _ => l
       end.

(** [_get_circular_patch_mask(self, nb_images, sharpness=40)], for
    [nb_images >= 1]: the mask of shape [(diameter, diameter, 1)] is
    broadcast to [image_shape] (which numpy refuses with [ValueError] when
    the image is not square and not one pixel high) and stacked [nb_images]
    times.  A mask is a list of rows, a row a list of pixels, a pixel the
    list of its channels. *)
Definition _get_circular_patch_mask (image_shape : nat * nat * nat)
    (nb_images sharpness : nat) : outcome (list (list (list (list F)))) :=
  let '(height, width, channels) := image_shape in
  let diameter := height in
  let image_mask := mask_2d diameter sharpness in
  if broadcastable diameter width then
    let image_mask :=
      map (fun row => map (fun m => repeat m channels) (broadcast_dim row width))
          image_mask in
    Return (repeat image_mask nb_images)
  else Raise (ValueError "operands could not be broadcast together").

End Mask.

Section Overlay.
Context {F : Type} `{Scalar F}.

(** [math.pi], [math.cos] and [math.sin] *)
Variable pi : F.
Variables cos sin : F -> F.

(** The attributes [scale_min], [scale_max] and [rotation_max]. *)
Record overlay_params : Type := {
  scale_min : F;
  scale_max : F;
  rotation_max : F
}.

(** [np.random.uniform(low, high)], computed by numpy as
    [low + (high - low) * u] for a draw [u] from [[0, 1)]. *)
Definition uniform (low high u : F) : F := f_add low (f_mul (f_sub high low) u).

(** The four draws made for one image, in the order the code makes them:
    scale, x shift, y shift, rotation. *)
Definition draws : Type := (F * F * F * F)%type.

(** Lines 228-269: the transform vector of one image. *)
Definition transform_vector (p : overlay_params) (image_shape : nat * nat * nat)
    (scale : option F) (u : draws) : list F :=
  let '(u_scale, u_x, u_y, u_phi) := u in
  let two := f_add f_one f_one in
  let im_scale :=
    match scale with
    | None => uniform (scale_min p) (scale_max p) u_scale
    | Some s => s
    end in
  let padding_after_scaling :=
    f_mul (f_sub f_one im_scale) (f_of_Z (Z.of_nat (fst (fst image_shape)))) in
  let x_shift := uniform (f_opp padding_after_scaling) padding_after_scaling u_x in
  let y_shift := uniform (f_opp padding_after_scaling) padding_after_scaling u_y in
  let phi_rotate :=
    f_mul (f_div (uniform (f_opp (rotation_max p)) (rotation_max p) u_phi)
                 (f_of_Z 90))
          (f_div pi two) in
  let inv := f_div f_one im_scale in
  let a0 := f_mul (cos (f_opp phi_rotate)) inv in
  let a1 := f_mul (f_opp (sin (f_opp phi_rotate))) inv in
  let b0 := f_mul (sin (f_opp phi_rotate)) inv in
  let b1 := f_mul (cos (f_opp phi_rotate)) inv in
  let x_origin := f_div (f_of_Z (Z.of_nat (fst (fst image_shape)))) two in
  let y_origin := f_div (f_of_Z (Z.of_nat (snd (fst image_shape)))) two in
  let x_origin_shifted := f_add (f_mul a0 x_origin) (f_mul a1 y_origin) in
  let y_origin_shifted := f_add (f_mul b0 x_origin) (f_mul b1 y_origin) in
  let x_origin_delta := f_sub x_origin x_origin_shifted in
  let y_origin_delta := f_sub y_origin y_origin_shifted in
  let a2 := f_sub x_origin_delta (f_div x_shift (f_mul two im_scale)) in
  let b2 := f_sub y_origin_delta (f_div y_shift (f_mul two im_scale)) in
  [a0; a1; a2; b0; b1; b2; f_zero; f_zero].

End Overlay.

Section Generate.
Context {F : Type} `{Scalar F}.
Context {image label defence : Type}.

(** [tf.data]'s [shuffle(10000)], which draws a new order at each
    repetition; the [nat] is the number of the repetition. *)
Variable shuffle_dataset : nat -> list (image * label) -> list (image * label).

(** [Dataset.batch(batch_size)]: consecutive batches of [batch_size]
    elements, the last one shorter when the length is no multiple. *)
Definition batch {A : Type} (batch_size : nat) (xs : list A) : list (list A) :=
  map (fun m => slice xs (m * batch_size) batch_size)
      (seq 0 (Z.to_nat (ceil_div (Z.of_nat (List.length xs)) (Z.of_nat batch_size)))).

(** [math.ceil(x)] for a finite binary64 [x]. *)
Definition float_ceil (x : float) : Z :=
  match Prim2SF x with
  | S754_finite s m e =>
      let n := cond_Zopp s (Zpos m) in
      if (0 <=? e)%Z then (n * 2 ^ e)%Z else ceil_div n (2 ^ (- e))
  | _ => 0%Z
  end.

(** [math.ceil(self.max_iter / (x.shape[0] / self.batch_size))], as CPython
    computes it: two divisions in binary64, then the ceiling.  The sizes are
    below [2 ^ 53], so that their conversion to [float] is exact, and
    [x.shape[0]] is not zero. *)
Definition repetitions (max_iter0 : nat) (batch_size : positive) (n : nat) : nat :=
  let to_float k := PrimFloat.of_uint63 (Uint63.of_Z k) in
  Z.to_nat
    (float_ceil
       (PrimFloat.div (to_float (Z.of_nat max_iter0))
          (PrimFloat.div (to_float (Z.of_nat n)) (to_float (Z.pos batch_size))))).

(** Lines 290-302: the dataset [generate] iterates over, one pair of images
    and targets per batch.  [batch_size] is positive ([tf.data] refuses any
    other), and the division by [x.shape[0] / self.batch_size] raises
    [ZeroDivisionError] for an empty [x]. *)
Definition dataset (max_iter0 : nat) (batch_size : positive) (n : nat)
    (xy : list (image * label)) (shuffle : bool)
  : outcome (list (list image * list label)) :=
  if (n =? 0)%nat then Raise ZeroDivisionError
  else
    Return
      (flat_map
         (fun r =>
            map (fun b => (map fst b, map snd b))
                (batch (Pos.to_nat batch_size)
                       (if shuffle then shuffle_dataset r xy else xy)))
         (seq 0 (repetitions max_iter0 batch_size n))).

(** What TensorFlow raises inside [_train_step(images, target)] on the
    attack [self] once the mask is built, if anything: the overlay of a
    patch whose shape is not the shape of the images, a classifier that
    refuses its input, labels of another length than the images. *)
Variable train_step_error :
  t F (list image) (list label) defence -> list image -> list label -> option exn.

(** Lines 304-316: the loop of [generate] over the batches [ds] of the
    dataset, from iteration [i_iter] on.  A step starts with
    [_random_overlay], which builds the mask for the images of the batch
    (line 216) before anything else. *)
Fixpoint generate_steps (self : t F (list image) (list label) defence)
    (i_iter : nat) (ds : list (list image * list label))
  : outcome (t F (list image) (list label) defence) :=
  match ds with
  | [] => Return self
  | (images0, target0) :: ds' =>
      if (max_iter self <=? i_iter)%nat then Return self
      else
        match _get_circular_patch_mask (F := F) (image_shape self)
                (List.length images0) 40 with
        | Raise e => Raise e
        | Return _ =>
            match train_step_error self images0 target0 with
            | Some e => Raise e
            | None =>
                generate_steps (snd (_train_step self i_iter images0 (Some target0)))
                               (S i_iter) ds'
            end
        end
  end.

(** [generate(self, x, y, shuffle=True)], with [self.batch_size] as
    [batch_size]: the attack after the call and the pair returned, the patch
    and the mask of one image.  [xy] pairs each image with its label after
    [check_and_transform_label_format]. *)
Definition generate (self : t F (list image) (list label) defence)
    (batch_size : positive) (xy : list (image * label)) (shuffle : bool)
  : outcome (t F (list image) (list label) defence
             * (tensor F * list (list (list F)))) :=
  match dataset (max_iter self) batch_size (List.length xy) xy shuffle with
  | Raise e => Raise e
  | Return ds =>
      match generate_steps self 0 ds with
      | Raise e => Raise e
      | Return self' =>
          match _get_circular_patch_mask (image_shape self') 1 40 with
          | Raise e => Raise e
          | Return masks => Return (self', (value (_patch self'), hd [] masks))
          end
      end
  end.

(** The calls [generate] makes over the batches [ds], from iteration [i]. *)
Fixpoint train_calls (i : nat) (ds : list (list image * list label))
  : list (call (F := F) (images := list image) (target := list label)) :=
  match ds with
  | [] => []
  | (images0, target0) :: ds' =>
      TrainStep i images0 (Some target0) :: train_calls (S i) ds'
  end.

End Generate.
End AdversarialPatchOverlay.

(** ** Concrete instances for the patch attack *)

Module Fixture3.
Import AdversarialPatchTensorFlowV2 AdversarialPatchOverlay.

(** A classifier on batches of images of shape [(2, 2, 1)] with pixel range
    [[0, 1]], whose loss gradient is [1] in every entry of the patch. *)
Definition batch_classifier : classifier_t Q (list nat) (list nat) unit := {|
  input_shape := (2, 2, 1)%nat;
  clip_values := (0, 1)%Q;
  postprocessing_defences := None;
  predict := fun xs => map (fun _ => O) xs;
  _loss := fun _ _ _ _ => 0%Q;
  gradient := fun p _ _ _ => map (fun _ => 1%Q) p
|}.

(** The same with a loss that is flat: its gradient is [0] everywhere. *)
Definition flat_classifier : classifier_t Q unit nat unit := {|
  input_shape := (2, 2, 1)%nat;
  clip_values := (0, 1)%Q;
  postprocessing_defences := None;
  predict := fun _ => O;
  _loss := fun _ _ _ _ => 0%Q;
  gradient := fun p _ _ _ => map (fun _ => 0%Q) p
|}.

(** The attack on [batch_classifier] with three iterations, as [__init__]
    leaves it: the patch is the midpoint of the pixel range. *)
Definition batch_attack : t Q (list nat) (list nat) unit :=
  mk batch_classifier 5%Q 3%nat (2, 2, 1)%nat (2, 2, 1)%nat
     (mkVariable [(1 # 2)%Q; (1 # 2)%Q; (1 # 2)%Q; (1 # 2)%Q]
                 (Some (fun x => clip_by_value x (round_float32 0) (round_float32 1)))
                 round_float32)
     None.

(** The same attack for images of shape [(2, width, 1)]. *)
Definition wide_attack (width : nat) : t Q (list nat) (list nat) unit :=
  mk batch_classifier 5%Q 3%nat (2, 2, 1)%nat (2, width, 1)%nat
     (_patch batch_attack) None.

(** Five labelled images. *)
Definition xy : list (nat * nat) := [(0, 1); (1, 0); (2, 1); (3, 0); (4, 1)]%nat.

(** The default overlay parameters: scales from [0.1] to [1], rotations up
    to [22.5] degrees. *)
Definition overlay : overlay_params (F := Q) := {|
  scale_min := (1 # 10)%Q;
  scale_max := 1%Q;
  rotation_max := (45 # 2)%Q
|}.

End Fixture3.

(** ** Facts about the scheduler *)

Lemma steps_step_per_epoch {F} `{Scalar F} (n : nat) (s : DLS.t F) :
  DLS.step_per_epoch (DLS.steps n s) = DLS.step_per_epoch s.
Proof.
  revert s; induction n as [|n IH]; intros s; simpl; [reflexivity|].
  now rewrite IH.
Qed.

Lemma steps_bound_Q (n : nat) (s : DLS.t Q) :
  (DLS.bound (DLS.steps n s)
   == DLS.bound s + inject_Z (Z.of_nat n) * DLS.step_per_epoch s)%Q.
Proof.
  revert s; induction n as [|n IH]; intros s.
  - simpl. ring.
  - change (DLS.steps (S n) s) with (DLS.steps n (snd (DLS.step s))).
    rewrite IH. simpl DLS.bound. simpl DLS.step_per_epoch.
    rewrite Nat2Z.inj_succ. unfold Z.succ. rewrite inject_Z_plus.
    simpl f_add. ring.
Qed.

(** C4, as the claim states it, fails in binary64: with the constructor
    defaults [bound = 0.1] and ten epochs, ten calls to [step()] leave the
    stored bound at [0.09999999999999999], strictly below [0.1]. *)
Lemma default_scheduler_float_misses_bound :
  let s := DLS.steps 10 (DLS.of_fit py_0_1 10) in
  PrimFloat.eqb (DLS.bound s) py_0_1 = false /\
  PrimFloat.ltb (DLS.bound s) py_0_1 = true.
Proof. vm_compute. split; reflexivity. Qed.


(** In binary64 twenty steps of [0.1 / 20] end above the bound, at
    [0.10000000000000002]: the ramp can pass the bound as well as miss it. *)
Example default_scheduler_float_passes_bound :
  PrimFloat.ltb py_0_1 (DLS.bound (DLS.steps 20 (DLS.of_fit py_0_1 20))) = true.
Proof. vm_compute. reflexivity. Qed.

(** In binary64 the bound never decreases along the ten steps of the
    default configuration. *)
Example default_scheduler_float_steps_monotone :
  forallb (fun n => PrimFloat.leb (DLS.bound (DLS.steps n (DLS.of_fit py_0_1 10)))
                                  (DLS.bound (DLS.steps (S n) (DLS.of_fit py_0_1 10))))
          (seq 0 10) = true.
Proof. vm_compute. reflexivity. Qed.

(** C4 (amended): in exact arithmetic, for [epochs > 0], each of the first
    [n] calls to [step()] on the scheduler built by [fit] returns the new
    stored bound, which is the previous one plus [bound / epochs], and after
    exactly [epochs] calls the stored bound equals [bound]. *)
Theorem default_scheduler_exact_reaches_bound (b : Q) (epochs : Z) :
  (0 < epochs)%Z ->
  let s0 := DLS.of_fit b epochs in
  (DLS.bound s0 == 0)%Q /\
  (forall n : nat,
     let s := DLS.steps n s0 in
     fst (DLS.step s) = DLS.bound (snd (DLS.step s)) /\
     (DLS.bound (snd (DLS.step s)) == DLS.bound s + b / inject_Z epochs)%Q) /\
  (DLS.bound (DLS.steps (Z.to_nat epochs) s0) == b)%Q.
Proof.
  intros Hpos s0. split; [reflexivity|]. split.
  - intros n s. split; [reflexivity|].
    simpl. unfold s. rewrite steps_step_per_epoch. reflexivity.
  - rewrite steps_bound_Q. unfold s0. simpl.
    rewrite Z2Nat.id by lia.
    assert (Hne : ~ (inject_Z epochs == 0)%Q).
    { unfold Qeq; simpl. lia. }
    field. exact Hne.
Qed.

Lemma default_scheduler_exact_reaches_bound_witness :
  (DLS.bound (DLS.steps (Z.to_nat 10) (DLS.of_fit (1 # 10)%Q 10)) == 1 # 10)%Q.
Proof.
  apply (default_scheduler_exact_reaches_bound (1 # 10)%Q 10%Z).
  reflexivity.
Defined.



(** ** Facts about the effect monad *)

Section MonadFacts.
Context {W A B : Type}.

Lemma bind_Return (m : M W A) (k : A -> M W B) (w w' : W) (a : A) :
  m w = (Return a, w') -> bind m k w = k a w'.
Proof. intros E. unfold bind. rewrite E. reflexivity. Qed.

Lemma bind_Raise (m : M W A) (k : A -> M W B) (w w' : W) (e : exn) :
  m w = (Raise e, w') -> bind m k w = (Raise e, w').
Proof. intros E. unfold bind. rewrite E. reflexivity. Qed.

Lemma bind_ret_l (a : A) (k : A -> M W B) (w : W) : bind (ret a) k w = k a w.
Proof. reflexivity. Qed.

End MonadFacts.

(** Use an equation [m w = (Return a, w')] or [m w = (Raise e, w')] to run
    every [bind m _ w] of the goal. *)
Ltac run_bind E :=
  match type of E with
  | ?m ?w = (Return ?a, ?w') =>
      repeat match goal with
             | |- context [bind m ?k w] => rewrite (bind_Return m k w w' a E)
             end
  | ?m ?w = (Raise ?e, ?w') =>
      repeat match goal with
             | |- context [bind m ?k w] => rewrite (bind_Raise m k w w' e E)
             end
  end.

(** ** The certified pass of [fit] *)

Section CertifiedPass.
Import AdversarialTrainerCertified Props.
Context {F : Type} `{Scalar F}.
Context {sample params optimizer zono_in zono user_schedule : Type}.
Variable clf : certifier F sample params optimizer zono_in zono.
Variable self : trainer F sample optimizer zono_in user_schedule.

Local Abbreviation W := (world F params).

Lemma extend_nil (w : W) : extend w [] = w.
Proof. destruct w. unfold extend. simpl. now rewrite app_nil_r. Qed.

Lemma extend_extend (w : W) (e1 e2 : list (event F)) :
  extend (extend w e1) e2 = extend w (e1 ++ e2).
Proof. unfold extend. simpl. now rewrite app_assoc. Qed.

Lemma log_run (e : event F) (w : W) :
  log e w = (Return tt, extend w [e]).
Proof. reflexivity. Qed.

Lemma certification_results_run (concrete_pred : nat) (z : zono) (ks : list nat) (w : W) :
  certification_results clf concrete_pred z ks w =
  (Return (map (fun k => certify_via_subtraction clf concrete_pred k z)
               (filter (fun k => negb (k =? concrete_pred)%nat) ks)),
   extend w (certify_events clf concrete_pred z ks)).
Proof.
  revert w. induction ks as [|k ks IH]; intros w.
  - simpl. unfold ret, certify_events. simpl. now rewrite extend_nil.
  - unfold certify_events in *. simpl.
    destruct (negb (k =? concrete_pred)%nat) eqn:Ek.
    + unfold bind at 1. rewrite log_run.
      unfold bind at 1. rewrite IH. unfold ret. simpl.
      rewrite extend_extend. reflexivity.
    + apply IH.
Qed.

Lemma epochs_begun_app (t1 t2 : list (event F)) :
  epochs_begun (t1 ++ t2) = (epochs_begun t1 + epochs_begun t2)%nat.
Proof.
  induction t1 as [|e t1 IH]; [reflexivity|].
  destruct e; simpl; rewrite IH; reflexivity.
Qed.

Lemma epochs_begun_certify_events (concrete_pred : nat) (z : zono) (ks : list nat) :
  epochs_begun (certify_events clf concrete_pred z ks) = O.
Proof.
  unfold certify_events.
  induction (filter (fun k => negb (k =? concrete_pred)%nat) ks) as [|k l IH];
    [reflexivity|exact IH].
Qed.

Lemma all_map_forallb {X : Type} (f : X -> bool) (xs : list X) :
  all (map f xs) = forallb f xs.
Proof.
  unfold all. induction xs as [|x xs IH]; simpl; [reflexivity|].
  now rewrite IH.
Qed.

(** One sample of the certified pass, when no conversion function is
    configured: it never raises, adds the loss of the sample, and checks the
    class predicted by the concrete forward pass against every other one. *)
Lemma sample_step_run (certification_loss : certification_loss_t F zono)
    (bound0 : F) (x : sample) (label : nat) (total : F) (certified : nat) (w : W) :
  concrete_to_zonotope self = None ->
  let concrete_pred := concrete_argmax clf (w_params w) x in
  let z := abstract_forward clf (w_params w) (pre_process clf x bound0) in
  sample_step clf self certification_loss bound0 (x, label) (total, certified) w =
  (Return (f_add total (sample_loss clf certification_loss z label),
           if forallb (fun k => certify_via_subtraction clf concrete_pred k z)
                      (other_classes clf concrete_pred)
           then S certified else certified),
   extend w ([EvSetForwardMode concrete; EvSetForwardMode abstract]
             ++ certify_events clf concrete_pred z (seq 0 (nb_classes clf)))).
Proof.
  intros Hc concrete_pred z. unfold sample_step. rewrite Hc.
  unfold set_forward_mode.
  unfold bind at 1. rewrite log_run.
  unfold bind at 1. unfold get_params at 1. simpl w_params.
  unfold bind at 1. rewrite log_run.
  unfold bind at 1. rewrite certification_results_run.
  unfold ret. rewrite all_map_forallb.
  rewrite !extend_extend. reflexivity.
Qed.


(** C2 (amended): when no conversion function is configured, the
    certification checks of a sample are made against the class predicted by
    the concrete forward pass, not against its label: for each class [k]
    other than the predicted one, in increasing order,
    [certify_via_subtraction] is called with the predicted class as the
    dominating class, and the sample is counted as certified exactly when
    every such check returns true. *)
Theorem certification_checks_use_predicted_class
    (certification_loss : certification_loss_t F zono) (bound0 : F)
    (x : sample) (label : nat) (total : F) (certified : nat) (w : W) :
  concrete_to_zonotope self = None ->
  let concrete_pred := concrete_argmax clf (w_params w) x in
  let z := abstract_forward clf (w_params w) (pre_process clf x bound0) in
  exists total' certified' w',
    sample_step clf self certification_loss bound0 (x, label) (total, certified) w
    = (Return (total', certified'), w') /\
    w_trace w' =
      w_trace w ++ [EvSetForwardMode concrete; EvSetForwardMode abstract]
      ++ map (fun k => EvCertifyViaSubtraction concrete_pred k
                         (certify_via_subtraction clf concrete_pred k z))
             (other_classes clf concrete_pred) /\
    (certified' = S certified \/ certified' = certified) /\
    (certified' = S certified <->
     forall k, (k < nb_classes clf)%nat -> k <> concrete_pred ->
               certify_via_subtraction clf concrete_pred k z = true).
Proof.
  intros Hc concrete_pred z.
  pose proof (sample_step_run certification_loss bound0 x label total certified w Hc)
    as Hrun.
  cbv zeta in Hrun. fold concrete_pred z in Hrun.
  eexists _, _, _. split; [exact Hrun|]. split; [reflexivity|].
  destruct (forallb (fun k => certify_via_subtraction clf concrete_pred k z)
                    (other_classes clf concrete_pred)) eqn:Eall.
  - split; [now left|]. split; [|reflexivity].
    intros _ k Hk Hne. rewrite forallb_forall in Eall. apply Eall.
    unfold other_classes. apply filter_In. split.
    + apply in_seq. lia.
    + apply Bool.negb_true_iff. now apply Nat.eqb_neq.
  - split; [now right|]. split; [intros E; lia|].
    intros Hall. exfalso.
    assert (Htrue : forallb (fun k => certify_via_subtraction clf concrete_pred k z)
                            (other_classes clf concrete_pred) = true).
    { apply forallb_forall. intros k Hin. unfold other_classes in Hin.
      apply filter_In in Hin. destruct Hin as [Hseq Hne].
      apply in_seq in Hseq. apply Bool.negb_true_iff in Hne.
      apply Nat.eqb_neq in Hne. apply Hall; [lia|exact Hne]. }
    congruence.
Qed.

(** The break test of the loop, for a usable [batch_size]. *)
Lemma break_test_run (b : Z) (i : nat) (w : W) :
  b <> 0%Z ->
  break_test (Some b) i w
  = (Return (((Z.of_nat i + 1) mod b =? 0)%Z && (0 <? i)%nat), w).
Proof.
  intros Hb. unfold break_test.
  destruct (b =? 0)%Z eqn:E; [apply Z.eqb_eq in E; contradiction|reflexivity].
Qed.

(** From index [i] below [b - 1], the loop is the sequential pass over the
    next [b - i] samples. *)
Lemma certified_loop_from (certification_loss : certification_loss_t F zono)
    (bound0 : F) (b : Z) (xs : list (sample * nat)) :
  (2 <= b)%Z ->
  forall (i : nat) (acc : F * nat) (w : W),
    (Z.of_nat i < b)%Z ->
    certified_loop clf self certification_loss bound0 (Some b) i xs acc w
    = samples_in_sequence clf self certification_loss bound0
        (firstn (Z.to_nat b - i) xs) acc w.
Proof.
  intros Hb. induction xs as [|x xs IH]; intros i acc w Hi.
  - rewrite firstn_nil. reflexivity.
  - replace (Z.to_nat b - i)%nat with (S (Z.to_nat b - S i)) by lia.
    cbn [firstn certified_loop samples_in_sequence].
    destruct (sample_step clf self certification_loss bound0 x acc w)
      as [[acc'|e] w1] eqn:Es.
    2: { run_bind Es. reflexivity. }
    run_bind Es.
    erewrite bind_Return by (apply break_test_run; lia).
    destruct (Z.eq_dec (Z.of_nat i + 1) b) as [Elast|Hmore].
    + assert (E0 : ((Z.of_nat i + 1) mod b =? 0)%Z = true).
      { apply Z.eqb_eq. rewrite Elast. apply Z_mod_same_full. }
      assert (E1 : (0 <? i)%nat = true) by (apply Nat.ltb_lt; lia).
      rewrite E0, E1. cbn [andb].
      replace (Z.to_nat b - S i)%nat with O by lia. reflexivity.
    + assert (E0 : ((Z.of_nat i + 1) mod b =? 0)%Z = false).
      { apply Z.eqb_neq. rewrite Z.mod_small by lia. lia. }
      rewrite E0. cbn [andb]. apply IH. lia.
Qed.

(** For [batch_size >= 2] the loop visits the first [batch_size] samples (all
    of them when there are fewer). *)
Lemma certified_loop_takes_batch_size
    (certification_loss : certification_loss_t F zono)
    (bound0 : F) (b : Z) (xs : list (sample * nat)) (acc : F * nat) (w : W) :
  (2 <= b)%Z ->
  certified_loop clf self certification_loss bound0 (Some b) 0 xs acc w
  = samples_in_sequence clf self certification_loss bound0
      (firstn (Z.to_nat b) xs) acc w.
Proof.
  intros Hb. rewrite certified_loop_from by lia.
  now rewrite Nat.sub_0_r.
Qed.

(** For [batch_size = 1] the test [i > 0] lets the first sample through, and
    the loop visits the first two samples. *)
Lemma certified_loop_batch_size_1
    (certification_loss : certification_loss_t F zono)
    (bound0 : F) (xs : list (sample * nat)) (acc : F * nat) (w : W) :
  certified_loop clf self certification_loss bound0 (Some 1%Z) 0 xs acc w
  = samples_in_sequence clf self certification_loss bound0 (firstn 2 xs) acc w.
Proof.
  destruct xs as [|x0 [|x1 rest]]; [reflexivity| |];
    cbn [firstn certified_loop samples_in_sequence].
  - destruct (sample_step clf self certification_loss bound0 x0 acc w)
      as [[acc'|e] w1] eqn:Es.
    2: { run_bind Es. reflexivity. }
    run_bind Es. reflexivity.
  - destruct (sample_step clf self certification_loss bound0 x0 acc w)
      as [[acc1|e] w1] eqn:Es0.
    2: { run_bind Es0. reflexivity. }
    run_bind Es0.
    erewrite bind_Return by (apply break_test_run; lia).
    cbn [Nat.ltb Nat.leb]. rewrite Bool.andb_false_r.
    destruct (sample_step clf self certification_loss bound0 x1 acc1 w1)
      as [[acc2|e] w2] eqn:Es1.
    2: { run_bind Es1. reflexivity. }
    run_bind Es1.
    erewrite bind_Return by (apply break_test_run; lia).
    reflexivity.
Qed.

(** The sequential pass, when no conversion function is configured, returns
    the sum of the losses of its samples and leaves the parameters alone. *)
Lemma samples_in_sequence_run (certification_loss : certification_loss_t F zono)
    (bound0 : F) (xs : list (sample * nat)) :
  concrete_to_zonotope self = None ->
  forall (total : F) (certified : nat) (w : W),
  exists certified' evs,
    samples_in_sequence clf self certification_loss bound0 xs (total, certified) w
    = (Return (sum_of_losses clf certification_loss (w_params w) bound0 xs total,
               certified'),
       extend w evs) /\
    (certified' <= certified + List.length xs)%nat /\
    epochs_begun evs = O.
Proof.
  intros Hc. induction xs as [|[x label] xs IH]; intros total certified w.
  - exists certified, []. simpl. unfold ret. rewrite extend_nil.
    repeat split. lia.
  - cbn [samples_in_sequence].
    pose proof (sample_step_run certification_loss bound0 x label total certified w Hc)
      as Es.
    cbv zeta in Es. run_bind Es.
    match goal with
    | |- context [samples_in_sequence _ _ _ _ _ (?t, ?c) ?w1] =>
        destruct (IH t c w1) as (c' & evs & Erun & Hle & Hev)
    end.
    eexists c', _. rewrite Erun. rewrite extend_extend. simpl w_params.
    split; [reflexivity|]. split.
    + simpl List.length.
      destruct (forallb _ _) in Hle; lia.
    + rewrite !epochs_begun_app, epochs_begun_certify_events, Hev. reflexivity.
Qed.


(** C6, where the code departs from it: with [batch_size = 1] and no
    conversion function configured, the inner loop does not stop after the
    first sample (the test [i > 0] fails at [i = 0]); when the training set
    holds two samples or more, the losses of the first two are both added to
    the certified loss, which [fit] then divides by [batch_size = 1]. *)
Theorem certified_loop_batch_size_1_sums_two_samples
    (certification_loss : certification_loss_t F zono) (bound0 : F)
    (x0 x1 : sample * nat) (rest : list (sample * nat))
    (total : F) (certified : nat) (w : W) :
  concrete_to_zonotope self = None ->
  exists certified' w',
    certified_loop clf self certification_loss bound0 (Some 1%Z) 0
      (x0 :: x1 :: rest) (total, certified) w
    = (Return (sum_of_losses clf certification_loss (w_params w) bound0
                 [x0; x1] total, certified'), w') /\
    sum_of_losses clf certification_loss (w_params w) bound0 [x0; x1] total
    = f_add
        (f_add total
           (sample_loss clf certification_loss
              (abstract_forward clf (w_params w) (pre_process clf (fst x0) bound0))
              (snd x0)))
        (sample_loss clf certification_loss
           (abstract_forward clf (w_params w) (pre_process clf (fst x1) bound0))
           (snd x1)).
Proof.
  intros Hc. rewrite certified_loop_batch_size_1. cbn [firstn].
  destruct (samples_in_sequence_run certification_loss bound0 [x0; x1] Hc
              total certified w) as (c' & evs & Erun & _ & _).
  exists c', (extend w evs). split; [exact Erun|reflexivity].
Qed.

(** For [batch_size >= 2] and no conversion function, the certified loss
    accumulated by the inner loop is the sum of the losses of the first
    [batch_size] samples of the shuffled set. *)
Lemma certified_loop_sums_batch
    (certification_loss : certification_loss_t F zono) (bound0 : F) (b : Z)
    (xs : list (sample * nat)) (total : F) (certified : nat) (w : W) :
  concrete_to_zonotope self = None ->
  (2 <= b)%Z ->
  exists certified' evs,
    certified_loop clf self certification_loss bound0 (Some b) 0 xs
      (total, certified) w
    = (Return (sum_of_losses clf certification_loss (w_params w) bound0
                 (firstn (Z.to_nat b) xs) total, certified'),
       extend w evs) /\
    (List.length (firstn (Z.to_nat b) xs) <= Z.to_nat b)%nat.
Proof.
  intros Hc Hb. rewrite certified_loop_takes_batch_size by exact Hb.
  destruct (samples_in_sequence_run certification_loss bound0
              (firstn (Z.to_nat b) xs) Hc total certified w)
    as (c' & evs & Erun & _ & _).
  exists c', evs. split; [exact Erun|]. apply firstn_le_length.
Qed.

(** *** Runs that return *)

Lemma runs_ret {A : Type} (post : A -> Prop) (a : A) :
  post a -> runs (F := F) (params := params) post 0 (ret a).
Proof.
  intros Hp w. exists a, w. repeat split; [exact Hp|lia].
Qed.

Lemma runs_ret_True {A : Type} (a : A) :
  runs (F := F) (params := params) (fun _ => True) 0 (ret a).
Proof. now apply runs_ret. Qed.

Lemma runs_bind {A B : Type} (P : A -> Prop) (Q : B -> Prop) (n p q : nat)
    (m : M W A) (k : A -> M W B) :
  runs P n m -> (forall a, P a -> runs Q p (k a)) -> q = (n + p)%nat ->
  runs Q q (bind m k).
Proof.
  intros Hm Hk -> w.
  destruct (Hm w) as (a & w1 & Em & Hpa & Hn).
  destruct (Hk a Hpa w1) as (b & w2 & Ek & Hqb & Hp).
  exists b, w2. run_bind Em. repeat split; [exact Ek|exact Hqb|lia].
Qed.

Lemma runs_weaken {A : Type} (P Q : A -> Prop) (n : nat) (m : M W A) :
  (forall a, P a -> Q a) -> runs P n m -> runs Q n m.
Proof.
  intros HPQ Hm w. destruct (Hm w) as (a & w' & E & Hp & Hn).
  exists a, w'. repeat split; [exact E|now apply HPQ|exact Hn].
Qed.

Lemma runs_log (e : event F) :
  runs (fun _ => True) (epochs_begun [e]) (log (params := params) e).
Proof.
  intros w. exists tt, (extend w [e]). repeat split.
  unfold extend. cbn [w_trace]. apply epochs_begun_app.
Qed.

Lemma runs_get_params : runs (F := F) (fun _ : params => True) 0 get_params.
Proof. intros w. exists (w_params w), w. repeat split. lia. Qed.

Lemma runs_set_params (p : params) :
  runs (F := F) (fun _ => True) 0 (set_params p).
Proof. intros w. eexists tt, _. repeat split. simpl. lia. Qed.

Lemma runs_fresh_seed : runs (F := F) (params := params) (fun _ => True) 0 fresh_seed.
Proof. intros w. eexists _, _. repeat split. simpl. lia. Qed.

Lemma runs_sample_step (certification_loss : certification_loss_t F zono)
    (bound0 : F) (x : sample * nat) (acc : F * nat) :
  concrete_to_zonotope self = None ->
  runs (fun _ => True) 0 (sample_step clf self certification_loss bound0 x acc).
Proof.
  intros Hc w. destruct x as [x label], acc as [total certified].
  pose proof (sample_step_run certification_loss bound0 x label total certified w Hc)
    as Es.
  cbv zeta in Es. eexists _, _. split; [exact Es|]. split; [exact I|].
  unfold extend. cbn [w_trace].
  rewrite !epochs_begun_app, epochs_begun_certify_events. reflexivity.
Qed.

Lemma runs_break_test (b : Z) (i : nat) :
  b <> 0%Z -> runs (F := F) (params := params) (fun _ => True) 0 (break_test (Some b) i).
Proof.
  intros Hb w. eexists _, w. split; [apply break_test_run; exact Hb|].
  split; [exact I|lia].
Qed.

Lemma runs_certified_loop (certification_loss : certification_loss_t F zono)
    (bound0 : F) (b : Z) (xs : list (sample * nat)) :
  concrete_to_zonotope self = None -> b <> 0%Z ->
  forall (i : nat) (acc : F * nat),
    runs (fun _ => True) 0
      (certified_loop clf self certification_loss bound0 (Some b) i xs acc).
Proof.
  intros Hc Hb. induction xs as [|x xs IH]; intros i acc.
  - now apply runs_ret.
  - cbn [certified_loop].
    eapply runs_bind; [now apply runs_sample_step| |reflexivity].
    intros acc' _.
    eapply runs_bind; [now apply runs_break_test| |reflexivity].
    intros [|] _; [now apply runs_ret|apply IH].
Qed.

End CertifiedPass.

(** ** Batches, epochs and [fit] *)

Section FitFacts.
Import AdversarialTrainerCertified Props.
Context {F : Type} `{Scalar F}.
Context {sample params optimizer zono_in zono user_schedule lr_scheduler : Type}.
Variable clf : certifier F sample params optimizer zono_in zono.
Variable self : trainer F sample optimizer zono_in user_schedule.

Local Abbreviation W := (world F params).
Local Abbreviation locals' := (@locals F sample).
Local Abbreviation ready := (Props.ready self).

Lemma runs_batch_step (opt : optimizer) (data : list (sample * nat))
    (certification_loss : certification_loss_t F zono) (b : Z)
    (st : locals') (m : nat) :
  concrete_to_zonotope self = None -> b <> 0%Z -> l_bound st <> None ->
  runs (fun st' => l_bound st' = l_bound st /\ l_schedule st' = l_schedule st) 0
       (batch_step clf self opt data certification_loss (Some b) st m).
Proof.
  intros Hc Hb Hbound. unfold batch_step.
  destruct (l_bound st) as [bd|] eqn:Ebd; [|contradiction]. cbn [lookup].
  assert (Eb : (b =? 0)%Z = false) by now apply Z.eqb_neq.
  eapply runs_bind; [apply runs_log| |reflexivity]. intros _ _.
  eapply runs_bind; [apply runs_fresh_seed| |reflexivity]. intros seed _.
  eapply runs_bind; [apply runs_ret_True| |reflexivity]. intros bound0 _.
  eapply runs_bind; [now apply runs_certified_loop| |reflexivity].
  intros [certified_loss samples_certified] _.
  eapply runs_bind with (P := fun b' => b' = b); [now apply runs_ret| |reflexivity].
  intros b' ->. rewrite Eb.
  eapply runs_bind; [apply runs_log| |reflexivity]. intros _ _.
  eapply runs_bind; [apply runs_get_params| |reflexivity]. intros theta _.
  eapply runs_bind; [apply runs_fresh_seed| |reflexivity]. intros seed' _.
  eapply runs_bind; [apply runs_log| |reflexivity]. intros _ _.
  eapply runs_bind; [apply runs_log| |reflexivity]. intros _ _.
  eapply runs_bind; [apply runs_ret_True| |reflexivity]. intros _ _.
  eapply runs_bind; [apply runs_log| |reflexivity]. intros _ _.
  eapply runs_bind; [apply runs_log| |reflexivity]. intros _ _.
  eapply runs_bind; [apply runs_set_params| |reflexivity]. intros _ _.
  eapply runs_bind; [apply runs_log| |reflexivity]. intros _ _.
  apply runs_ret. cbn [l_bound l_schedule]. now split.
Qed.

Lemma runs_batch_loop (opt : optimizer) (data : list (sample * nat))
    (certification_loss : certification_loss_t F zono) (b : Z) (ms : list nat) :
  concrete_to_zonotope self = None -> b <> 0%Z ->
  forall st : locals',
    l_bound st <> None ->
    runs (fun st' => l_bound st' = l_bound st /\ l_schedule st' = l_schedule st) 0
         (batch_loop clf self opt data certification_loss (Some b) ms st).
Proof.
  intros Hc Hb. induction ms as [|m ms IH]; intros st Hbound.
  - apply runs_ret. now split.
  - cbn [batch_loop].
    eapply runs_bind; [now apply runs_batch_step| |reflexivity].
    intros st' [Eb Es]. eapply runs_weaken; [|apply IH; congruence].
    intros st'' [Eb' Es']. split; congruence.
Qed.

Lemma runs_epoch_step (opt : optimizer) (data : list (sample * nat))
    (certification_loss : certification_loss_t F zono) (b : Z)
    (num_batch : Z) (scheduler : option lr_scheduler) (st : locals') :
  concrete_to_zonotope self = None -> b <> 0%Z -> ready st ->
  runs ready 1
       (epoch_step clf self opt data certification_loss (Some b) num_batch
          scheduler st).
Proof.
  intros Hc Hb [Hsched Hbound]. unfold epoch_step.
  eapply runs_bind with
    (P := fun st1 : locals' => l_bound st1 <> None /\ ready st1) (n := O) (p := 1%nat);
    [| |reflexivity].
  - destruct (use_certification_schedule self) eqn:Euse.
    + destruct (l_schedule st) as [s|] eqn:Es; [|now specialize (Hsched eq_refl)].
      cbn [lookup].
      eapply runs_bind; [apply runs_ret_True| |reflexivity]. intros s' _.
      cbn [DLS.step].
      eapply runs_bind; [apply runs_log| |reflexivity]. intros _ _.
      apply runs_ret. unfold ready. rewrite Euse. cbn [l_bound l_schedule].
      repeat split; congruence.
    + apply runs_ret. unfold ready. rewrite Euse.
      repeat split; auto; congruence.
  - intros st1 [Hb1 [Hs1 Hb1']].
    eapply runs_bind with (n := O) (p := 1%nat);
      [apply runs_fresh_seed| |reflexivity]. intros seed _.
    eapply runs_bind with (n := 1%nat) (p := O);
      [apply (runs_log EvRandomShuffle)| |reflexivity]. intros _ _.
    eapply runs_bind; [apply runs_batch_loop; assumption| |reflexivity].
    cbn [l_bound l_schedule]. intros st3 [Eb3 Es3].
    eapply runs_bind with (n := O) (p := O) (P := fun _ => True); [| |reflexivity].
    + destruct scheduler; [apply runs_log|apply runs_ret_True].
    + intros _ _. apply runs_ret. unfold ready. rewrite Eb3, Es3. now split.
Qed.

Lemma runs_epoch_loop (opt : optimizer) (data : list (sample * nat))
    (certification_loss : certification_loss_t F zono) (b : Z)
    (num_batch : Z) (scheduler : option lr_scheduler) (n : nat) :
  concrete_to_zonotope self = None -> b <> 0%Z ->
  forall st : locals',
    ready st ->
    runs ready n
         (epoch_loop clf self opt data certification_loss (Some b) num_batch
            scheduler n st).
Proof.
  intros Hc Hb. induction n as [|n IH]; intros st Hst.
  - now apply runs_ret.
  - cbn [epoch_loop].
    eapply runs_bind; [now apply runs_epoch_step| |reflexivity].
    intros st' Hst'. now apply IH.
Qed.

(** C9: when the wrapped classifier has no optimizer, [fit] raises
    [ValueError] after setting the mode of the model and before anything
    else: the parameters are those it started with, and no epoch, batch,
    backward pass or optimizer step has taken place. *)
Theorem fit_without_optimizer_raises (data : list (sample * nat))
    (certification_loss : certification_loss_t F zono)
    (batch_size0 nb_epochs0 : option Z) (training_mode : bool)
    (scheduler : option lr_scheduler) (w : W) :
  _optimizer self = None ->
  exists w',
    fit clf self data certification_loss batch_size0 nb_epochs0 training_mode
        scheduler w
    = (Raise (ValueError
                "An optimizer is needed to train the model, but none is provided."),
       w') /\
    w_params w' = w_params w /\
    w_trace w' = w_trace w ++ [EvModelTrain training_mode] /\
    optimizer_steps (w_trace w') = optimizer_steps (w_trace w) /\
    epochs_begun (w_trace w') = epochs_begun (w_trace w).
Proof.
  intros Hopt. unfold fit. rewrite Hopt.
  eexists. split; [reflexivity|]. cbn [w_params w_trace].
  repeat split.
  - induction (w_trace w) as [|e t IH]; [reflexivity|].
    destruct e; simpl; congruence.
  - rewrite epochs_begun_app. simpl. lia.
Qed.

(** C8, where the code departs from it: with a certification schedule in
    use and a schedule object supplied by the caller, the local
    [certification_schedule_function] is never assigned; when there is at
    least one epoch to run, [fit] raises [UnboundLocalError] at the first
    one, having done nothing but set the mode of the model, and [step()] of
    the supplied schedule is never called. *)
Theorem fit_with_supplied_schedule_raises (data : list (sample * nat))
    (certification_loss : certification_loss_t F zono)
    (batch_size0 nb_epochs0 : option Z) (training_mode : bool)
    (scheduler : option lr_scheduler) (w : W)
    (opt : optimizer) (schedule : user_schedule) (e : Z) :
  use_certification_schedule self = true ->
  certification_schedule self = Some schedule ->
  _optimizer self = Some opt ->
  pgd_batch_size self <> 0%Z ->
  resolve_epochs self nb_epochs0 = Some e ->
  (0 < e)%Z ->
  fit clf self data certification_loss batch_size0 nb_epochs0 training_mode
      scheduler w
  = (Raise (UnboundLocalError "certification_schedule_function"),
     extend w [EvModelTrain training_mode]).
Proof.
  intros Huse Hsched Hopt Hpgd He Hpos. unfold fit.
  rewrite Hopt, Huse, Hsched, He.
  assert (Ep : (pgd_batch_size self =? 0)%Z = false) by now apply Z.eqb_neq.
  rewrite Ep.
  destruct (Z.to_nat e) as [|n] eqn:En; [lia|].
  cbn [lookup]. unfold bind at 1 2 3 4. cbn [log ret]. cbv beta iota.
  rewrite En. cbn [epoch_loop]. unfold epoch_step. rewrite Huse.
  reflexivity.
Qed.

(** With the default scheduler in place, an epoch begins by calling its
    [step()], and the value returned is the bound of that epoch; the indices
    are shuffled next, and the batches follow. *)
Lemma epoch_step_default_schedule (opt : optimizer) (data : list (sample * nat))
    (certification_loss : certification_loss_t F zono) (batch_size0 : option Z)
    (num_batch : Z) (scheduler : option lr_scheduler) (st : locals')
    (s : DLS.t F) (w : W) :
  use_certification_schedule self = true ->
  l_schedule st = Some s ->
  epoch_step clf self opt data certification_loss batch_size0 num_batch scheduler
    st w
  = bind
      (batch_loop clf self opt data certification_loss batch_size0
         (seq 0 (Z.to_nat num_batch))
         (mkLocals (Some (fst (DLS.step s))) (Some (snd (DLS.step s)))
                   (random_shuffle clf (w_seed w) (l_ind st)) (l_cert st)))
      (fun st3 =>
         bind (match scheduler with
               | Some _ => log EvLrSchedulerStep
               | None => ret tt
               end)
              (fun _ => ret st3))
      (mkWorld (w_params w) (S (w_seed w))
         (w_trace w ++ [EvCertificationScheduleStep (fst (DLS.step s));
                        EvRandomShuffle])).
Proof.
  intros Huse Hs. unfold epoch_step. rewrite Huse, Hs.
  cbn [lookup DLS.step fst snd]. unfold bind at 1 2 3. cbn.
  unfold bind at 1 2. cbn. rewrite <- app_assoc. reflexivity.
Qed.

(** C10: a call to [fit] that leaves [nb_epochs] as [None] runs
    [self.batch_size] epochs, whatever [self.nb_epochs] is.  The call is one
    that trains: the classifier has an optimizer, [self.batch_size] is
    positive, the PGD batch size and the batch size in use are not zero, and
    neither a conversion function nor a schedule object is configured (both
    make [fit] raise).  Then [fit] returns, and has begun exactly
    [self.batch_size] epochs. *)
Theorem fit_default_epochs_is_batch_size (data : list (sample * nat))
    (certification_loss : certification_loss_t F zono)
    (batch_size0 : option Z) (training_mode : bool)
    (scheduler : option lr_scheduler) (w : W) (opt : optimizer) (b : Z) :
  _optimizer self = Some opt ->
  batch_size self = Some b ->
  (0 < b)%Z ->
  batch_size0 <> Some 0%Z ->
  pgd_batch_size self <> 0%Z ->
  concrete_to_zonotope self = None ->
  certification_schedule self = None ->
  exists w',
    fit clf self data certification_loss batch_size0 None training_mode
        scheduler w
    = (Return tt, w') /\
    epochs_begun (w_trace w') = (epochs_begun (w_trace w) + Z.to_nat b)%nat.
Proof.
  intros Hopt Hbs Hpos Hb0 Hpgd Hc Hsched.
  assert (Hruns : runs (fun _ => True) (Z.to_nat b)
            (fit clf self data certification_loss batch_size0 None
                 training_mode scheduler)).
  { unfold fit, resolve_epochs. rewrite Hopt, Hbs, Hsched.
    assert (Ep : (pgd_batch_size self =? 0)%Z = false) by now apply Z.eqb_neq.
    assert (Eb : (b =? 0)%Z = false) by (apply Z.eqb_neq; lia).
    rewrite Ep. cbn [lookup].
    assert (Hlocal : exists b', match batch_size0 with
                                | Some b0 => Some b0
                                | None => Some b
                                end = Some b' /\ b' <> 0%Z).
    { destruct batch_size0 as [b0|].
      - exists b0. split; [reflexivity|congruence].
      - exists b. split; [reflexivity|lia]. }
    destruct Hlocal as (b' & -> & Hb').
    eapply runs_bind with (n := O); [apply runs_log| |reflexivity]. intros _ _.
    eapply runs_bind with (n := O); [apply runs_ret_True| |reflexivity].
    intros num_batch _.
    eapply runs_bind with (n := O) (p := Z.to_nat b)
      (P := fun s : option (DLS.t F) =>
              use_certification_schedule self = true -> s <> None);
      [| |reflexivity].
    - destruct (use_certification_schedule self).
      + eapply runs_bind with (n := O) (P := fun e' => e' = b);
          [now apply runs_ret| |reflexivity].
        intros e' ->. rewrite Eb. apply runs_ret. congruence.
      + apply runs_ret. congruence.
    - intros s Hs.
      eapply runs_bind with (n := O) (P := fun e' => e' = b);
        [now apply runs_ret| |reflexivity].
      intros e' ->.
      eapply runs_bind with (n := Z.to_nat b) (p := O) (P := ready);
        [| |apply Nat.add_0_r || (symmetry; apply Nat.add_0_r)].
      + apply runs_epoch_loop; [assumption|assumption|].
        split; cbn [l_schedule l_bound]; [exact Hs|].
        intros ->. congruence.
      + intros _ _. now apply runs_ret. }
  destruct (Hruns w) as ([] & w' & E & _ & Hn).
  exists w'. split; assumption.
Qed.

End FitFacts.

(** ** Facts about the conversion to [float32] *)

Section Float32Facts.
Local Open Scope Q_scope.

Lemma pow2_pos (e : Z) : 0 < pow2 e.
Proof. apply Qpower_0_lt. reflexivity. Qed.

Lemma pow2_le (a b : Z) : (a <= b)%Z -> pow2 a <= pow2 b.
Proof. intros Hab. apply Qpower_le_compat_l; [exact Hab|discriminate]. Qed.

Lemma pow2_lt_inv (a b : Z) : pow2 a < pow2 b -> (a < b)%Z.
Proof. intros Hab. apply (Qpower_lt_compat_l_inv 2); [exact Hab|reflexivity]. Qed.

Lemma pow2_plus (a b : Z) : pow2 (a + b) == pow2 a * pow2 b.
Proof. apply Qpower_plus. discriminate. Qed.

Lemma pow2_of_Z (e : Z) : (0 <= e)%Z -> pow2 e == inject_Z (2 ^ e).
Proof. intros He. unfold pow2. now rewrite Zpower_Qpower. Qed.

Lemma round_half_even_Z (n : Z) : round_half_even (inject_Z n) = n.
Proof.
  unfold round_half_even. rewrite Qfloor_Z.
  assert (E : (inject_Z n - inject_Z n ?= 1 # 2) = Lt).
  { apply Qlt_alt. setoid_replace (inject_Z n - inject_Z n) with 0 by ring.
    reflexivity. }
  now rewrite E.
Qed.

Lemma round_half_even_bounds (q : Q) :
  (Qfloor q <= round_half_even q <= Qfloor q + 1)%Z.
Proof.
  unfold round_half_even.
  destruct (q - inject_Z (Qfloor q) ?= 1 # 2); [destruct (Z.even _)| |]; lia.
Qed.

Lemma round_half_even_mono (x y : Q) :
  x <= y -> (round_half_even x <= round_half_even y)%Z.
Proof.
  intros Hxy. pose proof (Qfloor_resp_le x y Hxy) as Hf.
  destruct (Z.eq_dec (Qfloor x) (Qfloor y)) as [E|Hne].
  - unfold round_half_even. rewrite <- E.
    destruct (Qcompare_spec (x - inject_Z (Qfloor x)) (1 # 2)) as [Hx|Hx|Hx];
      destruct (Qcompare_spec (y - inject_Z (Qfloor x)) (1 # 2)) as [Hy|Hy|Hy];
      try destruct (Z.even (Qfloor x)); try lia; exfalso; lra.
  - pose proof (round_half_even_bounds x). pose proof (round_half_even_bounds y).
    lia.
Qed.

Lemma round_half_even_ge (n : Z) (x : Q) :
  inject_Z n <= x -> (n <= round_half_even x)%Z.
Proof.
  intros H. rewrite <- (round_half_even_Z n). now apply round_half_even_mono.
Qed.

Lemma round_half_even_le (n : Z) (x : Q) :
  x <= inject_Z n -> (round_half_even x <= n)%Z.
Proof.
  intros H. rewrite <- (round_half_even_Z n). now apply round_half_even_mono.
Qed.

Lemma ilog2_spec (q : Q) :
  0 < q -> pow2 (ilog2 q) <= q /\ q < pow2 (ilog2 q + 1).
Proof.
  intros Hq. destruct q as [n d]. unfold ilog2. cbn [Qnum Qden].
  assert (Hn : (0 < n)%Z) by (unfold Qlt in Hq; simpl in Hq; lia).
  set (ln := Z.log2 n). set (ld := Z.log2 (Zpos d)).
  pose proof (Z.log2_spec n Hn) as [Hn1 Hn2].
  pose proof (Z.log2_spec (Zpos d) ltac:(lia)) as [Hd1 Hd2].
  fold ln in Hn1, Hn2. fold ld in Hd1, Hd2.
  assert (Hln : (0 <= ln)%Z) by apply Z.log2_nonneg.
  assert (Hld : (0 <= ld)%Z) by apply Z.log2_nonneg.
  assert (EA : pow2 ln == inject_Z (2 ^ ln)) by now apply pow2_of_Z.
  assert (EA2 : pow2 (ln + 1) == inject_Z (2 ^ (ln + 1))) by (apply pow2_of_Z; lia).
  assert (EB : pow2 ld == inject_Z (2 ^ ld)) by now apply pow2_of_Z.
  assert (EB2 : pow2 (ld + 1) == inject_Z (2 ^ (ld + 1))) by (apply pow2_of_Z; lia).
  assert (HN1 : pow2 ln <= inject_Z n).
  { rewrite EA. rewrite <- Zle_Qle. exact Hn1. }
  assert (HN2 : inject_Z n < pow2 (ln + 1)).
  { rewrite EA2. rewrite <- Zlt_Qlt. unfold Z.succ in Hn2. exact Hn2. }
  assert (HD1 : pow2 ld <= inject_Z (Zpos d)).
  { rewrite EB. rewrite <- Zle_Qle. exact Hd1. }
  assert (HD2 : inject_Z (Zpos d) < pow2 (ld + 1)).
  { rewrite EB2. rewrite <- Zlt_Qlt. unfold Z.succ in Hd2. exact Hd2. }
  assert (HK1 : pow2 (ln - ld + 1) * pow2 ld == pow2 (ln + 1)).
  { rewrite <- pow2_plus. now replace (ln - ld + 1 + ld)%Z with (ln + 1)%Z by lia. }
  assert (HKm : pow2 (ln - ld - 1) * pow2 (ld + 1) == pow2 ln).
  { rewrite <- pow2_plus. now replace (ln - ld - 1 + (ld + 1))%Z with ln by lia. }
  pose proof (pow2_pos (ln - ld + 1)) as P1.
  pose proof (pow2_pos (ln - ld - 1)) as P2.
  pose proof (pow2_pos ld) as P3.
  assert (HDpos : 0 < inject_Z (Zpos d)) by (unfold Qlt; simpl; lia).
  assert (Eq : n # d == inject_Z n / inject_Z (Zpos d)) by apply Qmake_Qdiv.
  assert (Hup : n # d < pow2 (ln - ld + 1)).
  { rewrite Eq. apply Qlt_shift_div_r; [exact HDpos|]. nra. }
  assert (Hlow : pow2 (ln - ld - 1) <= n # d).
  { rewrite Eq. apply Qle_shift_div_l; [exact HDpos|]. nra. }
  destruct (Qle_bool (pow2 (ln - ld)) (n # d)) eqn:E.
  - apply Qle_bool_iff in E. split; [exact E|exact Hup].
  - split; [exact Hlow|].
    replace (ln - ld - 1 + 1)%Z with (ln - ld)%Z by lia.
    apply Qnot_le_lt. intros Hle. apply Qle_bool_iff in Hle. congruence.
Qed.

Lemma ilog2_mono (x y : Q) : 0 < x -> x <= y -> (ilog2 x <= ilog2 y)%Z.
Proof.
  intros Hx Hxy.
  destruct (ilog2_spec x Hx) as [Hx1 _].
  destruct (ilog2_spec y ltac:(lra)) as [_ Hy2].
  assert (H : pow2 (ilog2 x) < pow2 (ilog2 y + 1)) by lra.
  apply pow2_lt_inv in H. lia.
Qed.

Lemma pow2_split (e k : Z) :
  (e <= k)%Z -> pow2 k == inject_Z (2 ^ (k - e)) * pow2 e.
Proof.
  intros Hek. rewrite <- pow2_of_Z by lia. rewrite <- pow2_plus.
  now replace (k - e + e)%Z with k by lia.
Qed.

Lemma round_on_grid_ge (q : Q) (e k : Z) :
  (e <= k)%Z -> pow2 k <= q ->
  pow2 k <= inject_Z (round_half_even (q / pow2 e)) * pow2 e.
Proof.
  intros Hek Hq. pose proof (pow2_pos e) as He.
  rewrite (pow2_split e k Hek) in Hq |- *.
  apply Qmult_le_compat_r; [|lra].
  rewrite <- Zle_Qle. apply round_half_even_ge.
  apply Qle_shift_div_l; [exact He|exact Hq].
Qed.

Lemma round_on_grid_le (q : Q) (e k : Z) :
  (e <= k)%Z -> q <= pow2 k ->
  inject_Z (round_half_even (q / pow2 e)) * pow2 e <= pow2 k.
Proof.
  intros Hek Hq. pose proof (pow2_pos e) as He.
  rewrite (pow2_split e k Hek) in Hq |- *.
  apply Qmult_le_compat_r; [|lra].
  rewrite <- Zle_Qle. apply round_half_even_le.
  apply Qle_shift_div_r; [exact He|exact Hq].
Qed.

Lemma round_magnitude_mono (x y : Q) :
  0 < x -> x <= y -> round_magnitude x <= round_magnitude y.
Proof.
  intros Hx Hxy. unfold round_magnitude.
  pose proof (ilog2_mono x y Hx Hxy) as Hk.
  destruct (ilog2_spec x Hx) as [_ Hx2].
  destruct (ilog2_spec y ltac:(lra)) as [Hy1 _].
  set (ex := Z.max (ilog2 x - 23) (-149)).
  set (ey := Z.max (ilog2 y - 23) (-149)).
  destruct (Z.eq_dec ex ey) as [E|Hne].
  - rewrite <- E. pose proof (pow2_pos ex) as He.
    apply Qmult_le_compat_r; [|lra].
    rewrite <- Zle_Qle. apply round_half_even_mono.
    apply Qmult_le_compat_r; [exact Hxy|].
    apply Qlt_le_weak. now apply Qinv_lt_0_compat.
  - assert (Hlt : (ex < ey)%Z) by lia.
    apply Qle_trans with (pow2 (ilog2 y)).
    + apply round_on_grid_le; [lia|].
      apply Qle_trans with (pow2 (ilog2 x + 1)); [lra|].
      apply pow2_le. lia.
    + apply round_on_grid_ge; [lia|exact Hy1].
Qed.

Lemma round_magnitude_nonneg (x : Q) : 0 < x -> 0 <= round_magnitude x.
Proof.
  intros Hx. unfold round_magnitude.
  set (e := Z.max (ilog2 x - 23) (-149)). pose proof (pow2_pos e) as He.
  apply Qmult_le_0_compat; [|lra].
  change 0 with (inject_Z 0). rewrite <- Zle_Qle. apply round_half_even_ge.
  apply Qle_shift_div_l; [exact He|]. change (inject_Z 0) with 0. lra.
Qed.

(** Conversion to [float32] keeps the order. *)
Lemma round_float32_mono (x y : Q) : x <= y -> round_float32 x <= round_float32 y.
Proof.
  intros Hxy. unfold round_float32.
  pose proof (Qred_correct x) as Ex. pose proof (Qred_correct y) as Ey.
  pose proof (Qred_correct (- x)) as Enx. pose proof (Qred_correct (- y)) as Eny.
  destruct (Qcompare_spec x 0) as [Hx|Hx|Hx];
    destruct (Qcompare_spec y 0) as [Hy|Hy|Hy]; try (exfalso; lra).
  - apply Qle_refl.
  - apply round_magnitude_nonneg. lra.
  - assert (H := round_magnitude_nonneg (Qred (- x)) ltac:(lra)). lra.
  - assert (H := round_magnitude_mono (Qred (- y)) (Qred (- x)) ltac:(lra) ltac:(lra)).
    lra.
  - assert (H1 := round_magnitude_nonneg (Qred (- x)) ltac:(lra)).
    assert (H2 := round_magnitude_nonneg (Qred y) ltac:(lra)). lra.
  - apply round_magnitude_mono; lra.
Qed.

(** Conversion to [float32] gives one result for equal rationals. *)
Lemma round_float32_eq (x y : Q) : x == y -> round_float32 x = round_float32 y.
Proof.
  intros Exy. unfold round_float32.
  rewrite (Qred_complete x y Exy).
  rewrite (Qred_complete (- x) (- y)) by now rewrite Exy.
  now rewrite Exy.
Qed.

(** In binary64 and on the rationals alike, [1 + 2^-30] is converted to
    [1], [0.1] to [13421773 / 2^27] and [2] to itself. *)
Example float32_conversions :
  round_float32 (1 + (1 # 1073741824)) == 1 /\
  round_float32 (1 # 10) == 13421773 # 134217728 /\
  round_float32 2 == 2 /\
  PrimFloat.eqb (float32_of_float (1 + 0x1p-30)%float) 1%float = true /\
  PrimFloat.eqb (float32_of_float py_0_1) 0x1.99999ap-4%float = true /\
  PrimFloat.eqb (float32_of_float 2%float) 2%float = true.
Proof. vm_compute. repeat split. Qed.

End Float32Facts.

(** ** The adversarial patch attack *)

Section PatchConstruction.
Import AdversarialPatchTensorFlowV2.
Context {F : Type} `{Scalar F}.
Context {images target defence : Type}.

(** The condition of the fourth assertion of [__init__] holds for every
    value of [postprocessing_defences]. *)
Lemma postprocessing_assertion_always_passes (pd : option (list defence)) :
  is_not_None pd || ne_empty_list pd = true.
Proof. destruct pd as [[|d ds]|]; reflexivity. Qed.

(** [__init__] rejects a patch whose first two dimensions differ. *)
Lemma init_rejects_non_square
    (classifier : classifier_t F images target defence)
    (learning_rate0 : F) (max_iter0 : nat) (w h c : nat) :
  in_1_3 (snd (input_shape classifier)) = true ->
  in_1_3 c = true ->
  w <> h ->
  init classifier learning_rate0 max_iter0 (Some (w, h, c))
  = Raise (AssertionError "Patch height and width need to be the same.").
Proof.
  intros Hi Hc Hwh. unfold init. rewrite Hi. cbn [assert and_then snd fst].
  rewrite Hc. cbn [assert and_then].
  apply Nat.eqb_neq in Hwh. rewrite Hwh. reflexivity.
Qed.

(** C3, where the code departs from it: a classifier with a non-empty list
    of postprocessing defences is accepted.  With the colour channels in
    place and a square patch, [__init__] returns an attack whatever
    [postprocessing_defences] holds; its patch is the mid-range value in
    every entry. *)
Theorem init_accepts_postprocessing_defences
    (classifier : classifier_t F images target defence)
    (learning_rate0 : F) (max_iter0 : nat) (w c : nat)
    (d : defence) (ds : list defence) :
  postprocessing_defences classifier = Some (d :: ds) ->
  in_1_3 (snd (input_shape classifier)) = true ->
  in_1_3 c = true ->
  exists a,
    init classifier learning_rate0 max_iter0 (Some (w, w, c)) = Return a /\
    estimator a = classifier /\
    patch_shape a = (w, w, c).
Proof.
  intros Hpd Hi Hc. unfold init. rewrite Hi. cbn [assert and_then snd fst].
  rewrite Hc, Nat.eqb_refl, postprocessing_assertion_always_passes.
  cbn [assert and_then]. eexists. repeat split.
Qed.

Lemma combine_map_r {A B C : Type} (f : B -> C) (xs : list A) (ys : list B) :
  combine xs (map f ys) = map (fun xy => (fst xy, f (snd xy))) (combine xs ys).
Proof.
  revert ys. induction xs as [|x xs IH]; intros [|y ys]; try reflexivity.
  simpl. now rewrite IH.
Qed.

(** C7: in [_train_step], without a target the attack is untargeted, the
    target is the prediction of the classifier, and the gradient of the loss
    is negated before the SGD update, so that each entry [p] of the patch
    with gradient [g] becomes [p - learning_rate * (- g)] (before the
    projection of the variable); with a target the attack is targeted, the
    gradient is applied as it is, and the entry becomes
    [p - learning_rate * g]. *)
Theorem train_step_gradient_sign (self : t F images target defence) (seed : nat)
    (images0 : images) :
  let p := value (_patch self) in
  let lr := learning_rate self in
  let project u :=
    match constraint (_patch self) with
    | Some f => f u
    | None => u
    end in
  (let self' := snd (_train_step self seed images0 None) in
   let g := gradient (estimator self) p seed images0
              (predict (estimator self) images0) in
   targeted self' = Some false /\
   _patch self' =
     hd (_patch self) (apply_gradients lr [(map f_opp g, _patch self)]) /\
   value (_patch self') =
     project (map (fun pg => f_sub (fst pg) (f_mul lr (f_opp (snd pg))))
                  (combine p g))) /\
  (forall tg : target,
     let self' := snd (_train_step self seed images0 (Some tg)) in
     let g := gradient (estimator self) p seed images0 tg in
     targeted self' = Some true /\
     _patch self' = hd (_patch self) (apply_gradients lr [(g, _patch self)]) /\
     value (_patch self') =
       project (map (fun pg => f_sub (fst pg) (f_mul lr (snd pg)))
                    (combine p g))).
Proof.
  cbv zeta. split; [|intros tg]; (split; [reflexivity|]); (split; [reflexivity|]).
  - cbn [_train_step snd _patch]. cbn [combine map negb hd apply_gradients].
    rewrite combine_map_r, map_map. cbn [fst snd].
    destruct (constraint (_patch self)); reflexivity.
  - cbn [_train_step snd _patch]. cbn [combine map negb hd apply_gradients].
    destruct (constraint (_patch self)); reflexivity.
Qed.

End PatchConstruction.

Section PatchBounds.
Import AdversarialPatchTensorFlowV2 Props.
Context {images target defence : Type}.

Local Abbreviation attack := (t Q images target defence).

Lemma Qle_bool_false (x y : Q) : Qle_bool x y = false -> (y < x)%Q.
Proof.
  intros E. apply Qnot_le_lt. intros Hle.
  apply Qle_bool_iff in Hle. congruence.
Qed.

(** A clipped value lies between the bounds, when they are in order. *)
Lemma clip_within (lo hi x : Q) :
  (lo <= hi)%Q -> within lo hi (f_max (f_min x hi) lo).
Proof.
  intros Hlh. unfold f_max, f_min, within. cbn [f_leb Scalar_Q].
  destruct (Qle_bool x hi) eqn:E1.
  - apply Qle_bool_iff in E1.
    destruct (Qle_bool x lo) eqn:E2.
    + split; [apply Qle_refl|exact Hlh].
    + apply Qle_bool_false in E2. split; [now apply Qlt_le_weak|exact E1].
  - destruct (Qle_bool hi lo) eqn:E2.
    + split; [apply Qle_refl|exact Hlh].
    + split; [exact Hlh|apply Qle_refl].
Qed.

Lemma clip_by_value_within (lo hi : Q) (t0 : tensor Q) :
  (lo <= hi)%Q -> Forall (within lo hi) (clip_by_value t0 lo hi).
Proof.
  intros Hlh. unfold clip_by_value. apply Forall_forall. intros y Hy.
  apply in_map_iff in Hy. destruct Hy as (x & <- & _). now apply clip_within.
Qed.

(** In the untargeted case the update adds [learning_rate] times the
    gradient to each entry: gradient ascent. *)
Lemma untargeted_update_ascends (lr p g : Q) :
  (f_sub p (f_mul lr (f_opp g)) == p + lr * g)%Q.
Proof. cbn [f_sub f_mul f_opp Scalar_Q]. ring. Qed.

(** The mid-range value, converted, lies between the converted bounds. *)
Lemma midpoint_within (lo hi : Q) :
  (lo <= hi)%Q ->
  within (round_float32 lo) (round_float32 hi)
    (round_float32 (1 * ((hi - lo) / (1 + 1) + lo))%Q).
Proof.
  intros Hlh.
  assert (E : (1 * ((hi - lo) / (1 + 1) + lo) == lo + (hi - lo) * (1 # 2))%Q)
    by (field; discriminate).
  rewrite (round_float32_eq _ _ E).
  split; apply round_float32_mono; lra.
Qed.

Lemma init_clipped (classifier : classifier_t Q images target defence)
    (lr : Q) (mi : nat) (shape : option (nat * nat * nat)) (a : attack) :
  init classifier lr mi shape = Return a ->
  clipped_to_classifier a /\ is_float32 a /\ estimator a = classifier /\
  exists n, value (_patch a)
            = repeat (round_float32
                        (1 * ((snd (clip_values classifier)
                               - fst (clip_values classifier)) / (1 + 1)
                              + fst (clip_values classifier)))%Q) n.
Proof.
  unfold init. intros E.
  destruct (assert (in_1_3 (snd (input_shape classifier))) _) as [[]|e];
    cbn [and_then] in E; [|discriminate].
  destruct shape as [[[w h] c]|]; [|discriminate].
  destruct (assert (in_1_3 (snd (w, h, c))) _) as [[]|e];
    cbn [and_then] in E; [|discriminate].
  destruct (assert (fst (fst (w, h, c)) =? snd (fst (w, h, c)))%nat _) as [[]|e];
    cbn [and_then] in E; [|discriminate].
  destruct (assert _ _) as [[]|e]; cbn [and_then] in E; [|discriminate].
  injection E as <-. unfold clipped_to_classifier, is_float32, tf_Variable.
  cbn [_patch estimator constraint value dtype].
  repeat split. exists (w * h * c)%nat.
  unfold scale, ones. rewrite !map_repeat. reflexivity.
Qed.

Lemma train_step_clipped (a : attack) (seed : nat) (images0 : images)
    (target0 : option target) :
  clipped_to_classifier a ->
  let a' := snd (_train_step a seed images0 target0) in
  clipped_to_classifier a' /\ estimator a' = estimator a /\
  patch_shape a' = patch_shape a /\
  dtype (_patch a') = dtype (_patch a) /\
  exists t0, value (_patch a')
             = clip_by_value t0
                 (round_float32 (fst (clip_values (estimator a))))
                 (round_float32 (snd (clip_values (estimator a)))).
Proof.
  unfold clipped_to_classifier. intros Hc.
  destruct target0 as [tg|];
    cbn [_train_step snd _patch estimator patch_shape combine map negb hd
         apply_gradients];
    rewrite Hc; cbn [constraint value dtype];
    do 4 (split; [reflexivity|]); eexists; reflexivity.
Qed.

Lemma combine_repeat_map {A B : Type} (a : A) (f : A -> B) (n : nat) :
  combine (repeat a n) (map f (repeat a n)) = repeat (a, f a) n.
Proof. induction n as [|n IH]; [reflexivity|]. simpl. now rewrite IH. Qed.

(** [reset_patch(v)] stores [1 * (1 * v)], converted to the dtype of the
    patch, in every entry. *)
Lemma reset_patch_value (a : attack) (v : Q) :
  value (_patch (reset_patch a v))
  = repeat (dtype (_patch a) (1 * (1 * v))%Q)
           (fst (fst (patch_shape a)) * snd (fst (patch_shape a))
            * snd (patch_shape a)).
Proof.
  unfold reset_patch. cbn [_patch assign value].
  unfold mul_elementwise, scale, ones.
  destruct (patch_shape a) as [[w h] c]. cbn [fst snd].
  rewrite combine_repeat_map, !map_repeat. reflexivity.
Qed.

Lemma within_Qeq (lo hi x y : Q) : (x == y)%Q -> within lo hi x -> within lo hi y.
Proof. unfold within. intros E [H1 H2]. rewrite <- E. now split. Qed.

Lemma Forall_repeat {A : Type} (P : A -> Prop) (x : A) (n : nat) :
  P x -> Forall P (repeat x n).
Proof.
  intros Hx. apply Forall_forall. intros y Hy.
  apply repeat_spec in Hy. now subst.
Qed.

Lemma reset_patch_clipped (a : attack) (v : Q) :
  clipped_to_classifier a ->
  clipped_to_classifier (reset_patch a v) /\
  estimator (reset_patch a v) = estimator a /\
  dtype (_patch (reset_patch a v)) = dtype (_patch a).
Proof. intros Hc. split; [exact Hc|]. now split. Qed.

(** Calls keep the projection, the dtype and the classifier, and keep the
    patch within the converted bounds as long as every reset value, once
    converted, is within them. *)
Lemma do_calls_within (lo hi : Q) (cs : list (call (F := Q) (images := images) (target := target))) :
  (round_float32 lo <= round_float32 hi)%Q ->
  (forall v, In (ResetPatch v) cs ->
             within (round_float32 lo) (round_float32 hi) (round_float32 v)) ->
  forall a : attack,
    clipped_to_classifier a ->
    is_float32 a ->
    clip_values (estimator a) = (lo, hi) ->
    Forall (within (round_float32 lo) (round_float32 hi)) (value (_patch a)) ->
    clipped_to_classifier (do_calls a cs) /\
    is_float32 (do_calls a cs) /\
    clip_values (estimator (do_calls a cs)) = (lo, hi) /\
    Forall (within (round_float32 lo) (round_float32 hi))
           (value (_patch (do_calls a cs))).
Proof.
  intros Hlh. induction cs as [|c cs IH]; intros Hres a Hc Hf Hclip Hin.
  - now repeat split.
  - cbn [do_calls fold_left]. apply IH.
    + intros v Hv. apply Hres. now right.
    + destruct c as [seed im tg|v]; cbn [do_call].
      * apply (train_step_clipped a seed im tg Hc).
      * exact Hc.
    + unfold is_float32 in *. destruct c as [seed im tg|v]; cbn [do_call].
      * destruct (train_step_clipped a seed im tg Hc) as (_ & _ & _ & -> & _).
        exact Hf.
      * exact Hf.
    + destruct c as [seed im tg|v]; cbn [do_call].
      * destruct (train_step_clipped a seed im tg Hc) as (_ & -> & _). exact Hclip.
      * exact Hclip.
    + destruct c as [seed im tg|v]; cbn [do_call].
      * destruct (train_step_clipped a seed im tg Hc) as (_ & _ & _ & _ & t0 & ->).
        rewrite Hclip. cbn [fst snd]. now apply clip_by_value_within.
      * rewrite reset_patch_value. unfold is_float32 in Hf. rewrite Hf.
        apply Forall_repeat.
        rewrite (round_float32_eq (1 * (1 * v)) v) by ring.
        apply Hres. now left.
Qed.

(** C1 (amended): for a classifier whose clip values are in order, the patch
    built by [__init__] lies within the clip values as the [float32] numbers
    the patch variable is compared with, and it still does after every
    sequence of training iterations and of calls [reset_patch(v)] with [v],
    once converted to [float32], within that range.  [reset_patch(v)] stores
    [float32(v)] in every entry without clipping, so that after it a patch
    with at least one entry lies within the range exactly when [float32(v)]
    does. *)
Theorem patch_within_clip_bounds
    (classifier : classifier_t Q images target defence) (lr : Q) (mi : nat)
    (shape : option (nat * nat * nat)) (a : attack)
    (cs : list (call (F := Q) (images := images) (target := target))) :
  let lo := round_float32 (fst (clip_values classifier)) in
  let hi := round_float32 (snd (clip_values classifier)) in
  (fst (clip_values classifier) <= snd (clip_values classifier))%Q ->
  init classifier lr mi shape = Return a ->
  (forall v, In (ResetPatch v) cs -> within lo hi (round_float32 v)) ->
  Forall (within lo hi) (value (_patch (do_calls a cs))) /\
  (forall v : Q,
     Forall (fun x => x = round_float32 v)
            (value (_patch (reset_patch (do_calls a cs) v))) /\
     (value (_patch (reset_patch (do_calls a cs) v)) <> [] ->
      (Forall (within lo hi) (value (_patch (reset_patch (do_calls a cs) v)))
       <-> within lo hi (round_float32 v)))).
Proof.
  intros lo hi Hlh Hinit Hres.
  destruct (init_clipped classifier lr mi shape a Hinit)
    as (Hc & Hf & Hest & n & Hval).
  assert (Hclip : clip_values (estimator a)
                  = (fst (clip_values classifier), snd (clip_values classifier))).
  { rewrite Hest. now destruct (clip_values classifier). }
  assert (Hstart : Forall (within lo hi) (value (_patch a))).
  { rewrite Hval. apply Forall_repeat. now apply midpoint_within. }
  destruct (do_calls_within (fst (clip_values classifier))
              (snd (clip_values classifier)) cs
              (round_float32_mono _ _ Hlh) Hres a Hc Hf Hclip Hstart)
    as (_ & Hf' & _ & Hin).
  split; [exact Hin|].
  intros v. rewrite reset_patch_value. unfold is_float32 in Hf'. rewrite Hf'.
  rewrite (round_float32_eq (1 * (1 * v)) v) by ring. split.
  - now apply Forall_repeat.
  - intros Hne. split.
    + intros Hall.
      destruct (fst (fst (patch_shape (do_calls a cs)))
                * snd (fst (patch_shape (do_calls a cs)))
                * snd (patch_shape (do_calls a cs)))%nat as [|k];
        [now contradiction Hne|].
      now inversion Hall.
    + intros Hv. now apply Forall_repeat.
Qed.

End PatchBounds.

(** ** The definitions at work on concrete inputs *)

Section Runs.
Import AdversarialTrainerCertified Props Fixture.
Local Open Scope Q_scope.

(** C2, as the claim states it, fails: sample [1] is labelled [0] and
    predicted as class [1].  The only check made is that class [1] dominates
    class [0]; it succeeds and the sample is counted as certified, although
    its correct class [0] is not certified to dominate class [1]. *)
Lemma certification_ignores_the_label :
  let label := 0%nat in
  let z := abstract_forward clf 0%nat (pre_process clf 1%nat (1 # 10)) in
  sample_step clf default_trainer interval_loss_cce_name (1 # 10)
    (1%nat, label) (0, 0%nat) w0
  = (Return (0 + 1, 1%nat),
     mkWorld 0%nat 0%nat
       [EvSetForwardMode concrete; EvSetForwardMode abstract;
        EvCertifyViaSubtraction 1 0 true]) /\
  forallb (fun k => certify_via_subtraction clf label k z)
          (other_classes clf label) = false.
Proof. split; reflexivity. Qed.

Lemma certification_checks_use_predicted_class_witness :
  exists total' certified' w',
    sample_step clf default_trainer interval_loss_cce_name (1 # 10)
      (1%nat, 0%nat) (0, 0%nat) w0
    = (Return (total', certified'), w') /\
    w_trace w' =
      [EvSetForwardMode concrete; EvSetForwardMode abstract;
       EvCertifyViaSubtraction 1 0 true] /\
    certified' = 1%nat.
Proof.
  destruct (certification_checks_use_predicted_class clf default_trainer
              interval_loss_cce_name (1 # 10) 1%nat 0%nat 0 0%nat w0 eq_refl)
    as (total' & certified' & w' & Hrun & Htrace & _ & Hiff).
  exists total', certified', w'. split; [exact Hrun|]. split; [exact Htrace|].
  apply Hiff. intros [|[|k]] Hk Hne; [reflexivity|contradiction|simpl in Hk; lia].
Defined.

(** With [batch_size = 1] on the three samples of [data], the certified loss
    is the sum of two losses. *)
Lemma certified_loop_batch_size_1_sums_two_samples_witness :
  exists certified' w',
    certified_loop clf default_trainer interval_loss_cce_name (1 # 10)
      (Some 1%Z) 0 data (0, 0%nat) w0
    = (Return (0 + 1 + 1, certified'), w').
Proof.
  destruct (certified_loop_batch_size_1_sums_two_samples clf default_trainer
              interval_loss_cce_name (1 # 10) (1, 0)%nat (2, 0)%nat [(3, 1)%nat]
              0 0%nat w0 eq_refl)
    as (certified' & w' & Hrun & _).
  exists certified', w'. exact Hrun.
Defined.

(** The same through [fit], for one epoch: the progress line of the batch
    shows a certified loss of [2 / 1] for a batch size of one. *)
Example fit_batch_size_1_run :
  fit clf default_trainer data interval_loss_cce_name (Some 1%Z) (Some 1%Z)
      true (@None unit) w0
  = (Return tt,
     mkWorld 1%nat 3%nat
       [EvModelTrain true; EvCertificationScheduleStep (0 + (1 # 10) / 1);
        EvRandomShuffle; EvZeroGrad;
        EvSetForwardMode concrete; EvSetForwardMode abstract;
        EvCertifyViaSubtraction 1 0 true;
        EvSetForwardMode concrete; EvSetForwardMode abstract;
        EvCertifyViaSubtraction 0 1 false;
        EvSetForwardMode concrete;
        EvAttackGenerate [0; 1; 2]%nat; EvModelZeroGrad;
        EvSetDescription (0 + (1 # 10) / 1) 0 ((0 + 1 + 1) / 1) 0 1;
        EvBackward ((0 + 1 + 1) / 1 * (1 # 10) + 0 * (1 - (1 # 10)));
        EvOptimizerStep]).
Proof. vm_compute. reflexivity. Qed.

Lemma fit_with_supplied_schedule_raises_witness :
  fit clf trainer_with_schedule data interval_loss_cce_name None None true
      (@None unit) w0
  = (Raise (UnboundLocalError "certification_schedule_function"),
     mkWorld 0%nat 0%nat [EvModelTrain true]).
Proof.
  apply (fit_with_supplied_schedule_raises clf trainer_with_schedule data
           interval_loss_cce_name None None true (@None unit) w0 tt tt 10%Z);
    try reflexivity; discriminate.
Defined.

Lemma fit_without_optimizer_raises_witness :
  exists w',
    fit clf trainer_without_optimizer data interval_loss_cce_name None None true
        (@None unit) w0
    = (Raise (ValueError
                "An optimizer is needed to train the model, but none is provided."),
       w') /\
    w_params w' = 0%nat /\
    w_trace w' = [EvModelTrain true].
Proof.
  destruct (fit_without_optimizer_raises clf trainer_without_optimizer data
              interval_loss_cce_name None None true (@None unit) w0 eq_refl)
    as (w' & Hrun & Hp & Ht & _).
  exists w'. split; [exact Hrun|]. split; assumption.
Defined.

(** A trainer built with [nb_epochs=20] and [batch_size=3] runs three
    epochs when [fit] is called without [nb_epochs]. *)
Lemma fit_default_epochs_is_batch_size_witness :
  nb_epochs trainer_batch_3 = Some 20%Z /\
  exists w',
    fit clf trainer_batch_3 data interval_loss_cce_name None None true
        (@None unit) w0
    = (Return tt, w') /\
    epochs_begun (w_trace w') = 3%nat.
Proof.
  split; [reflexivity|].
  apply (fit_default_epochs_is_batch_size clf trainer_batch_3 data
           interval_loss_cce_name None true (@None unit) w0 tt 3%Z);
    try reflexivity; discriminate.
Defined.

End Runs.

Section PatchRuns.
Import AdversarialPatchTensorFlowV2 Props Fixture.
Local Open Scope Q_scope.

(** C1, as the claim states it, fails: on a classifier with clip values
    [[0, 1]], [reset_patch(2)] leaves every entry of the patch at [2]. *)
Lemma reset_patch_leaves_clip_bounds :
  exists a,
    init (patch_classifier None) 5 500 (Some (2, 2, 1)%nat) = Return a /\
    Forall2 Qeq (value (_patch (reset_patch a 2))) [2; 2; 2; 2] /\
    ~ Forall (within 0 1) (value (_patch (reset_patch a 2))).
Proof.
  eexists. split; [reflexivity|]. split.
  - vm_compute. repeat constructor.
  - intros Hall. inversion Hall as [|x l [_ Hle] _]. subst.
    vm_compute in Hle. apply Hle. reflexivity.
Qed.

(** What [reset_patch] stores is the [float32] nearest to its argument:
    [reset_patch(1 + 2^-30)], whose argument is above the clip values
    [[0, 1]], stores [1] and leaves the patch within them. *)
Example reset_patch_stores_float32 :
  exists a,
    init (patch_classifier None) 5 500 (Some (2, 2, 1)%nat) = Return a /\
    Forall2 Qeq (value (_patch (reset_patch a (1 + (1 # 1073741824)))))
                [1; 1; 1; 1] /\
    ~ within 0 1 (1 + (1 # 1073741824)).
Proof.
  eexists. split; [reflexivity|]. split.
  - vm_compute. repeat constructor.
  - intros [_ Hle]. vm_compute in Hle. apply Hle. reflexivity.
Qed.

(** One targeted training step, a reset within bounds and one untargeted
    step, from the patch [__init__] builds, stay within [[0, 1]]. *)
Lemma patch_within_clip_bounds_witness :
  exists a,
    init (patch_classifier None) 5 500 (Some (2, 2, 1)%nat) = Return a /\
    Forall (within 0 1)
      (value (_patch (do_calls a [TrainStep 0 tt (Some 1%nat);
                                  ResetPatch (1 # 4);
                                  TrainStep 1 tt None]))).
Proof.
  eexists. split; [reflexivity|].
  eapply Forall_impl;
    [|refine (proj1 (patch_within_clip_bounds (patch_classifier None) 5 500
                       (Some (2, 2, 1)%nat) _
                       [TrainStep 0 tt (Some 1%nat); ResetPatch (1 # 4);
                        TrainStep 1 tt None]
                       _ eq_refl _))].
  - intros x [Hlo Hhi]. split.
    + exact Hlo.
    + apply Qle_trans with (1 := Hhi). vm_compute. discriminate.
  - discriminate.
  - intros v [Hv|[Hv|[Hv|[]]]]; try discriminate.
    injection Hv as <-. split; vm_compute; discriminate.
Defined.

(** A classifier with one postprocessing defence is accepted. *)
Lemma init_accepts_postprocessing_defences_witness :
  exists a,
    init (patch_classifier (Some [tt])) 5 500 (Some (2, 2, 1)%nat) = Return a /\
    postprocessing_defences (estimator a) = Some [tt].
Proof.
  destruct (init_accepts_postprocessing_defences (patch_classifier (Some [tt]))
              5 500 2 1 tt [] eq_refl eq_refl eq_refl)
    as (a & Hinit & Hest & _).
  exists a. split; [exact Hinit|]. now rewrite Hest.
Defined.

End PatchRuns.

(** ** The outline of [fit] *)

Section OutlineFacts.
Import AdversarialTrainerCertified Props Outline.
Context {F : Type} `{Scalar F}.
Context {sample params optimizer zono_in zono user_schedule lr_scheduler : Type}.
Variable clf : certifier F sample params optimizer zono_in zono.
Variable self : trainer F sample optimizer zono_in user_schedule.

Local Abbreviation W := (world F params).
Local Abbreviation locals' := (@locals F sample).

Lemma outline_app (t1 t2 : list (event F)) :
  outline (t1 ++ t2) = outline t1 ++ outline t2.
Proof. apply flat_map_app. Qed.

Lemma outline_certify_events (concrete_pred : nat) (z : zono) (ks : list nat) :
  outline (certify_events clf concrete_pred z ks) = [].
Proof.
  unfold certify_events.
  induction (filter (fun k => negb (k =? concrete_pred)%nat) ks) as [|k l IH];
    [reflexivity|exact IH].
Qed.

Lemma yields_ret {A : Type} (post : A -> Prop) (a : A) :
  post a -> yields (F := F) (params := params) post [] (ret a).
Proof.
  intros Hp w. exists a, w. repeat split; [exact Hp|now rewrite app_nil_r].
Qed.

Lemma yields_ret_True {A : Type} (a : A) :
  yields (F := F) (params := params) (fun _ => True) [] (ret a).
Proof. now apply yields_ret. Qed.

Lemma yields_bind {A B : Type} (P : A -> Prop) (Q : B -> Prop)
    (l1 l2 l : list (mark F)) (m : M W A) (k : A -> M W B) :
  yields P l1 m -> (forall a, P a -> yields Q l2 (k a)) -> l = l1 ++ l2 ->
  yields Q l (bind m k).
Proof.
  intros Hm Hk -> w.
  destruct (Hm w) as (a & w1 & Em & Hpa & H1).
  destruct (Hk a Hpa w1) as (b & w2 & Ek & Hqb & H2).
  exists b, w2. run_bind Em. repeat split; [exact Ek|exact Hqb|].
  rewrite H2, H1. now rewrite app_assoc.
Qed.

Lemma yields_weaken {A : Type} (P Q : A -> Prop) (l : list (mark F)) (m : M W A) :
  (forall a, P a -> Q a) -> yields P l m -> yields Q l m.
Proof.
  intros HPQ Hm w. destruct (Hm w) as (a & w' & E & Hp & Hl).
  exists a, w'. repeat split; [exact E|now apply HPQ|exact Hl].
Qed.

Lemma yields_log (e : event F) :
  yields (fun _ => True) (mark_of e) (log (params := params) e).
Proof.
  intros w. exists tt, (extend w [e]). repeat split.
  unfold extend. cbn [w_trace]. rewrite outline_app. unfold outline at 2.
  cbn [flat_map]. now rewrite app_nil_r.
Qed.

Lemma yields_get_params : yields (F := F) (fun _ : params => True) [] get_params.
Proof. intros w. exists (w_params w), w. repeat split. now rewrite app_nil_r. Qed.

Lemma yields_set_params (p : params) :
  yields (F := F) (fun _ => True) [] (set_params p).
Proof. intros w. eexists tt, _. repeat split. simpl. now rewrite app_nil_r. Qed.

Lemma yields_fresh_seed :
  yields (F := F) (params := params) (fun _ => True) [] fresh_seed.
Proof. intros w. eexists _, _. repeat split. simpl. now rewrite app_nil_r. Qed.

Lemma yields_sample_step (certification_loss : certification_loss_t F zono)
    (bound0 : F) (x : sample * nat) (acc : F * nat) :
  concrete_to_zonotope self = None ->
  yields (fun _ => True) [] (sample_step clf self certification_loss bound0 x acc).
Proof.
  intros Hc w. destruct x as [x label], acc as [total certified].
  pose proof (sample_step_run clf self certification_loss bound0 x label total
                certified w Hc) as Es.
  cbv zeta in Es. eexists _, _. split; [exact Es|]. split; [exact I|].
  unfold extend. cbn [w_trace].
  rewrite !outline_app, outline_certify_events. reflexivity.
Qed.

Lemma yields_break_test (b : Z) (i : nat) :
  b <> 0%Z ->
  yields (F := F) (params := params) (fun _ => True) [] (break_test (Some b) i).
Proof.
  intros Hb w. eexists _, w. split; [apply break_test_run; exact Hb|].
  split; [exact I|now rewrite app_nil_r].
Qed.

Lemma yields_certified_loop (certification_loss : certification_loss_t F zono)
    (bound0 : F) (b : Z) (xs : list (sample * nat)) :
  concrete_to_zonotope self = None -> b <> 0%Z ->
  forall (i : nat) (acc : F * nat),
    yields (fun _ => True) []
      (certified_loop clf self certification_loss bound0 (Some b) i xs acc).
Proof.
  intros Hc Hb. induction xs as [|x xs IH]; intros i acc.
  - apply yields_ret_True.
  - cbn [certified_loop].
    eapply yields_bind; [now apply yields_sample_step| |reflexivity].
    intros acc' _.
    eapply yields_bind; [now apply yields_break_test| |reflexivity].
    intros [|] _; [apply yields_ret_True|apply IH].
Qed.

Local Abbreviation batches_ok := (Outline.batches_ok self).

Lemma yields_batch_step (opt : optimizer) (data : list (sample * nat))
    (certification_loss : certification_loss_t F zono) (batch_size0 : option Z)
    (st : locals') (m : nat) (bd : F) :
  batches_ok batch_size0 -> l_bound st = Some bd ->
  yields (fun st' => l_bound st' = Some bd /\ l_schedule st' = l_schedule st)
         (batch_marks bd)
         (batch_step clf self opt data certification_loss batch_size0 st m).
Proof.
  intros (Hc & b & -> & Hb) Hbound. unfold batch_step. rewrite Hbound.
  cbn [lookup].
  assert (Eb : (b =? 0)%Z = false) by now apply Z.eqb_neq.
  eapply yields_bind; [apply yields_log| |reflexivity]. intros _ _.
  eapply yields_bind; [apply yields_fresh_seed| |reflexivity]. intros seed _.
  eapply yields_bind with (P := fun b0 => b0 = bd);
    [now apply yields_ret| |reflexivity]. intros bound0 ->.
  eapply yields_bind; [now apply yields_certified_loop| |reflexivity].
  intros [certified_loss samples_certified] _.
  eapply yields_bind with (P := fun b' => b' = b); [now apply yields_ret| |reflexivity].
  intros b' ->. rewrite Eb.
  eapply yields_bind; [apply yields_log| |reflexivity]. intros _ _.
  eapply yields_bind; [apply yields_get_params| |reflexivity]. intros theta _.
  eapply yields_bind; [apply yields_fresh_seed| |reflexivity]. intros seed' _.
  eapply yields_bind; [apply yields_log| |reflexivity]. intros _ _.
  eapply yields_bind; [apply yields_log| |reflexivity]. intros _ _.
  eapply yields_bind; [apply yields_ret_True| |reflexivity]. intros _ _.
  eapply yields_bind; [apply yields_log| |reflexivity]. intros _ _.
  eapply yields_bind; [apply yields_log| |reflexivity]. intros _ _.
  eapply yields_bind; [apply yields_set_params| |reflexivity]. intros _ _.
  eapply yields_bind; [apply yields_log| |reflexivity]. intros _ _.
  apply yields_ret. cbn [l_bound l_schedule]. now split.
Qed.

Lemma yields_batch_loop (opt : optimizer) (data : list (sample * nat))
    (certification_loss : certification_loss_t F zono) (batch_size0 : option Z)
    (bd : F) (ms : list nat) :
  ms = [] \/ batches_ok batch_size0 ->
  forall st : locals',
    l_bound st = Some bd ->
    yields (fun st' => l_bound st' = Some bd /\ l_schedule st' = l_schedule st)
           (List.concat (repeat (batch_marks bd) (List.length ms)))
           (batch_loop clf self opt data certification_loss batch_size0 ms st).
Proof.
  intros Hok. induction ms as [|m ms IH]; intros st Hbound.
  - apply yields_ret. now split.
  - destruct Hok as [Hnil|Hok]; [discriminate|].
    cbn [batch_loop List.length repeat List.concat].
    eapply yields_bind;
      [apply yields_batch_step with (bd := bd); assumption| |reflexivity].
    intros st' [Eb Es]. eapply yields_weaken; [|apply IH; [now right|exact Eb]].
    intros st'' [Eb' Es']. split; congruence.
Qed.

(** One epoch under the default schedule: the schedule is stepped, and the
    value it returns is the bound of every batch of the epoch. *)
Lemma yields_epoch_step_schedule (opt : optimizer) (data : list (sample * nat))
    (certification_loss : certification_loss_t F zono) (batch_size0 : option Z)
    (num_batch : Z) (scheduler : option lr_scheduler) (st : locals')
    (s : DLS.t F) :
  use_certification_schedule self = true ->
  Z.to_nat num_batch = O \/ batches_ok batch_size0 ->
  l_schedule st = Some s ->
  yields (fun st' => l_schedule st' = Some (snd (DLS.step s)))
         (epoch_marks (Some (fst (DLS.step s))) (fst (DLS.step s))
            (Z.to_nat num_batch)
            (match scheduler with Some _ => true | None => false end))
         (epoch_step clf self opt data certification_loss batch_size0 num_batch
            scheduler st).
Proof.
  intros Huse Hok Hs. unfold epoch_step, epoch_marks. rewrite Huse, Hs.
  cbn [lookup].
  eapply yields_bind with
    (P := fun st1 : locals' =>
            l_bound st1 = Some (fst (DLS.step s)) /\
            l_schedule st1 = Some (snd (DLS.step s)));
    [| |reflexivity].
  - eapply yields_bind with (P := fun s' => s' = s) (l1 := []);
      [now apply yields_ret| |reflexivity].
    intros s' ->. cbn [DLS.step].
    eapply yields_bind; [apply yields_log| |reflexivity]. intros _ _.
    apply yields_ret. now split.
  - intros st1 [Hb1 Hs1].
    eapply yields_bind with (l1 := []); [apply yields_fresh_seed| |reflexivity].
    intros seed _.
    eapply yields_bind with (l1 := [MShuffle]);
      [apply (yields_log EvRandomShuffle)| |reflexivity]. intros _ _.
    eapply yields_bind with
      (P := fun st3 : locals' =>
              l_bound st3 = Some (fst (DLS.step s)) /\
              l_schedule st3 = Some (snd (DLS.step s)))
      (l1 := List.concat (repeat (batch_marks (fst (DLS.step s)))
                            (List.length (seq 0 (Z.to_nat num_batch)))));
      [| |now rewrite length_seq].
    + eapply yields_weaken;
        [|apply yields_batch_loop with (bd := fst (DLS.step s))].
      * cbn [l_schedule]. intros st3 [Eb3 Es3]. split; congruence.
      * destruct Hok as [H0|Hok]; [left|now right].
        rewrite H0. reflexivity.
      * exact Hb1.
    + intros st3 [Eb3 Es3].
      eapply yields_bind with (P := fun _ => True) (l2 := []);
        [| |symmetry; apply app_nil_r].
      * destruct scheduler; [apply (yields_log EvLrSchedulerStep)|apply yields_ret_True].
      * intros _ _. apply yields_ret. congruence.
Qed.

(** One epoch without a certification schedule: every batch is trained at
    the bound the epoch started with. *)
Lemma yields_epoch_step_fixed (opt : optimizer) (data : list (sample * nat))
    (certification_loss : certification_loss_t F zono) (batch_size0 : option Z)
    (num_batch : Z) (scheduler : option lr_scheduler) (st : locals') (bd : F) :
  use_certification_schedule self = false ->
  Z.to_nat num_batch = O \/ batches_ok batch_size0 ->
  l_bound st = Some bd ->
  yields (fun st' => l_bound st' = Some bd)
         (epoch_marks None bd (Z.to_nat num_batch)
            (match scheduler with Some _ => true | None => false end))
         (epoch_step clf self opt data certification_loss batch_size0 num_batch
            scheduler st).
Proof.
  intros Huse Hok Hb. unfold epoch_step, epoch_marks. rewrite Huse.
  eapply yields_bind with (P := fun st1 : locals' => st1 = st) (l1 := []);
    [now apply yields_ret| |reflexivity].
  intros st1 ->.
  eapply yields_bind with (l1 := []); [apply yields_fresh_seed| |reflexivity].
  intros seed _.
  eapply yields_bind with (l1 := [MShuffle]);
    [apply (yields_log EvRandomShuffle)| |reflexivity]. intros _ _.
  eapply yields_bind with (P := fun st3 : locals' => l_bound st3 = Some bd)
    (l1 := List.concat (repeat (batch_marks bd)
                          (List.length (seq 0 (Z.to_nat num_batch)))));
    [| |now rewrite length_seq].
  - eapply yields_weaken; [|apply yields_batch_loop with (bd := bd)].
    + intros st3 [Eb3 _]. exact Eb3.
    + destruct Hok as [H0|Hok]; [left|now right].
      rewrite H0. reflexivity.
    + exact Hb.
  - intros st3 Eb3.
    eapply yields_bind with (P := fun _ => True) (l2 := []);
      [| |symmetry; apply app_nil_r].
    + destruct scheduler; [apply (yields_log EvLrSchedulerStep)|apply yields_ret_True].
    + intros _ _. apply yields_ret. exact Eb3.
Qed.


Lemma yields_epoch_loop_schedule (opt : optimizer) (data : list (sample * nat))
    (certification_loss : certification_loss_t F zono) (batch_size0 : option Z)
    (num_batch : Z) (scheduler : option lr_scheduler) (n : nat) :
  use_certification_schedule self = true ->
  Z.to_nat num_batch = O \/ batches_ok batch_size0 ->
  forall (s : DLS.t F) (st : locals'),
    l_schedule st = Some s ->
    yields (fun _ => True)
           (flat_map
              (fun j =>
                 let b := DLS.bound (DLS.steps (S j) s) in
                 epoch_marks (Some b) b (Z.to_nat num_batch)
                   (match scheduler with Some _ => true | None => false end))
              (seq 0 n))
           (epoch_loop clf self opt data certification_loss batch_size0 num_batch
              scheduler n st).
Proof.
  intros Huse Hok. induction n as [|n IH]; intros s st Hs.
  - apply yields_ret_True.
  - cbn [epoch_loop].
    eapply yields_bind;
      [apply yields_epoch_step_schedule with (s := s); assumption| |].
    + intros st' Hs'. apply (IH (snd (DLS.step s)) st' Hs').
    + cbn [seq flat_map]. f_equal.
      rewrite <- seq_shift, flat_map_concat_map, map_map,
        <- flat_map_concat_map.
      reflexivity.
Qed.

Lemma yields_epoch_loop_fixed (opt : optimizer) (data : list (sample * nat))
    (certification_loss : certification_loss_t F zono) (batch_size0 : option Z)
    (num_batch : Z) (scheduler : option lr_scheduler) (n : nat) (bd : F) :
  use_certification_schedule self = false ->
  Z.to_nat num_batch = O \/ batches_ok batch_size0 ->
  forall (k : nat) (st : locals'),
    l_bound st = Some bd ->
    yields (fun _ => True)
           (flat_map
              (fun _ : nat =>
                 epoch_marks None bd (Z.to_nat num_batch)
                   (match scheduler with Some _ => true | None => false end))
              (seq k n))
           (epoch_loop clf self opt data certification_loss batch_size0 num_batch
              scheduler n st).
Proof.
  intros Huse Hok. induction n as [|n IH]; intros k st Hb.
  - apply yields_ret_True.
  - cbn [epoch_loop].
    eapply yields_bind;
      [apply yields_epoch_step_fixed with (bd := bd); assumption| |].
    + intros st' Hb'. apply (IH (S k) st' Hb').
    + reflexivity.
Qed.

(** The outline of a run of [fit] that trains: the mode of the model is set,
    then each epoch steps the schedule (when one is in use), shuffles the
    indices, runs its batches (zero the gradients, progress line, backward
    pass, optimizer step) and steps the learning-rate scheduler (when one was
    passed). *)
Lemma fit_outline (data : list (sample * nat))
    (certification_loss : certification_loss_t F zono)
    (batch_size0 nb_epochs0 : option Z) (training_mode : bool)
    (scheduler : option lr_scheduler) (opt : optimizer) (e : Z) :
  _optimizer self = Some opt ->
  resolve_epochs self nb_epochs0 = Some e ->
  pgd_batch_size self <> 0%Z ->
  certification_schedule self = None ->
  (use_certification_schedule self = true -> e <> 0%Z) ->
  Z.to_nat (ceil_div (Z.of_nat (List.length data)) (pgd_batch_size self)) = O
  \/ batches_ok (match batch_size0 with
                 | Some b => Some b
                 | None => batch_size self
                 end) ->
  yields (fun _ => True)
         (fit_marks training_mode (use_certification_schedule self) (bound self) e
            (Z.to_nat (ceil_div (Z.of_nat (List.length data)) (pgd_batch_size self)))
            (match scheduler with Some _ => true | None => false end))
         (fit clf self data certification_loss batch_size0 nb_epochs0
              training_mode scheduler).
Proof.
  intros Hopt He Hpgd Hsched Hne Hok. unfold fit, fit_marks.
  rewrite Hopt, He, Hsched.
  assert (Ep : (pgd_batch_size self =? 0)%Z = false) by now apply Z.eqb_neq.
  rewrite Ep. cbn [lookup].
  eapply yields_bind with (l1 := [MModelTrain training_mode]);
    [apply (yields_log (EvModelTrain training_mode))| |reflexivity].
  intros _ _.
  eapply yields_bind with (l1 := [])
    (P := fun nb => nb = ceil_div (Z.of_nat (List.length data)) (pgd_batch_size self));
    [now apply yields_ret| |reflexivity].
  intros num_batch ->.
  destruct (use_certification_schedule self) eqn:Euse.
  - assert (Ee : (e =? 0)%Z = false) by (apply Z.eqb_neq; now apply Hne).
    eapply yields_bind with (l1 := [])
      (P := fun s => s = Some (DLS.of_fit (bound self) e)); [| |reflexivity].
    + eapply yields_bind with (l1 := []) (P := fun e' => e' = e);
        [now apply yields_ret| |reflexivity].
      intros e' ->. rewrite Ee. now apply yields_ret.
    + intros s ->.
      eapply yields_bind with (l1 := []) (P := fun e' => e' = e);
        [now apply yields_ret| |reflexivity].
      intros e' ->.
      eapply yields_bind with (l2 := []) (P := fun _ => True);
        [| |symmetry; apply app_nil_r].
      * apply yields_epoch_loop_schedule
          with (s := DLS.of_fit (bound self) e); [exact Euse|exact Hok|reflexivity].
      * intros _ _. apply yields_ret_True.
  - eapply yields_bind with (l1 := []) (P := fun _ => True);
      [apply yields_ret_True| |reflexivity].
    intros s _.
    eapply yields_bind with (l1 := []) (P := fun e' => e' = e);
      [now apply yields_ret| |reflexivity].
    intros e' ->.
    eapply yields_bind with (l2 := []) (P := fun _ => True);
      [| |symmetry; apply app_nil_r].
    + apply yields_epoch_loop_fixed with (bd := bound self);
        [exact Euse|exact Hok|reflexivity].
    + intros _ _. apply yields_ret_True.
Qed.

End OutlineFacts.

(** ** What a run of [fit] that trains has done *)

Section OutlineCounts.
Import AdversarialTrainerCertified Props Outline.
Context {F : Type}.

Lemma count_app (p : mark F -> bool) (l1 l2 : list (mark F)) :
  count p (l1 ++ l2) = (count p l1 + count p l2)%nat.
Proof. unfold count. now rewrite filter_app, length_app. Qed.

Lemma count_flat_map_const {A : Type} (p : mark F -> bool)
    (f : A -> list (mark F)) (c : nat) (l : list A) :
  (forall a, count p (f a) = c) ->
  count p (flat_map f l) = (List.length l * c)%nat.
Proof.
  intros Hf. induction l as [|a l IH]; [reflexivity|].
  cbn [flat_map List.length]. rewrite count_app, Hf, IH. reflexivity.
Qed.

Lemma count_batches (p : mark F -> bool) (b : F) (nb : nat) :
  count p (List.concat (repeat (batch_marks b) nb))
  = (nb * count p (batch_marks b))%nat.
Proof.
  induction nb as [|nb IH]; [reflexivity|].
  cbn [repeat List.concat]. rewrite count_app, IH. reflexivity.
Qed.

Lemma count_epoch_marks (p : mark F -> bool) (step : option F) (b : F)
    (nb : nat) (lr : bool) :
  count p (epoch_marks step b nb lr)
  = (match step with Some v => count p [MScheduleStep v] | None => O end
     + (count p [MShuffle]
        + (nb * count p (batch_marks b)
           + (if lr then count p [MLrSchedulerStep] else O))))%nat.
Proof.
  unfold epoch_marks. rewrite count_app.
  change (MShuffle :: ?l) with ([@MShuffle F] ++ l).
  rewrite !count_app, count_batches.
  destruct step, lr; change (count p []) with O; lia.
Qed.




Lemma lr_scheduler_steps_outline (t : list (event F)) :
  lr_scheduler_steps t = count is_lr_scheduler_step (outline t).
Proof.
  induction t as [|e t IH]; [reflexivity|].
  destruct e; cbn [lr_scheduler_steps outline flat_map mark_of app];
    try exact IH.
  unfold count. cbn. f_equal. exact IH.
Qed.

Lemma epochs_begun_outline (t : list (event F)) :
  epochs_begun t = count is_shuffle (outline t).
Proof.
  induction t as [|e t IH]; [reflexivity|].
  destruct e; cbn [epochs_begun outline flat_map mark_of app];
    try exact IH.
  unfold count. cbn. f_equal. exact IH.
Qed.







End OutlineCounts.

Section FitCounts.
Import AdversarialTrainerCertified Props Outline.
Context {F : Type} `{Scalar F}.
Context {sample params optimizer zono_in zono user_schedule lr_scheduler : Type}.
Variable clf : certifier F sample params optimizer zono_in zono.
Variable self : trainer F sample optimizer zono_in user_schedule.

Local Abbreviation W := (world F params).

(** A call that trains returns and adds the marks of [fit_marks]. *)
Lemma trains_outline (data : list (sample * nat))
    (certification_loss : certification_loss_t F zono)
    (batch_size0 nb_epochs0 : option Z) (training_mode : bool)
    (scheduler : option lr_scheduler) (e : Z) (w : W) :
  trains self (List.length data) batch_size0 nb_epochs0 e ->
  exists w',
    fit clf self data certification_loss batch_size0 nb_epochs0 training_mode
        scheduler w = (Return tt, w') /\
    outline (w_trace w')
    = outline (w_trace w)
      ++ fit_marks training_mode (use_certification_schedule self) (bound self) e
           (num_batches self (List.length data))
           (match scheduler with Some _ => true | None => false end).
Proof.
  intros (Hopt & He & Hpgd & Hsched & Hne & Hok).
  destruct (_optimizer self) as [opt|] eqn:Eopt; [|contradiction].
  destruct (fit_outline clf self data certification_loss batch_size0 nb_epochs0
              training_mode scheduler opt e Eopt He Hpgd Hsched Hne Hok w)
    as ([] & w' & Erun & _ & Hout).
  exists w'. split; assumption.
Qed.


(** X2: a call to [fit] that trains begins exactly [e] epochs, where [e] is
    [nb_epochs] when it is given (whatever the trainer was built with), and
    steps the learning-rate scheduler once per epoch when one is passed, and
    never otherwise. *)
Theorem fit_steps_lr_scheduler_once_per_epoch (data : list (sample * nat))
    (certification_loss : certification_loss_t F zono)
    (batch_size0 nb_epochs0 : option Z) (training_mode : bool)
    (scheduler : option lr_scheduler) (e : Z) (w : W) :
  trains self (List.length data) batch_size0 nb_epochs0 e ->
  exists w',
    fit clf self data certification_loss batch_size0 nb_epochs0 training_mode
        scheduler w = (Return tt, w') /\
    epochs_begun (w_trace w') = (epochs_begun (w_trace w) + Z.to_nat e)%nat /\
    lr_scheduler_steps (w_trace w')
    = (lr_scheduler_steps (w_trace w)
       + match scheduler with Some _ => Z.to_nat e | None => O end)%nat /\
    (forall n, nb_epochs0 = Some n -> e = n).
Proof.
  intros Ht.
  destruct (trains_outline data certification_loss batch_size0 nb_epochs0
              training_mode scheduler e w Ht) as (w' & Erun & Hout).
  exists w'. split; [exact Erun|].
  rewrite !epochs_begun_outline, !lr_scheduler_steps_outline, Hout, !count_app.
  unfold fit_marks.
  change (MModelTrain training_mode :: ?l) with ([@MModelTrain F training_mode] ++ l).
  rewrite !count_app.
  rewrite (count_flat_map_const is_shuffle _ 1%nat).
  2: { intros j. rewrite count_epoch_marks.
       destruct (use_certification_schedule self), scheduler; cbn; lia. }
  rewrite (count_flat_map_const is_lr_scheduler_step _
             (match scheduler with Some _ => 1%nat | None => O end)).
  2: { intros j. rewrite count_epoch_marks.
       destruct (use_certification_schedule self), scheduler; cbn; lia. }
  rewrite length_seq. repeat split.
  - cbn. lia.
  - destruct scheduler; cbn; lia.
  - intros n ->. destruct Ht as (_ & He & _). cbn in He. congruence.
Qed.

End FitCounts.


(** ** Calls to [fit] that raise *)

Section FitErrors.
Import AdversarialTrainerCertified Props Outline.
Context {F : Type} `{Scalar F}.
Context {sample params optimizer zono_in zono user_schedule lr_scheduler : Type}.
Variable clf : certifier F sample params optimizer zono_in zono.
Variable self : trainer F sample optimizer zono_in user_schedule.

Local Abbreviation W := (world F params).

(** X5: when [fit] is called without [nb_epochs] on a trainer built with
    [batch_size=None], the local [epochs] is never assigned and [fit] raises
    [UnboundLocalError] before the first epoch, whatever [batch_size] is
    passed to [fit] and whatever [self.nb_epochs] is. *)
Theorem fit_without_epochs_raises (data : list (sample * nat))
    (certification_loss : certification_loss_t F zono)
    (batch_size0 : option Z) (training_mode : bool)
    (scheduler : option lr_scheduler) (w : W) :
  _optimizer self <> None ->
  batch_size self = None ->
  pgd_batch_size self <> 0%Z ->
  fit clf self data certification_loss batch_size0 None training_mode scheduler w
  = (Raise (UnboundLocalError "epochs"), extend w [EvModelTrain training_mode]).
Proof.
  intros Hopt Hbs Hpgd. unfold fit, resolve_epochs. rewrite Hbs.
  destruct (_optimizer self) as [opt|]; [|contradiction].
  assert (Ep : (pgd_batch_size self =? 0)%Z = false) by now apply Z.eqb_neq.
  rewrite Ep.
  destruct (use_certification_schedule self);
    [destruct (certification_schedule self)|]; reflexivity.
Qed.

(** X6: a PGD batch size of zero makes [fit] raise [ZeroDivisionError] when
    it computes the number of batches, before any epoch. *)
Theorem fit_pgd_batch_size_zero_raises (data : list (sample * nat))
    (certification_loss : certification_loss_t F zono)
    (batch_size0 nb_epochs0 : option Z) (training_mode : bool)
    (scheduler : option lr_scheduler) (w : W) :
  _optimizer self <> None ->
  pgd_batch_size self = 0%Z ->
  fit clf self data certification_loss batch_size0 nb_epochs0 training_mode
      scheduler w
  = (Raise ZeroDivisionError, extend w [EvModelTrain training_mode]).
Proof.
  intros Hopt Hpgd. unfold fit. rewrite Hpgd.
  destruct (_optimizer self) as [opt|]; [|contradiction]. reflexivity.
Qed.

(** X7: [fit(nb_epochs=0)] raises [ZeroDivisionError] when the default
    schedule is built ([self.bound / epochs]), and returns at once, with no
    epoch, when no certification schedule is in use. *)
Theorem fit_zero_epochs (data : list (sample * nat))
    (certification_loss : certification_loss_t F zono)
    (batch_size0 : option Z) (training_mode : bool)
    (scheduler : option lr_scheduler) (w : W) :
  _optimizer self <> None ->
  pgd_batch_size self <> 0%Z ->
  certification_schedule self = None ->
  fit clf self data certification_loss batch_size0 (Some 0%Z) training_mode
      scheduler w
  = (if use_certification_schedule self then Raise ZeroDivisionError else Return tt,
     extend w [EvModelTrain training_mode]).
Proof.
  intros Hopt Hpgd Hsched. unfold fit, resolve_epochs. rewrite Hsched.
  destruct (_optimizer self) as [opt|]; [|contradiction].
  assert (Ep : (pgd_batch_size self =? 0)%Z = false) by now apply Z.eqb_neq.
  rewrite Ep.
  destruct (use_certification_schedule self); reflexivity.
Qed.

End FitErrors.

Section FitErrorsInBatch.
Import AdversarialTrainerCertified Props Outline.
Context {F : Type} `{Scalar F}.
Context {sample params optimizer zono_in zono user_schedule lr_scheduler : Type}.
Variable clf : certifier F sample params optimizer zono_in zono.
Variable self : trainer F sample optimizer zono_in user_schedule.

Local Abbreviation W := (world F params).

Lemma bind_bind {A B C : Type} (m : M W A) (k1 : A -> M W B) (k2 : B -> M W C)
    (w : W) :
  bind (bind m k1) k2 w = bind m (fun a => bind (k1 a) k2) w.
Proof. unfold bind. destruct (m w) as [[a|e] w1]; reflexivity. Qed.

Lemma bind_log {B : Type} (e : event F) (k : unit -> M W B) (w : W) :
  bind (log e) k w = k tt (extend w [e]).
Proof. reflexivity. Qed.

Lemma bind_fresh_seed {B : Type} (k : nat -> M W B) (w : W) :
  bind fresh_seed k w
  = k (w_seed w) (mkWorld (w_params w) (S (w_seed w)) (w_trace w)).
Proof. reflexivity. Qed.

Lemma bind_get_params {B : Type} (k : params -> M W B) (w : W) :
  bind get_params k w = k (w_params w) w.
Proof. reflexivity. Qed.

Lemma bind_raise {A B : Type} (e : exn) (k : A -> M W B) (w : W) :
  bind (raise e) k w = (Raise e, w).
Proof. reflexivity. Qed.

(** Run the computations at the head of the goal. *)
Ltac run_head :=
  repeat first
    [ rewrite bind_bind | rewrite bind_ret_l | rewrite bind_log
    | rewrite bind_fresh_seed | rewrite bind_get_params
    | progress cbn [lookup DLS.step l_bound l_schedule l_cert l_ind] ].

Lemma ceil_div_pos (n d : Z) : (0 < n)%Z -> (0 < d)%Z -> (0 < ceil_div n d)%Z.
Proof.
  intros Hn Hd. unfold ceil_div.
  assert ((- n) / d < 0)%Z by (apply Z.div_lt_upper_bound; lia). lia.
Qed.

(** X8: a trainer built with a [concrete_to_zonotope] function cannot be
    fitted: on a non-empty training set, the first sample of the first batch
    converts the sample, sets the abstract forward mode and then raises
    [UnboundLocalError] on [eps_bound], which only the default conversion
    assigns.  No parameter is updated. *)
Theorem fit_with_conversion_function_raises (data : list (sample * nat))
    (certification_loss : certification_loss_t F zono)
    (batch_size0 nb_epochs0 : option Z) (training_mode : bool)
    (scheduler : option lr_scheduler) (w : W)
    (convert : sample -> F -> zono_in) (e : Z) :
  concrete_to_zonotope self = Some convert ->
  _optimizer self <> None ->
  resolve_epochs self nb_epochs0 = Some e ->
  (0 < e)%Z ->
  (0 < pgd_batch_size self)%Z ->
  certification_schedule self = None ->
  data <> [] ->
  (forall seed xs, xs <> [] -> sklearn_shuffle clf seed xs <> []) ->
  exists w',
    fit clf self data certification_loss batch_size0 nb_epochs0 training_mode
        scheduler w
    = (Raise (UnboundLocalError "eps_bound"), w') /\
    w_params w' = w_params w /\
    w_trace w'
    = w_trace w
      ++ EvModelTrain training_mode
         :: (if use_certification_schedule self
             then [EvCertificationScheduleStep
                     (fst (DLS.step (DLS.of_fit (bound self) e)))]
             else [])
      ++ [EvRandomShuffle; EvZeroGrad;
          EvSetForwardMode concrete; EvSetForwardMode abstract].
Proof.
  intros Hc Hopt He Hpos Hpgd Hsched Hdata Hshuffle. unfold fit.
  rewrite He, Hsched.
  destruct (_optimizer self) as [opt|]; [|contradiction].
  assert (Ep : (pgd_batch_size self =? 0)%Z = false) by (apply Z.eqb_neq; lia).
  assert (Ee : (e =? 0)%Z = false) by (apply Z.eqb_neq; lia).
  rewrite Ep. cbn [lookup].
  assert (Hnb : exists k, Z.to_nat (ceil_div (Z.of_nat (List.length data))
                                      (pgd_batch_size self)) = S k).
  { assert (0 < ceil_div (Z.of_nat (List.length data)) (pgd_batch_size self))%Z.
    { apply ceil_div_pos; [|exact Hpgd]. destruct data; [contradiction|].
      cbn [List.length]. lia. }
    exists (Z.to_nat (ceil_div (Z.of_nat (List.length data))
                        (pgd_batch_size self)) - 1)%nat. lia. }
  destruct Hnb as [k Hk].
  destruct (Z.to_nat e) as [|n] eqn:En; [lia|].
  assert (Hstep :
    forall (x : sample * nat) (acc : F * nat) (bd : F) (w0 : W),
      sample_step clf self certification_loss bd x acc w0
      = (Raise (UnboundLocalError "eps_bound"),
         extend w0 [EvSetForwardMode concrete; EvSetForwardMode abstract])).
  { intros [x label] [total certified] bd w0. unfold sample_step. rewrite Hc.
    unfold set_forward_mode, bind, log, get_params, raise, extend.
    cbn [w_params w_seed w_trace]. now rewrite <- app_assoc. }
  assert (Hbatch :
    forall (st : @locals F sample) (m : nat) (bd : F) (w0 : W),
      l_bound st = Some bd -> l_cert st = data ->
      batch_step clf self opt data certification_loss
        match batch_size0 with
        | Some b => Some b
        | None => batch_size self
        end st m w0
      = (Raise (UnboundLocalError "eps_bound"),
         mkWorld (w_params w0) (S (w_seed w0))
           (w_trace w0 ++ [EvZeroGrad; EvSetForwardMode concrete;
                           EvSetForwardMode abstract]))).
  { intros st m bd w0 Hbd Hcert. unfold batch_step.
    rewrite Hbd, Hcert. run_head.
    destruct (sklearn_shuffle clf (w_seed (extend w0 [EvZeroGrad])) data)
      as [|x xs] eqn:Esh; [exfalso; exact (Hshuffle _ data Hdata Esh)|].
    cbn [certified_loop]. run_head.
    unfold bind at 1. rewrite Hstep. unfold extend.
    cbn [w_params w_seed w_trace]. now rewrite <- app_assoc. }
  destruct (use_certification_schedule self) eqn:Euse.
  - run_head. rewrite Ee. run_head. rewrite En. cbn [epoch_loop].
    unfold epoch_step at 1. rewrite Euse. run_head.
    rewrite Hk. cbn [seq batch_loop]. run_head.
    unfold bind at 1. erewrite Hbatch by reflexivity.
    eexists. split; [reflexivity|]. unfold extend. cbn [w_params w_trace].
    split; [reflexivity|]. rewrite <- !app_assoc. reflexivity.
  - run_head. rewrite En. cbn [epoch_loop].
    unfold epoch_step at 1. rewrite Euse. run_head.
    rewrite Hk. cbn [seq batch_loop]. run_head.
    unfold bind at 1. erewrite Hbatch by reflexivity.
    eexists. split; [reflexivity|]. unfold extend. cbn [w_params w_trace].
    split; [reflexivity|]. rewrite <- !app_assoc. reflexivity.
Qed.


(** X9: with a batch size of zero, [fit] on a non-empty training set raises
    [ZeroDivisionError] at the break test of the first sample of the first
    batch ([(i + 1) % batch_size]), after that sample has been certified; no
    progress line, backward pass or optimizer step takes place and the
    parameters are unchanged. *)
Theorem fit_batch_size_zero_raises (data : list (sample * nat))
    (certification_loss : certification_loss_t F zono)
    (batch_size0 nb_epochs0 : option Z) (training_mode : bool)
    (scheduler : option lr_scheduler) (w : W) (e : Z) :
  match batch_size0 with
  | Some b => Some b
  | None => batch_size self
  end = Some 0%Z ->
  concrete_to_zonotope self = None ->
  _optimizer self <> None ->
  resolve_epochs self nb_epochs0 = Some e ->
  (0 < e)%Z ->
  (0 < pgd_batch_size self)%Z ->
  certification_schedule self = None ->
  data <> [] ->
  (forall seed xs, xs <> [] -> sklearn_shuffle clf seed xs <> []) ->
  exists w',
    fit clf self data certification_loss batch_size0 nb_epochs0 training_mode
        scheduler w
    = (Raise ZeroDivisionError, w') /\
    w_params w' = w_params w /\
    outline (w_trace w')
    = outline (w_trace w)
      ++ MModelTrain training_mode
         :: (if use_certification_schedule self
             then [MScheduleStep (fst (DLS.step (DLS.of_fit (bound self) e)))]
             else [])
      ++ [MShuffle; MZeroGrad].
Proof.
  intros Hbs Hc Hopt He Hpos Hpgd Hsched Hdata Hshuffle. unfold fit.
  rewrite He, Hsched, Hbs.
  destruct (_optimizer self) as [opt|]; [|contradiction].
  assert (Ep : (pgd_batch_size self =? 0)%Z = false) by (apply Z.eqb_neq; lia).
  assert (Ee : (e =? 0)%Z = false) by (apply Z.eqb_neq; lia).
  rewrite Ep. cbn [lookup].
  assert (Hnb : exists k, Z.to_nat (ceil_div (Z.of_nat (List.length data))
                                      (pgd_batch_size self)) = S k).
  { assert (0 < ceil_div (Z.of_nat (List.length data)) (pgd_batch_size self))%Z.
    { apply ceil_div_pos; [|exact Hpgd]. destruct data; [contradiction|].
      cbn [List.length]. lia. }
    exists (Z.to_nat (ceil_div (Z.of_nat (List.length data))
                        (pgd_batch_size self)) - 1)%nat. lia. }
  destruct Hnb as [k Hk].
  destruct (Z.to_nat e) as [|n] eqn:En; [lia|].
  assert (Hbatch :
    forall (st : @locals F sample) (m : nat) (bd : F) (w0 : W),
      l_bound st = Some bd -> l_cert st = data ->
      exists w1,
        batch_step clf self opt data certification_loss (Some 0%Z) st m w0
        = (Raise ZeroDivisionError, w1) /\
        w_params w1 = w_params w0 /\
        outline (w_trace w1) = outline (w_trace w0) ++ [MZeroGrad]).
  { intros st m bd w0 Hbd Hcert. unfold batch_step.
    rewrite Hbd, Hcert. run_head.
    destruct (sklearn_shuffle clf (w_seed (extend w0 [EvZeroGrad])) data)
      as [|[x label] xs] eqn:Esh; [exfalso; exact (Hshuffle _ data Hdata Esh)|].
    cbn [certified_loop]. run_head.
    unfold bind at 1. rewrite (sample_step_run clf self) by exact Hc.
    cbv zeta. cbv beta. run_head. unfold break_test. cbn [Z.eqb].
    rewrite bind_raise.
    eexists. split; [reflexivity|]. unfold extend. cbn [w_params w_trace].
    split; [reflexivity|].
    rewrite !outline_app, outline_certify_events. cbn [outline flat_map mark_of app].
    now rewrite !app_nil_r. }
  destruct (use_certification_schedule self) eqn:Euse.
  - run_head. rewrite Ee. run_head. rewrite En. cbn [epoch_loop].
    unfold epoch_step at 1. rewrite Euse. run_head.
    rewrite Hk. cbn [seq batch_loop]. run_head.
    unfold bind at 1.
    match goal with
    | |- context [batch_step clf self opt data certification_loss _ ?st ?m ?w0] =>
        destruct (Hbatch st m _ w0 eq_refl eq_refl) as (w1 & E1 & Hp1 & Ho1)
    end.
    rewrite E1. exists w1. split; [reflexivity|]. rewrite Hp1, Ho1.
    unfold extend. cbn [w_params w_trace]. split; [reflexivity|].
    rewrite !outline_app. cbn [outline flat_map mark_of app].
    rewrite <- !app_assoc. reflexivity.
  - run_head. rewrite En. cbn [epoch_loop].
    unfold epoch_step at 1. rewrite Euse. run_head.
    rewrite Hk. cbn [seq batch_loop]. run_head.
    unfold bind at 1.
    match goal with
    | |- context [batch_step clf self opt data certification_loss _ ?st ?m ?w0] =>
        destruct (Hbatch st m _ w0 eq_refl eq_refl) as (w1 & E1 & Hp1 & Ho1)
    end.
    rewrite E1. exists w1. split; [reflexivity|]. rewrite Hp1, Ho1.
    unfold extend. cbn [w_params w_trace]. split; [reflexivity|].
    rewrite !outline_app. cbn [outline flat_map mark_of app].
    rewrite <- !app_assoc. reflexivity.
Qed.

End FitErrorsInBatch.

(** ** The certified pass and the PGD batches *)

Section CertifiedPassMore.
Import AdversarialTrainerCertified Props Outline.
Context {F : Type} `{Scalar F}.
Context {sample params optimizer zono_in zono user_schedule : Type}.
Variable clf : certifier F sample params optimizer zono_in zono.
Variable self : trainer F sample optimizer zono_in user_schedule.

Local Abbreviation W := (world F params).

Lemma inert_ret {A : Type} (a : A) : inert (F := F) (params := params) (ret a).
Proof. intros w. exists []. split; [symmetry; apply extend_nil|constructor]. Qed.

Lemma inert_raise {A : Type} (e : exn) :
  inert (F := F) (params := params) (A := A) (raise e).
Proof. intros w. exists []. split; [symmetry; apply extend_nil|constructor]. Qed.

Lemma inert_bind {A B : Type} (m : M W A) (k : A -> M W B) :
  inert m -> (forall a, inert (k a)) -> inert (bind m k).
Proof.
  intros Hm Hk w. destruct (Hm w) as (e1 & E1 & O1). unfold bind.
  destruct (m w) as [[a|e] w1]; cbn [snd] in E1; subst w1.
  - destruct (Hk a (extend w e1)) as (e2 & E2 & O2).
    exists (e1 ++ e2). rewrite E2, extend_extend. split; [reflexivity|].
    apply Forall_app. now split.
  - exists e1. now split.
Qed.

Lemma inert_log (e : event F) :
  of_certified_pass e -> inert (log (params := params) e).
Proof.
  intros He w. exists [e]. split; [reflexivity|]. now repeat constructor.
Qed.

Lemma inert_certification_results (concrete_pred : nat) (z : zono) (ks : list nat) :
  inert (certification_results (params := params) clf concrete_pred z ks).
Proof.
  induction ks as [|k ks IH]; [apply inert_ret|].
  cbn [certification_results].
  destruct (negb (k =? concrete_pred)%nat); [|exact IH].
  apply inert_bind; [apply inert_log; exact I|]. intros _.
  apply inert_bind; [exact IH|]. intros rest. apply inert_ret.
Qed.

Lemma inert_sample_step (certification_loss : certification_loss_t F zono)
    (bound0 : F) (x : sample * nat) (acc : F * nat) :
  inert (sample_step clf self certification_loss bound0 x acc).
Proof.
  destruct x as [x label], acc as [total certified]. unfold sample_step.
  apply inert_bind; [apply inert_log; exact I|]. intros _.
  apply inert_bind; [intros w; exists []; split;
                       [symmetry; apply extend_nil|constructor]|].
  intros theta.
  destruct (concrete_to_zonotope self).
  - apply inert_bind; [apply inert_log; exact I|]. intros _. apply inert_raise.
  - apply inert_bind; [apply inert_log; exact I|]. intros _.
    apply inert_bind; [apply inert_certification_results|].
    intros results. apply inert_ret.
Qed.

Lemma inert_break_test (batch_size0 : option Z) (i : nat) :
  inert (F := F) (params := params) (break_test batch_size0 i).
Proof.
  unfold break_test. destruct batch_size0 as [b|]; [|apply inert_raise].
  destruct (b =? 0)%Z; [apply inert_raise|apply inert_ret].
Qed.

Lemma inert_certified_loop (certification_loss : certification_loss_t F zono)
    (bound0 : F) (batch_size0 : option Z) (xs : list (sample * nat)) :
  forall (i : nat) (acc : F * nat),
    inert (certified_loop clf self certification_loss bound0 batch_size0 i xs acc).
Proof.
  induction xs as [|x xs IH]; intros i acc; [apply inert_ret|].
  cbn [certified_loop].
  apply inert_bind; [apply inert_sample_step|]. intros acc'.
  apply inert_bind; [apply inert_break_test|].
  intros [|]; [apply inert_ret|apply IH].
Qed.

(** X10: the certified pass over the samples leaves the parameters of the
    model and the random stream untouched and performs no optimizer step,
    backward pass or progress report, whatever the configuration and whether
    it returns or raises: all it adds to the run are changes of forward mode
    and certification checks. *)
Theorem certified_pass_is_inert (certification_loss : certification_loss_t F zono)
    (bound0 : F) (batch_size0 : option Z) (i : nat) (xs : list (sample * nat))
    (acc : F * nat) (w : W) :
  exists evs,
    snd (certified_loop clf self certification_loss bound0 batch_size0 i xs acc w)
    = mkWorld (w_params w) (w_seed w) (w_trace w ++ evs) /\
    Forall (fun e => match e with
                     | EvSetForwardMode _ | EvCertifyViaSubtraction _ _ _ => True
                     | _ => False
                     end) evs.
Proof.
  destruct (inert_certified_loop certification_loss bound0 batch_size0 xs i acc w)
    as (evs & E & O).
  exists evs. split; [exact E|exact O].
Qed.

(** X11: for a batch size of two or more and no conversion function, the
    inner loop of a batch visits exactly the first [batch_size] samples of
    the shuffled training set (all of them when there are fewer): the
    certified loss it returns is the sum of their losses, and at most that
    many samples are counted as certified. *)
Theorem certified_loop_visits_batch_size
    (certification_loss : certification_loss_t F zono) (bound0 : F) (b : Z)
    (xs : list (sample * nat)) (total : F) (certified : nat) (w : W) :
  concrete_to_zonotope self = None ->
  (2 <= b)%Z ->
  exists certified' w',
    certified_loop clf self certification_loss bound0 (Some b) 0 xs
      (total, certified) w
    = (Return (sum_of_losses clf certification_loss (w_params w) bound0
                 (firstn (Z.to_nat b) xs) total, certified'), w') /\
    List.length (firstn (Z.to_nat b) xs) = Nat.min (Z.to_nat b) (List.length xs) /\
    (certified <= certified' <= certified + Nat.min (Z.to_nat b) (List.length xs))%nat.
Proof.
  intros Hc Hb. rewrite (certified_loop_takes_batch_size clf self) by exact Hb.
  assert (Hseq : forall (ys : list (sample * nat)) t c w0,
            exists c' evs,
              samples_in_sequence clf self certification_loss bound0 ys (t, c) w0
              = (Return (sum_of_losses clf certification_loss (w_params w0) bound0
                           ys t, c'), extend w0 evs) /\
              (c <= c' <= c + List.length ys)%nat).
  { induction ys as [|[y label] ys IH]; intros t c w0.
    - exists c, []. rewrite extend_nil. split; [reflexivity|cbn; lia].
    - cbn [samples_in_sequence].
      pose proof (sample_step_run clf self certification_loss bound0 y label t c
                    w0 Hc) as Es.
      cbv zeta in Es. run_bind Es.
      match goal with
      | |- context [samples_in_sequence _ _ _ _ _ (?t1, ?c1) ?w1] =>
          destruct (IH t1 c1 w1) as (c' & evs & Erun & Hle)
      end.
      eexists c', _. rewrite Erun, extend_extend. split; [reflexivity|].
      cbn [List.length]. destruct (forallb _ _) in Hle; lia. }
  destruct (Hseq (firstn (Z.to_nat b) xs) total certified w)
    as (c' & evs & Erun & Hle).
  exists c', (extend w evs). split; [exact Erun|].
  rewrite length_firstn in *. split; [reflexivity|exact Hle].
Qed.

End CertifiedPassMore.

Section PgdBatches.

Lemma firstn_add_skipn {A : Type} (n m : nat) (l : list A) :
  firstn (n + m) l = firstn n l ++ firstn m (skipn n l).
Proof.
  revert l. induction n as [|n IH]; intros l; [reflexivity|].
  destruct l as [|a l]; [cbn; now rewrite firstn_nil|].
  cbn [Nat.add firstn skipn app]. now rewrite IH.
Qed.

Lemma slices_firstn {A : Type} (l : list A) (b k : nat) :
  List.concat (map (fun m => slice l (m * b) b) (seq 0 k)) = firstn (k * b) l.
Proof.
  induction k as [|k IH]; [reflexivity|].
  rewrite seq_S, map_app, concat_app, IH. cbn [map List.concat Nat.add].
  rewrite app_nil_r. unfold slice.
  replace (S k * b)%nat with (k * b + b)%nat by lia.
  now rewrite firstn_add_skipn.
Qed.

Lemma ceil_div_bounds (n d : Z) :
  (0 < d)%Z ->
  (n <= ceil_div n d * d)%Z /\ ((ceil_div n d - 1) * d < n)%Z.
Proof.
  intros Hd. unfold ceil_div.
  pose proof (Z.div_mod (- n) d ltac:(lia)) as Hdm.
  pose proof (Z.mod_pos_bound (- n) d Hd) as Hr.
  nia.
Qed.

(** For a positive batch size [B], the slices [ind[m * B : (m + 1) * B]]
    for [m < ceil(len(ind) / B)] are non-empty and, put end to end, give
    [ind] back. *)
Lemma slices_partition (ind : list nat) (pgd_b : Z) :
  (0 < pgd_b)%Z ->
  let B := Z.to_nat pgd_b in
  let num_batch := Z.to_nat (ceil_div (Z.of_nat (List.length ind)) pgd_b) in
  List.concat (map (fun m => slice ind (m * B) B) (seq 0 num_batch)) = ind /\
  (forall m, (m < num_batch)%nat -> slice ind (m * B) B <> []).
Proof.
  intros Hb B num_batch.
  destruct (ceil_div_bounds (Z.of_nat (List.length ind)) pgd_b Hb) as [Hup Hlow].
  assert (Hcd : (0 <= ceil_div (Z.of_nat (List.length ind)) pgd_b)%Z) by nia.
  split.
  - rewrite slices_firstn. apply firstn_all2. unfold num_batch, B. nia.
  - intros m Hm Hnil. unfold slice in Hnil.
    assert (Hlen : List.length (firstn B (skipn (m * B) ind)) = O)
      by now rewrite Hnil.
    rewrite length_firstn, length_skipn in Hlen. unfold num_batch, B in *. nia.
Qed.

End PgdBatches.

(** ** A run of [fit] that trains follows the reference *)

Section FitReference.
Import AdversarialTrainerCertified Props Outline Reference.
Context {F : Type} `{Scalar F}.
Context {sample params optimizer zono_in zono user_schedule lr_scheduler : Type}.
Variable clf : certifier F sample params optimizer zono_in zono.
Variable self : trainer F sample optimizer zono_in user_schedule.
Variable opt : optimizer.
Variable data : list (sample * nat).
Variable certification_loss : certification_loss_t F zono.
Variable b : Z.

Local Abbreviation W := (world F params).
Local Abbreviation locals' := (@locals F sample).
Local Abbreviation train_batch' := (train_batch clf self opt data b).
Local Abbreviation loss_of' := (loss_of clf self data certification_loss b).
Local Abbreviation train_batches' :=
  (train_batches clf self opt data certification_loss b).
Local Abbreviation train_epoch' :=
  (train_epoch clf self opt data certification_loss b).
Local Abbreviation train' := (train clf self opt data certification_loss b).
Local Abbreviation epoch_indices' :=
  (epoch_indices clf self opt data certification_loss b).

(** The state of training in the world [w] with the variables [st]. *)
Local Abbreviation pass_of st w :=
  (mkPass (w_params w) (w_seed w) (l_ind st) (l_cert st)).

Lemma attacked_rows_app (t1 t2 : list (event F)) :
  attacked_rows (t1 ++ t2) = attacked_rows t1 ++ attacked_rows t2.
Proof.
  induction t1 as [|e t1 IH]; [reflexivity|].
  destruct e; cbn [app attacked_rows]; rewrite IH; reflexivity.
Qed.

Lemma backward_losses_app (t1 t2 : list (event F)) :
  backward_losses (t1 ++ t2) = backward_losses t1 ++ backward_losses t2.
Proof.
  induction t1 as [|e t1 IH]; [reflexivity|].
  destruct e; cbn [app backward_losses]; rewrite IH; reflexivity.
Qed.

(** The events of the certified pass hold no attack and no backward pass. *)
Lemma certified_pass_is_quiet (evs : list (event F)) :
  Forall of_certified_pass evs ->
  attacked_rows evs = [] /\ backward_losses evs = [].
Proof.
  induction 1 as [|e evs He _ [IH1 IH2]]; [now split|].
  destruct e; try contradiction; now split.
Qed.

Lemma follows_ret {A : Type} (a : A) (w : W) (post : A -> W -> Prop) :
  post a w -> follows (ret a) w post [] [].
Proof.
  intros Hp. exists a, w. repeat split; [exact Hp| |]; now rewrite app_nil_r.
Qed.

Lemma follows_bind {A B : Type} (m : M W A) (k : A -> M W B) (w : W)
    (P : A -> W -> Prop) (Q : B -> W -> Prop)
    (rows1 rows2 : list (list nat)) (losses1 losses2 : list F) :
  follows m w P rows1 losses1 ->
  (forall a w1, P a w1 -> follows (k a) w1 Q rows2 losses2) ->
  follows (bind m k) w Q (rows1 ++ rows2) (losses1 ++ losses2).
Proof.
  intros (a & w1 & Em & Hp & Hr1 & Hl1) Hk.
  destruct (Hk a w1 Hp) as (c & w2 & Ek & Hq & Hr2 & Hl2).
  exists c, w2. rewrite (bind_Return m k w w1 a Em).
  repeat split; [exact Ek|exact Hq| |].
  - now rewrite Hr2, Hr1, app_assoc.
  - now rewrite Hl2, Hl1, app_assoc.
Qed.

Lemma follows_weaken {A : Type} (m : M W A) (w : W) (P Q : A -> W -> Prop)
    (rows : list (list nat)) (losses : list F) :
  (forall a w', P a w' -> Q a w') ->
  follows m w P rows losses -> follows m w Q rows losses.
Proof.
  intros HPQ (a & w' & E & Hp & Hr & Hl). exists a, w'.
  repeat split; [exact E|now apply HPQ|exact Hr|exact Hl].
Qed.

(** [m] from [w] goes on as [m'] from [w'], and nothing was attacked or
    backpropagated in between. *)
Lemma follows_step {A : Type} (m m' : M W A) (w w' : W) (P : A -> W -> Prop)
    (rows : list (list nat)) (losses : list F) :
  m w = m' w' ->
  attacked_rows (w_trace w') = attacked_rows (w_trace w) ->
  backward_losses (w_trace w') = backward_losses (w_trace w) ->
  follows m' w' P rows losses -> follows m w P rows losses.
Proof.
  intros E Hr Hl (a & w2 & E2 & Hp & Hr2 & Hl2). exists a, w2.
  rewrite E, <- Hr, <- Hl. now repeat split.
Qed.

Lemma bind_set_params {B : Type} (p : params) (k : unit -> M W B) (w : W) :
  bind (set_params p) k w = k tt (mkWorld p (w_seed w) (w_trace w)).
Proof. reflexivity. Qed.

(** Run the computations at the head of the goal. *)
Ltac run_head :=
  repeat first
    [ rewrite bind_bind | rewrite bind_ret_l | rewrite bind_log
    | rewrite bind_fresh_seed | rewrite bind_get_params
    | progress cbn [lookup DLS.step l_bound l_schedule l_cert l_ind] ].

(** The events added hold no attack and no backward pass. *)
Ltac quiet :=
  unfold extend; cbn [w_trace];
  rewrite ?attacked_rows_app, ?backward_losses_app;
  cbn [attacked_rows backward_losses]; rewrite ?app_nil_r; reflexivity.

(** Run the head of [m] in a goal [follows m w _ _ _], after [tac]. *)
Ltac follows_run tac :=
  match goal with
  | |- follows ?m ?w _ _ _ =>
      let E := fresh "E" in
      eassert (E : m w = _) by (tac; run_head; reflexivity);
      match type of E with
      | _ = ?m' ?w' => apply (follows_step m m' w w' _ _ _ E); clear E
      end
  end.

(** The certified pass of a batch, for a batch size of one or more and no
    conversion function: the loss it returns is the sum of the losses of the
    samples of [visited]. *)
Lemma certified_loop_visited (bound0 : F) (xs : list (sample * nat)) (w : W) :
  concrete_to_zonotope self = None ->
  (1 <= b)%Z ->
  exists certified' evs,
    certified_loop clf self certification_loss bound0 (Some b) 0 xs (f_zero, O) w
    = (Return (sum_of_losses clf certification_loss (w_params w) bound0
                 (visited b xs) f_zero, certified'),
       extend w evs) /\
    Forall of_certified_pass evs.
Proof.
  intros Hc Hb.
  destruct (inert_certified_loop clf self certification_loss bound0 (Some b) xs
              0 (f_zero, O) w) as (evs' & Es & Hq).
  assert (E : exists certified' evs,
            certified_loop clf self certification_loss bound0 (Some b) 0 xs
              (f_zero, O) w
            = (Return (sum_of_losses clf certification_loss (w_params w) bound0
                         (visited b xs) f_zero, certified'),
               extend w evs)).
  { unfold visited. destruct (b =? 1)%Z eqn:E1.
    - apply Z.eqb_eq in E1. rewrite E1.
      rewrite (certified_loop_batch_size_1 clf self).
      destruct (samples_in_sequence_run clf self certification_loss bound0
                  (firstn 2 xs) Hc f_zero O w) as (c' & evs & Erun & _).
      now exists c', evs.
    - apply Z.eqb_neq in E1.
      rewrite (certified_loop_takes_batch_size clf self) by lia.
      destruct (samples_in_sequence_run clf self certification_loss bound0
                  (firstn (Z.to_nat b) xs) Hc f_zero O w) as (c' & evs & Erun & _).
      now exists c', evs. }
  destruct E as (c' & evs & E). exists c', evs. split; [exact E|].
  rewrite E in Es. cbn [snd] in Es. unfold extend in Es.
  injection Es as Es. apply app_inv_head in Es. now subst evs'.
Qed.

(** One batch. *)
Lemma batch_step_follows (st : locals') (m : nat) (bound0 : F) (w : W) :
  concrete_to_zonotope self = None ->
  (1 <= b)%Z ->
  l_bound st = Some bound0 ->
  follows (batch_step clf self opt data certification_loss (Some b) st m) w
    (fun st' w' =>
       pass_of st' w' = train_batch' bound0 m (pass_of st w) /\
       l_bound st' = Some bound0 /\ l_schedule st' = l_schedule st)
    [rows_of self (l_ind st) m]
    [loss_of' bound0 m (pass_of st w)].
Proof.
  intros Hc Hb Hbound. unfold follows, batch_step. rewrite Hbound.
  run_head.
  match goal with
  | |- context [bind (certified_loop clf self _ ?bd _ _ ?xs _) _ ?w0] =>
      destruct (certified_loop_visited bd xs w0 Hc Hb) as (c' & evs & E & Hq)
  end.
  rewrite (bind_Return _ _ _ _ _ E).
  destruct (certified_pass_is_quiet evs Hq) as [Hq1 Hq2].
  assert (Eb : (b =? 0)%Z = false) by (apply Z.eqb_neq; lia).
  unfold set_forward_mode. run_head. rewrite Eb. run_head.
  rewrite bind_set_params. run_head.
  eexists _, _. split; [reflexivity|].
  unfold extend. cbn [w_params w_seed w_trace l_ind l_cert l_bound l_schedule].
  split; [|split].
  - split; [reflexivity|]. now split.
  - rewrite !attacked_rows_app, Hq1. cbn [attacked_rows app].
    now rewrite !app_nil_r.
  - rewrite !backward_losses_app, Hq2. cbn [backward_losses app].
    now rewrite !app_nil_r.
Qed.

(** The batches of an epoch. *)
Lemma batch_loop_follows (bound0 : F) (ms : list nat) :
  concrete_to_zonotope self = None ->
  (1 <= b)%Z ->
  forall (st : locals') (w : W),
    l_bound st = Some bound0 ->
    follows (batch_loop clf self opt data certification_loss (Some b) ms st) w
      (fun st' w' =>
         pass_of st' w' = fst (train_batches' bound0 ms (pass_of st w)) /\
         l_bound st' = Some bound0 /\ l_schedule st' = l_schedule st)
      (map fst (snd (train_batches' bound0 ms (pass_of st w))))
      (map snd (snd (train_batches' bound0 ms (pass_of st w)))).
Proof.
  intros Hc Hb. induction ms as [|m ms IH]; intros st w Hbound.
  - apply follows_ret. now repeat split.
  - cbn [batch_loop train_batches fst snd map].
    change (?x :: ?l) with ([x] ++ l).
    eapply follows_bind; [now apply batch_step_follows|].
    intros st' w1 (Hp & Hb' & Hs').
    cbn [p_ind]. rewrite <- Hp.
    eapply follows_weaken; [|apply IH; exact Hb'].
    intros st'' w2 (Hp2 & Hb2 & Hs2). repeat split; congruence.
Qed.

(** One epoch trained at the value the default schedule returns. *)
Lemma epoch_step_follows_schedule (num_batch : Z)
    (scheduler : option lr_scheduler) (st : locals') (s : DLS.t F) (w : W) :
  concrete_to_zonotope self = None ->
  (1 <= b)%Z ->
  use_certification_schedule self = true ->
  l_schedule st = Some s ->
  follows (epoch_step clf self opt data certification_loss (Some b) num_batch
             scheduler st) w
    (fun st' w' =>
       pass_of st' w'
       = fst (train_epoch' (fst (DLS.step s)) (Z.to_nat num_batch) (pass_of st w)) /\
       l_schedule st' = Some (snd (DLS.step s)))
    (map fst (snd (train_epoch' (fst (DLS.step s)) (Z.to_nat num_batch)
                     (pass_of st w))))
    (map snd (snd (train_epoch' (fst (DLS.step s)) (Z.to_nat num_batch)
                     (pass_of st w)))).
Proof.
  intros Hc Hb Huse Hs.
  follows_run ltac:(unfold epoch_step; rewrite Huse, Hs).
  { quiet. }
  { quiet. }
  match goal with
  | |- follows (bind (batch_loop _ _ _ _ _ _ ?ms ?st2) _) ?w2 _ _ _ =>
      pose proof (batch_loop_follows (fst (DLS.step s)) ms Hc Hb st2 w2 eq_refl)
        as Hloop
  end.
  unfold train_epoch, shuffle_indices.
  cbn [l_ind l_cert l_bound l_schedule w_params w_seed w_trace extend p_params
       p_seed p_ind p_cert DLS.step fst snd] in *.
  rewrite <- (app_nil_r (map fst _)), <- (app_nil_r (map snd _)).
  eapply follows_bind; [exact Hloop|].
  intros st3 w3 (Hp & Hb3 & Hs3).
  destruct scheduler.
  - follows_run idtac; [quiet|quiet|].
    apply follows_ret. now split.
  - follows_run idtac; [quiet|quiet|].
    apply follows_ret. now split.
Qed.

(** One epoch trained at the bound the variables hold. *)
Lemma epoch_step_follows_fixed (num_batch : Z)
    (scheduler : option lr_scheduler) (st : locals') (bound0 : F) (w : W) :
  concrete_to_zonotope self = None ->
  (1 <= b)%Z ->
  use_certification_schedule self = false ->
  l_bound st = Some bound0 ->
  follows (epoch_step clf self opt data certification_loss (Some b) num_batch
             scheduler st) w
    (fun st' w' =>
       pass_of st' w'
       = fst (train_epoch' bound0 (Z.to_nat num_batch) (pass_of st w)) /\
       l_bound st' = Some bound0)
    (map fst (snd (train_epoch' bound0 (Z.to_nat num_batch) (pass_of st w))))
    (map snd (snd (train_epoch' bound0 (Z.to_nat num_batch) (pass_of st w)))).
Proof.
  intros Hc Hb Huse Hbound.
  follows_run ltac:(unfold epoch_step; rewrite Huse).
  { quiet. }
  { quiet. }
  match goal with
  | |- follows (bind (batch_loop _ _ _ _ _ _ ?ms ?st2) _) ?w2 _ _ _ =>
      pose proof (batch_loop_follows bound0 ms Hc Hb st2 w2 Hbound) as Hloop
  end.
  unfold train_epoch, shuffle_indices.
  cbn [l_ind l_cert l_bound l_schedule w_params w_seed w_trace extend p_params
       p_seed p_ind p_cert fst snd] in *.
  rewrite <- (app_nil_r (map fst _)), <- (app_nil_r (map snd _)).
  eapply follows_bind; [exact Hloop|].
  intros st3 w3 (Hp & Hb3 & Hs3).
  destruct scheduler.
  - follows_run idtac; [quiet|quiet|].
    apply follows_ret. now split.
  - follows_run idtac; [quiet|quiet|].
    apply follows_ret. now split.
Qed.

Lemma epoch_loop_follows_schedule (num_batch : Z)
    (scheduler : option lr_scheduler) (n : nat) :
  concrete_to_zonotope self = None ->
  (1 <= b)%Z ->
  use_certification_schedule self = true ->
  forall (s : DLS.t F) (st : locals') (w : W),
    l_schedule st = Some s ->
    let r := train' (map (fun j => DLS.bound (DLS.steps (S j) s)) (seq 0 n))
               (Z.to_nat num_batch) (pass_of st w) in
    follows (epoch_loop clf self opt data certification_loss (Some b) num_batch
               scheduler n st) w
      (fun st' w' => pass_of st' w' = fst r)
      (map fst (snd r)) (map snd (snd r)).
Proof.
  intros Hc Hb Huse. induction n as [|n IH]; intros s st w Hs r.
  - apply follows_ret. reflexivity.
  - subst r. cbn [epoch_loop seq map train fst snd].
    rewrite <- seq_shift, map_map. rewrite !map_app.
    eapply follows_bind;
      [apply epoch_step_follows_schedule with (s := s); assumption|].
    intros st' w1 (Hp & Hs'). change (DLS.bound (DLS.steps 1 s)) with (fst (DLS.step s)).
    rewrite <- Hp.
    apply (IH (snd (DLS.step s)) st' w1 Hs').
Qed.

Lemma epoch_loop_follows_fixed (num_batch : Z)
    (scheduler : option lr_scheduler) (n : nat) (bound0 : F) :
  concrete_to_zonotope self = None ->
  (1 <= b)%Z ->
  use_certification_schedule self = false ->
  forall (k : nat) (st : locals') (w : W),
    l_bound st = Some bound0 ->
    let r := train' (map (fun _ => bound0) (seq k n))
               (Z.to_nat num_batch) (pass_of st w) in
    follows (epoch_loop clf self opt data certification_loss (Some b) num_batch
               scheduler n st) w
      (fun st' w' => pass_of st' w' = fst r)
      (map fst (snd r)) (map snd (snd r)).
Proof.
  intros Hc Hb Huse. induction n as [|n IH]; intros k st w Hbound r.
  - apply follows_ret. reflexivity.
  - subst r. cbn [epoch_loop seq map train fst snd]. rewrite !map_app.
    eapply follows_bind;
      [apply epoch_step_follows_fixed with (bound0 := bound0); assumption|].
    intros st' w1 (Hp & Hb'). rewrite <- Hp.
    apply (IH (S k) st' w1 Hb').
Qed.

(** A call to [fit] that trains returns, and has computed what [train]
    computes from the state it started in, one epoch for each bound of the
    schedule. *)
Lemma fit_follows_reference (batch_size0 nb_epochs0 : option Z)
    (training_mode : bool) (scheduler : option lr_scheduler) (e : Z) (w : W) :
  trains_with self opt b batch_size0 nb_epochs0 e ->
  let r := train' (map (epoch_bound (use_certification_schedule self)
                          (bound self) e) (seq 0 (Z.to_nat e)))
             (num_batches self (List.length data)) (start data w) in
  follows (fit clf self data certification_loss batch_size0 nb_epochs0
             training_mode scheduler) w
    (fun _ w' => w_params w' = p_params (fst r) /\ w_seed w' = p_seed (fst r))
    (map fst (snd r)) (map snd (snd r)).
Proof.
  intros (Hopt & He & Hpgd & Hsched & Hne & Hc & Hbs & Hb) r.
  assert (Ep : (pgd_batch_size self =? 0)%Z = false) by now apply Z.eqb_neq.
  assert (Hend : forall (st : locals') (w1 : W) (p : pass),
             pass_of st w1 = p ->
             follows (ret (A := unit) tt) w1
               (fun _ w' => w_params w' = p_params p /\ w_seed w' = p_seed p)
               [] []).
  { intros st w1 p <-. apply follows_ret. now split. }
  subst r. unfold epoch_bound, num_batches, start.
  destruct (use_certification_schedule self) eqn:Euse.
  - assert (Ee : (e =? 0)%Z = false) by (apply Z.eqb_neq; now apply Hne).
    follows_run ltac:(unfold fit; rewrite Hopt, He, Hsched, Hbs, Euse, Ep;
                      cbn [lookup]; run_head; rewrite Ee); [quiet|quiet|].
    match goal with
    | |- follows (bind (epoch_loop _ _ _ _ _ _ ?nb _ _ ?st) _) ?w0 _ _ _ =>
        pose proof (epoch_loop_follows_schedule nb scheduler (Z.to_nat e) Hc Hb
                      Euse (DLS.of_fit (bound self) e) st w0 eq_refl) as Hloop
    end.
    cbn [l_ind l_cert w_params w_seed extend] in Hloop.
    rewrite <- (app_nil_r (map fst _)), <- (app_nil_r (map snd _)).
    eapply follows_bind; [exact Hloop|].
    intros st' w1 Hp. eapply Hend. exact Hp.
  - follows_run ltac:(unfold fit; rewrite Hopt, He, Hsched, Hbs, Euse, Ep;
                      cbn [lookup]); [quiet|quiet|].
    match goal with
    | |- follows (bind (epoch_loop _ _ _ _ _ _ ?nb _ _ ?st) _) ?w0 _ _ _ =>
        pose proof (epoch_loop_follows_fixed nb scheduler (Z.to_nat e)
                      (bound self) Hc Hb Euse 0%nat st w0 eq_refl) as Hloop
    end.
    cbn [l_ind l_cert w_params w_seed extend] in Hloop.
    rewrite <- (app_nil_r (map fst _)), <- (app_nil_r (map snd _)).
    eapply follows_bind; [exact Hloop|].
    intros st' w1 Hp. eapply Hend. exact Hp.
Qed.

(** What [train] attacks: in each epoch, the slices of the index array of
    that epoch. *)
Lemma train_batches_rows (bound0 : F) (ms : list nat) :
  forall p : pass,
    map fst (snd (train_batches' bound0 ms p)) = map (rows_of self (p_ind p)) ms /\
    p_ind (fst (train_batches' bound0 ms p)) = p_ind p.
Proof.
  induction ms as [|m ms IH]; intros p; cbn [train_batches fst snd map].
  - now split.
  - destruct (IH (train_batch' bound0 m p)) as [E1 E2].
    cbn [train_batch p_ind] in E1, E2. rewrite E1, E2. now split.
Qed.

Lemma train_rows (bounds : list F) (nb : nat) :
  forall p : pass,
    map fst (snd (train' bounds nb p))
    = flat_map (fun ind => map (rows_of self ind) (seq 0 nb))
               (epoch_indices' bounds nb p).
Proof.
  induction bounds as [|bound0 bounds IH]; intros p; [reflexivity|].
  cbn [train epoch_indices flat_map fst snd]. rewrite map_app, IH. f_equal.
  unfold train_epoch. apply train_batches_rows.
Qed.

Lemma epoch_indices_permute (nb : nat) :
  (forall seed ind, Permutation (random_shuffle clf seed ind) ind) ->
  forall (bounds : list F) (p : pass),
    List.length (epoch_indices' bounds nb p) = List.length bounds /\
    Forall (fun ind => Permutation ind (p_ind p)) (epoch_indices' bounds nb p).
Proof.
  intros Hperm. induction bounds as [|bound0 bounds IH]; intros p.
  - split; [reflexivity|constructor].
  - cbn [epoch_indices List.length].
    destruct (IH (fst (train_epoch' bound0 nb p))) as [Hlen Hall].
    split; [now rewrite Hlen|]. constructor.
    + cbn [shuffle_indices p_ind]. apply Hperm.
    + assert (Ei : p_ind (fst (train_epoch' bound0 nb p))
                   = random_shuffle clf (p_seed p) (p_ind p)).
      { unfold train_epoch.
        now rewrite (proj2 (train_batches_rows bound0 (seq 0 nb) (shuffle_indices clf p))). }
      rewrite Ei in Hall. eapply Forall_impl; [|exact Hall].
      intros ind Hind. eapply Permutation_trans; [exact Hind|apply Hperm].
Qed.



(** X12: in a call to [fit] that trains with a positive PGD batch size and a
    [random.shuffle] that permutes, the batches handed to the attack are, in
    each epoch, the [num_batch] slices [ind[m * B : (m + 1) * B]] of the
    index array of that epoch: they are non-empty and, put end to end, a
    permutation of all the row indices, so that every training sample is
    attacked exactly once in every epoch. *)
Theorem pgd_batches_partition_indices (batch_size0 nb_epochs0 : option Z)
    (training_mode : bool) (scheduler : option lr_scheduler) (e : Z) (w : W) :
  trains_with self opt b batch_size0 nb_epochs0 e ->
  (0 < pgd_batch_size self)%Z ->
  (forall seed ind, Permutation (random_shuffle clf seed ind) ind) ->
  let nb := num_batches self (List.length data) in
  exists w' inds,
    fit clf self data certification_loss batch_size0 nb_epochs0 training_mode
        scheduler w = (Return tt, w') /\
    List.length inds = Z.to_nat e /\
    attacked_rows (w_trace w')
    = attacked_rows (w_trace w)
      ++ flat_map (fun ind => map (rows_of self ind) (seq 0 nb)) inds /\
    Forall (fun ind =>
              Permutation ind (seq 0 (List.length data)) /\
              List.concat (map (rows_of self ind) (seq 0 nb)) = ind /\
              Forall (fun rows => rows <> []) (map (rows_of self ind) (seq 0 nb)))
           inds.
Proof.
  intros Ht Hpos Hperm nb.
  destruct (fit_follows_reference batch_size0 nb_epochs0 training_mode scheduler
              e w Ht) as ([] & w' & Erun & _ & Hr & _).
  cbv zeta in Hr. rewrite train_rows in Hr.
  destruct (epoch_indices_permute nb Hperm
              (map (epoch_bound (use_certification_schedule self) (bound self) e)
                   (seq 0 (Z.to_nat e)))
              (start data w)) as [Hlen Hall].
  exists w', (epoch_indices'
                (map (epoch_bound (use_certification_schedule self) (bound self) e)
                     (seq 0 (Z.to_nat e)))
                nb (start data w)).
  split; [exact Erun|]. split; [|split; [exact Hr|]].
  - now rewrite Hlen, length_map, length_seq.
  - eapply Forall_impl; [|exact Hall].
    cbn [start p_ind]. intros ind Hind. split; [exact Hind|].
    assert (Hn : List.length ind = List.length data).
    { rewrite (Permutation_length Hind). apply length_seq. }
    destruct (slices_partition ind (pgd_batch_size self) Hpos) as [Hcat Hne].
    rewrite Hn in Hcat, Hne. split; [exact Hcat|].
    apply Forall_forall. intros rows Hin.
    apply in_map_iff in Hin. destruct Hin as (m & <- & Hm).
    apply in_seq in Hm. apply Hne. unfold nb, num_batches in Hm. lia.
Qed.

End FitReference.

Section FitRamp.
Import AdversarialTrainerCertified Props Outline Reference.
Context {sample params optimizer zono_in zono user_schedule lr_scheduler : Type}.
Variable clf : certifier Q sample params optimizer zono_in zono.
Variable self : trainer Q sample optimizer zono_in user_schedule.
Variable opt : optimizer.
Variable data : list (sample * nat).
Variable certification_loss : certification_loss_t Q zono.
Variable b : Z.



End FitRamp.

(** ** The forward mode after [fit] *)

Section ForwardMode.
Import AdversarialTrainerCertified Props Outline.
Context {F : Type} `{Scalar F}.
Context {sample params optimizer zono_in zono user_schedule lr_scheduler : Type}.
Variable clf : certifier F sample params optimizer zono_in zono.
Variable self : trainer F sample optimizer zono_in user_schedule.

Local Abbreviation W := (world F params).
Local Abbreviation locals' := (@locals F sample).

Lemma last_forward_mode_app (t1 t2 : list (event F)) (before : option forward_mode) :
  last_forward_mode (t1 ++ t2) before
  = last_forward_mode t2 (last_forward_mode t1 before).
Proof.
  revert before. induction t1 as [|e t1 IH]; intros before; [reflexivity|].
  destruct e; cbn [app last_forward_mode]; apply IH.
Qed.

Lemma ends_concrete_app (c1 c2 : Prop) (e1 e2 : list (event F)) :
  ends_concrete c1 e1 -> ends_concrete c2 e2 -> ends_concrete (c1 \/ c2) (e1 ++ e2).
Proof.
  intros [S1 C1] [S2 C2]. split.
  - now rewrite last_forward_mode_app, S1.
  - intros [H1|H2] before; rewrite last_forward_mode_app.
    + now rewrite C1.
    + now apply C2.
Qed.

Lemma ends_concrete_weaken (c c' : Prop) (evs : list (event F)) :
  (c' -> c) -> ends_concrete c evs -> ends_concrete c' evs.
Proof. intros Hc [S C]. split; [exact S|]. intros Hc'. apply C. now apply Hc. Qed.

Lemma ends_concrete_nil : ends_concrete (F := F) False [].
Proof. split; [reflexivity|contradiction]. Qed.

Lemma after_ret {A : Type} (post : A -> Prop) (a : A) :
  post a -> after (F := F) (params := params) post (ends_concrete False) (ret a).
Proof.
  intros Hp w a' w' E. injection E as <- <-. split; [exact Hp|].
  exists []. split; [now rewrite app_nil_r|apply ends_concrete_nil].
Qed.

Lemma after_raise {A : Type} (post : A -> Prop) (Q : list (event F) -> Prop)
    (e : exn) :
  after (params := params) post Q (raise e).
Proof. intros w a w' E. discriminate. Qed.

Lemma after_bind {A B : Type} (P : A -> Prop) (Q : B -> Prop) (c1 c2 c : Prop)
    (m : M W A) (k : A -> M W B) :
  after P (ends_concrete c1) m ->
  (forall a, P a -> after Q (ends_concrete c2) (k a)) ->
  (c -> c1 \/ c2) ->
  after Q (ends_concrete c) (bind m k).
Proof.
  intros Hm Hk Hc w b w2 E. unfold bind in E.
  destruct (m w) as [[a|e] w1] eqn:Em; [|discriminate].
  destruct (Hm w a w1 Em) as (Hp & e1 & T1 & Q1).
  destruct (Hk a Hp w1 b w2 E) as (Hq & e2 & T2 & Q2).
  split; [exact Hq|]. exists (e1 ++ e2). split.
  - now rewrite T2, T1, app_assoc.
  - eapply ends_concrete_weaken; [exact Hc|]. now apply ends_concrete_app.
Qed.

Lemma after_weaken {A : Type} (P P' : A -> Prop) (c c' : Prop) (m : M W A) :
  (forall a, P a -> P' a) -> (c' -> c) ->
  after P (ends_concrete c) m -> after P' (ends_concrete c') m.
Proof.
  intros HP Hc Hm w a w' E. destruct (Hm w a w' E) as (Hp & evs & T & Q).
  split; [now apply HP|]. exists evs. split; [exact T|].
  eapply ends_concrete_weaken; [exact Hc|exact Q].
Qed.

Lemma after_log (e : event F) :
  not_a_mode e ->
  after (params := params) (fun _ => True) (ends_concrete False) (log e).
Proof.
  intros He w a w' E. injection E as <- <-. split; [exact I|].
  exists [e]. split; [reflexivity|]. split; [|contradiction].
  destruct e; try reflexivity. contradiction.
Qed.

Lemma after_set_concrete :
  after (F := F) (params := params) (fun _ => True) (ends_concrete True)
        (set_forward_mode concrete).
Proof.
  intros w a w' E. injection E as <- <-. split; [exact I|].
  exists [EvSetForwardMode concrete]. split; [reflexivity|]. now split.
Qed.

Lemma after_state {A : Type} (m : M W A) :
  (forall w, exists a w', m w = (Return a, w') /\ w_trace w' = w_trace w) ->
  after (fun _ => True) (ends_concrete False) m.
Proof.
  intros Hm w a w' E. destruct (Hm w) as (a0 & w0 & E0 & T0).
  rewrite E0 in E. injection E as <- <-. split; [exact I|].
  exists []. split; [now rewrite app_nil_r|apply ends_concrete_nil].
Qed.

Lemma after_certified_loop (certification_loss : certification_loss_t F zono)
    (bound0 : F) (batch_size0 : option Z) (i : nat) (xs : list (sample * nat))
    (acc : F * nat) (Q : list (event F) -> Prop) :
  (forall evs, Q evs) ->
  after (fun _ => True) Q
        (certified_loop clf self certification_loss bound0 batch_size0 i xs acc).
Proof.
  intros HQ w a w' E.
  destruct (inert_certified_loop clf self certification_loss bound0 batch_size0
              xs i acc w) as (evs & Es & _).
  rewrite E in Es. cbn [snd] in Es. subst w'. split; [exact I|].
  exists evs. split; [reflexivity|apply HQ].
Qed.

(** A batch that returns leaves the model in concrete mode. *)
Lemma after_batch_step (opt : optimizer) (data : list (sample * nat))
    (certification_loss : certification_loss_t F zono) (batch_size0 : option Z)
    (st : locals') (m : nat) :
  after (fun _ => True) (ends_concrete True)
        (batch_step clf self opt data certification_loss batch_size0 st m).
Proof.
  intros w a w' E. unfold batch_step in E.
  rewrite bind_log, bind_fresh_seed in E.
  destruct (l_bound st) as [bd|]; [|discriminate]. cbn [lookup] in E.
  rewrite bind_ret_l in E. unfold bind at 1 in E.
  match type of E with
  | context [certified_loop clf self ?cl ?b ?bs ?i ?xs ?acc ?w0] =>
      destruct (inert_certified_loop clf self cl b bs xs i acc w0)
        as (evs & Es & _);
      destruct (certified_loop clf self cl b bs i xs acc w0)
        as [[[certified_loss samples_certified]|e] w1]; [|discriminate]
  end.
  cbn [snd] in Es. subst w1.
  destruct batch_size0 as [b|]; [|discriminate].
  rewrite bind_ret_l in E. unfold set_forward_mode in E.
  rewrite bind_log, bind_get_params, bind_fresh_seed, bind_log, bind_log in E.
  destruct (b =? 0)%Z; [discriminate|].
  rewrite bind_ret_l, bind_log, bind_log in E.
  unfold bind, set_params, log, ret in E. cbn in E.
  injection E as <- <-. split; [exact I|]. cbn [w_trace].
  eexists. split.
  - rewrite <- !app_assoc. reflexivity.
  - split.
    + rewrite !last_forward_mode_app. reflexivity.
    + intros _ before. rewrite !last_forward_mode_app. reflexivity.
Qed.

Lemma after_batch_loop (opt : optimizer) (data : list (sample * nat))
    (certification_loss : certification_loss_t F zono) (batch_size0 : option Z)
    (ms : list nat) :
  forall st : locals',
    after (fun _ => True) (ends_concrete (ms <> []))
          (batch_loop clf self opt data certification_loss batch_size0 ms st).
Proof.
  induction ms as [|m ms IH]; intros st.
  - eapply after_weaken; [| |apply after_ret with (post := fun _ => True)];
      [auto|intros Hne; now apply Hne|exact I].
  - cbn [batch_loop].
    eapply after_bind; [apply after_batch_step|intros st' _; apply IH|].
    intros _. now left.
Qed.

Lemma after_epoch_step (opt : optimizer) (data : list (sample * nat))
    (certification_loss : certification_loss_t F zono) (batch_size0 : option Z)
    (num_batch : Z) (scheduler : option lr_scheduler) (st : locals') :
  after (fun _ => True) (ends_concrete (0 < num_batch)%Z)
        (epoch_step clf self opt data certification_loss batch_size0 num_batch
           scheduler st).
Proof.
  unfold epoch_step.
  eapply after_bind with (c1 := False) (P := fun _ => True); [| |intros Hc; right; exact Hc].
  - destruct (use_certification_schedule self);
      [|now apply after_ret].
    eapply after_bind with (c1 := False) (c2 := False) (P := fun _ => True);
      [|intros s _|tauto].
    + destruct (l_schedule st); [now apply after_ret|apply after_raise].
    + cbn [DLS.step].
      eapply after_bind with (c1 := False) (c2 := False);
        [now apply after_log|intros _ _; now apply after_ret|tauto].
  - intros st1 _.
    eapply after_bind with (c1 := False);
      [apply after_state; intros w; eexists _, _; split; reflexivity
      |intros seed _|intros Hc; right; exact Hc].
    eapply after_bind with (c1 := False);
      [now apply after_log|intros _ _|intros Hc; right; exact Hc].
    eapply after_bind with (c2 := False) (P := fun _ => True);
      [apply after_batch_loop|intros st3 _|].
    + eapply after_bind with (c1 := False) (c2 := False) (P := fun _ => True);
        [|intros _ _; now apply after_ret|tauto].
      destruct scheduler; [now apply after_log|now apply after_ret].
    + intros Hc. left. intros Hnil.
      apply (f_equal (@List.length nat)) in Hnil.
      rewrite length_seq in Hnil. cbn in Hnil. lia.
Qed.

Lemma after_epoch_loop (opt : optimizer) (data : list (sample * nat))
    (certification_loss : certification_loss_t F zono) (batch_size0 : option Z)
    (num_batch : Z) (scheduler : option lr_scheduler) (n : nat) :
  forall st : locals',
    after (fun _ => True) (ends_concrete ((0 < n)%nat /\ (0 < num_batch)%Z))
          (epoch_loop clf self opt data certification_loss batch_size0 num_batch
             scheduler n st).
Proof.
  induction n as [|n IH]; intros st.
  - eapply after_weaken; [| |apply after_ret with (post := fun _ => True)];
      [auto|intros [Hn _]; lia|exact I].
  - cbn [epoch_loop].
    eapply after_bind; [apply after_epoch_step|intros st' _; apply IH|].
    intros [_ Hnb]. now left.
Qed.

(** X13: whenever [fit] returns after running at least one batch (at least
    one epoch over a non-empty training set), the last forward mode the
    model was set to is the concrete one, so that [predict], which forwards
    to the model, computes concrete predictions. *)
Theorem fit_leaves_concrete_mode (data : list (sample * nat))
    (certification_loss : certification_loss_t F zono)
    (batch_size0 nb_epochs0 : option Z) (training_mode : bool)
    (scheduler : option lr_scheduler) (e : Z) (w w' : W) :
  fit clf self data certification_loss batch_size0 nb_epochs0 training_mode
      scheduler w = (Return tt, w') ->
  resolve_epochs self nb_epochs0 = Some e ->
  (0 < e)%Z ->
  (0 < pgd_batch_size self)%Z ->
  data <> [] ->
  last_forward_mode (w_trace w') None = Some concrete.
Proof.
  intros Erun He Hpos Hpgd Hdata.
  assert (Hnb : (0 < ceil_div (Z.of_nat (List.length data)) (pgd_batch_size self))%Z).
  { apply ceil_div_pos; [|exact Hpgd]. destruct data; [contradiction|].
    cbn [List.length]. lia. }
  assert (Hafter : after (fun _ => True) (ends_concrete True)
            (fit clf self data certification_loss batch_size0 nb_epochs0
                 training_mode scheduler)).
  { unfold fit. rewrite He. cbn [lookup].
    eapply after_bind with (c1 := False) (c2 := True);
      [now apply after_log|intros _ _|now right].
    destruct (_optimizer self) as [opt|]; [|apply after_raise].
    assert (Ep : (pgd_batch_size self =? 0)%Z = false) by (apply Z.eqb_neq; lia).
    rewrite Ep.
    eapply after_bind with (c1 := False)
      (P := fun nb => nb = ceil_div (Z.of_nat (List.length data))
                            (pgd_batch_size self));
      [now apply after_ret|intros nb ->|intros Hc; right; exact Hc].
    eapply after_bind with (c1 := False) (P := fun _ => True);
      [|intros s _|intros Hc; right; exact Hc].
    - destruct (use_certification_schedule self); [|now apply after_ret].
      destruct (certification_schedule self); [now apply after_ret|].
      eapply after_bind with (c1 := False) (c2 := False) (P := fun _ => True);
        [now apply after_ret|intros e' _|tauto].
      destruct (e' =? 0)%Z; [apply after_raise|now apply after_ret].
    - eapply after_bind with (c1 := False) (P := fun e' => e' = e);
        [now apply after_ret|intros e' ->|intros Hc; right; exact Hc].
      eapply after_bind with (c2 := False) (P := fun _ => True);
        [apply after_epoch_loop|intros _ _; now apply after_ret|].
      intros _. left. split; [lia|exact Hnb]. }
  destruct (Hafter w tt w' Erun) as (_ & evs & T & _ & C).
  rewrite T, last_forward_mode_app. now apply C.
Qed.

End ForwardMode.

(** ** The circular mask *)

Section MaskFacts.
Import AdversarialPatchTensorFlowV2 AdversarialPatchOverlay Props.
Local Open Scope Q_scope.

Lemma f_pow_nonneg (x : Q) (n : nat) : 0 <= x -> 0 <= f_pow x n.
Proof.
  intros Hx. induction n as [|n IH]; [discriminate|].
  cbn [f_pow f_mul Scalar_Q]. now apply Qmult_le_0_compat.
Qed.

Lemma f_pow_ge_1 (x : Q) (n : nat) : 1 <= x -> 1 <= f_pow x n.
Proof.
  intros Hx. induction n as [|n IH]; [apply Qle_refl|].
  cbn [f_pow f_mul Scalar_Q].
  apply Qle_trans with (1 * x); [now rewrite Qmult_1_l|].
  apply Qmult_le_compat_r; [exact IH|].
  apply Qle_trans with 1; [discriminate|exact Hx].
Qed.

Lemma f_pow_zero (x : Q) (n : nat) : x == 0 -> f_pow x (S n) == 0.
Proof.
  intros Hx. cbn [f_pow f_mul Scalar_Q].
  apply Qeq_trans with (f_pow x n * 0); [|ring].
  apply Qmult_comp; [reflexivity|exact Hx].
Qed.

Lemma f_pow_2 (x : Q) : f_pow x 2 == x * x.
Proof. cbn [f_pow f_mul f_one Scalar_Q]. ring. Qed.

Lemma square_sum_nonneg (x y : Q) : 0 <= f_add (f_pow x 2) (f_pow y 2).
Proof.
  cbn [f_add Scalar_Q]. rewrite !f_pow_2.
  assert (Hx : 0 <= x * x) by nra.
  assert (Hy : 0 <= y * y) by nra. lra.
Qed.


(** One entry of the mask lies between [0] and [1]. *)
Lemma mask_value_within (x y : Q) (s : nat) :
  within 0 1
    (f_sub f_one
       (np_clip (f_pow (f_add (f_pow x 2) (f_pow y 2)) s) (f_opp f_one) f_one)).
Proof.
  pose proof (f_pow_nonneg (f_add (f_pow x 2) (f_pow y 2)) s
                (square_sum_nonneg x y)) as Hz.
  set (z := f_pow (f_add (f_pow x 2) (f_pow y 2)) s) in *.
  unfold np_clip, f_min, f_max, within. cbn [f_leb f_sub f_one f_opp Scalar_Q].
  destruct (Qle_bool z (- (1))) eqn:E1.
  - apply Qle_bool_iff in E1. exfalso.
    assert (Hneg : - (1) < 0) by reflexivity. lra.
  - destruct (Qle_bool 1 z) eqn:E2.
    + split; discriminate.
    + apply Qle_bool_false in E2. split; lra.
Qed.

(** Where [x * x] or [y * y] reaches [1], the entry is [0]. *)
Lemma mask_value_zero (x y : Q) (s : nat) :
  1 <= x * x \/ 1 <= y * y ->
  f_sub f_one
    (np_clip (f_pow (f_add (f_pow x 2) (f_pow y 2)) s) (f_opp f_one) f_one) == 0.
Proof.
  intros Hxy.
  assert (Hb : 1 <= f_add (f_pow x 2) (f_pow y 2)).
  { cbn [f_add Scalar_Q]. rewrite !f_pow_2.
    assert (0 <= x * x) by nra. assert (0 <= y * y) by nra.
    destruct Hxy; lra. }
  pose proof (f_pow_ge_1 _ s Hb) as Hz.
  set (z := f_pow (f_add (f_pow x 2) (f_pow y 2)) s) in *.
  unfold np_clip, f_min, f_max. cbn [f_leb f_sub f_one f_opp Scalar_Q].
  destruct (Qle_bool z (- (1))) eqn:E1.
  - apply Qle_bool_iff in E1. exfalso.
    assert (Hneg : - (1) < 0) by reflexivity. lra.
  - destruct (Qle_bool 1 z) eqn:E2; [reflexivity|].
    apply Qle_bool_false in E2. lra.
Qed.

(** Where [x] and [y] are both [0], the entry is [1], for a sharpness of at
    least one. *)
Lemma mask_value_one (x y : Q) (s : nat) :
  x == 0 -> y == 0 ->
  f_sub f_one
    (np_clip (f_pow (f_add (f_pow x 2) (f_pow y 2)) (S s)) (f_opp f_one) f_one)
  == 1.
Proof.
  intros Hx Hy.
  assert (Hb : f_add (f_pow x 2) (f_pow y 2) == 0).
  { cbn [f_add Scalar_Q]. rewrite !f_pow_2, Hx, Hy. reflexivity. }
  pose proof (f_pow_zero _ s Hb) as Hz.
  set (z := f_pow (f_add (f_pow x 2) (f_pow y 2)) (S s)) in *.
  unfold np_clip, f_min, f_max. cbn [f_leb f_sub f_one f_opp Scalar_Q].
  destruct (Qle_bool z (- (1))) eqn:E1.
  - apply Qle_bool_iff in E1. exfalso. rewrite Hz in E1. revert E1.
    unfold Qle. simpl. lia.
  - destruct (Qle_bool 1 z) eqn:E2.
    + apply Qle_bool_iff in E2. exfalso. rewrite Hz in E2. revert E2.
      unfold Qle. simpl. lia.
    + rewrite Hz. reflexivity.
Qed.

Lemma In_broadcast_dim {A : Type} (a : A) (l : list A) (t0 : nat) :
  In a (broadcast_dim l t0) -> In a l.
Proof.
  unfold broadcast_dim. destruct (List.length l =? t0)%nat; [auto|].
  destruct l as [|b [|c l]]; auto.
  intros Hin. apply repeat_spec in Hin. subst. now left.
Qed.

(** X14: every entry of every mask that [_get_circular_patch_mask] returns
    lies between [0] and [1], for every image shape, number of images and
    sharpness. *)
Theorem circular_mask_within_unit_interval (image_shape0 : nat * nat * nat)
    (nb_images sharpness : nat) (masks : list (list (list (list Q)))) :
  _get_circular_patch_mask image_shape0 nb_images sharpness = Return masks ->
  Forall (Forall (Forall (Forall (within 0 1)))) masks.
Proof.
  destruct image_shape0 as [[height width] channels].
  unfold _get_circular_patch_mask.
  destruct (broadcastable height width); [|discriminate].
  intros E. injection E as <-. apply Forall_repeat.
  apply Forall_forall. intros row Hrow.
  apply in_map_iff in Hrow. destruct Hrow as (row0 & <- & Hrow0).
  apply Forall_forall. intros px Hpx.
  apply in_map_iff in Hpx. destruct Hpx as (m & <- & Hm).
  apply Forall_repeat. apply In_broadcast_dim in Hm.
  unfold mask_2d in Hrow0. apply in_map_iff in Hrow0.
  destruct Hrow0 as (yj & <- & _).
  apply in_map_iff in Hm. destruct Hm as (xi & <- & _).
  apply mask_value_within.
Qed.

Lemma linspace_first (n : nat) :
  exists rest,
    linspace (F := Q) (f_opp f_one) f_one (S (S n)) = (rest ++ [1]) /\
    exists x0 rest', rest = x0 :: rest' /\ x0 == - (1).
Proof.
  unfold linspace. eexists. split; [reflexivity|].
  cbn [seq map]. eexists _, _. split; [reflexivity|].
  cbn [f_add f_mul f_of_Z f_div f_sub f_one f_opp Scalar_Q Z.of_nat]. ring.
Qed.

(** X15: for an image of at least two rows, the mask is [0] all along the
    border of the image: in every entry of its first and last rows and in
    the first and last entry of each row, whatever the sharpness. *)
Theorem circular_mask_vanishes_on_border (n sharpness : nat) :
  let m := mask_2d (F := Q) (S (S n)) sharpness in
  Forall (fun v => v == 0) (hd [] m) /\
  Forall (fun v => v == 0) (last m []) /\
  Forall (fun row => hd 1 row == 0 /\ last row 1 == 0) m.
Proof.
  destruct (linspace_first n) as (rest & Elin & x0 & rest' & -> & Hx0).
  cbv zeta. unfold mask_2d. rewrite Elin.
  assert (Hm1 : 1 <= x0 * x0) by (rewrite Hx0; discriminate).
  assert (H11 : 1 <= 1 * 1) by discriminate.
  split; [|split].
  - cbn [app]. rewrite map_cons. cbn [hd]. apply Forall_forall. intros v Hv.
    apply in_map_iff in Hv. destruct Hv as (xi & <- & _).
    apply mask_value_zero. now right.
  - rewrite map_app. cbn [map]. rewrite last_last.
    apply Forall_forall. intros v Hv.
    apply in_map_iff in Hv. destruct Hv as (xi & <- & _).
    apply mask_value_zero. now right.
  - apply Forall_forall. intros row Hrow.
    apply in_map_iff in Hrow. destruct Hrow as (yj & <- & _). split.
    + cbn [app map hd]. apply mask_value_zero. now left.
    + rewrite map_app. cbn [map]. rewrite last_last.
      apply mask_value_zero. now left.
Qed.

Lemma linspace_nth (n i : nat) :
  (i <= n)%nat ->
  nth_error (linspace (F := Q) (f_opp f_one) f_one (S (S n))) i
  = Some (f_add (f_mul (f_of_Z (Z.of_nat i))
                       (f_div (f_sub f_one (f_opp f_one))
                              (f_of_Z (Z.of_nat (S n)))))
                (f_opp f_one)).
Proof.
  intros Hi. unfold linspace.
  rewrite nth_error_app1 by (rewrite length_map, length_seq; lia).
  rewrite nth_error_map, nth_error_seq.
  assert (E : (i <? S n)%nat = true) by (apply Nat.ltb_lt; lia).
  rewrite E. reflexivity.
Qed.

(** X16: for an image of [2 k + 1] rows with [k >= 1] and a sharpness of at
    least one, the mask is [1] at the centre pixel (row [k], column [k]). *)
Theorem circular_mask_is_one_at_centre (k sharpness : nat) :
  (1 <= k)%nat ->
  exists row v,
    nth_error (mask_2d (F := Q) (2 * k + 1) (S sharpness)) k = Some row /\
    nth_error row k = Some v /\
    v == 1.
Proof.
  intros Hk.
  replace (2 * k + 1)%nat with (S (S (2 * k - 1))) by lia.
  unfold mask_2d.
  assert (Hlin := linspace_nth (2 * k - 1) k ltac:(lia)).
  eexists _, _. split; [|split].
  - rewrite nth_error_map, Hlin. reflexivity.
  - rewrite nth_error_map, Hlin. reflexivity.
  - assert (H0 : f_add (f_mul (f_of_Z (Z.of_nat k))
                          (f_div (f_sub f_one (f_opp f_one))
                                 (f_of_Z (Z.of_nat (S (2 * k - 1))))))
                       (f_opp f_one) == 0).
    { cbn [f_add f_mul f_of_Z f_div f_sub f_one f_opp Scalar_Q].
      replace (Z.of_nat (S (2 * k - 1))) with (2 * Z.of_nat k)%Z by lia.
      rewrite inject_Z_mult. field.
      unfold Qeq. simpl. lia. }
    now apply mask_value_one.
Qed.

End MaskFacts.

(** ** The overlay of the patch *)

Section OverlayFacts.
Import AdversarialPatchTensorFlowV2 AdversarialPatchOverlay Props.
Local Open Scope Q_scope.
Variable pi : Q.
Variables cos sin : Q -> Q.

(** X17: the transform vector of an image, for a given non-zero scale [s]
    (as [apply_patch] passes it), is a rotation and scaling about the centre
    of the image followed by a shift: the point it sends the centre
    [(x_origin, y_origin)] to is the centre displaced by
    [(x_shift, y_shift) / (2 s)], whatever the rotation; and for [s = 1]
    both shifts are zero, so that the centre stays in place. *)
Theorem transform_vector_is_about_the_centre (p : overlay_params (F := Q))
    (image_shape0 : nat * nat * nat) (s : Q) (u : draws (F := Q)) :
  ~ s == 0 ->
  let v := transform_vector pi cos sin p image_shape0 (Some s) u in
  let x_origin := inject_Z (Z.of_nat (fst (fst image_shape0))) / 2 in
  let y_origin := inject_Z (Z.of_nat (snd (fst image_shape0))) / 2 in
  let pad := (1 - s) * inject_Z (Z.of_nat (fst (fst image_shape0))) in
  let x_shift := uniform (- pad) pad (snd (fst (fst u))) in
  let y_shift := uniform (- pad) pad (snd (fst u)) in
  List.length v = 8%nat /\
  nth 0 v 0 * x_origin + nth 1 v 0 * y_origin + nth 2 v 0
  == x_origin - x_shift / (2 * s) /\
  nth 3 v 0 * x_origin + nth 4 v 0 * y_origin + nth 5 v 0
  == y_origin - y_shift / (2 * s) /\
  (s == 1 -> x_shift == 0 /\ y_shift == 0).
Proof.
  intros Hs. destruct u as [[[u_scale u_x] u_y] u_phi].
  cbv zeta. unfold transform_vector, uniform.
  cbn [nth fst snd List.length f_add f_sub f_mul f_div f_opp f_one f_zero f_of_Z
       Scalar_Q].
  set (c := cos _). set (sn := sin _).
  split; [reflexivity|]. split; [|split].
  - field. exact Hs.
  - field. exact Hs.
  - intros H1. split; rewrite H1; ring.
Qed.

End OverlayFacts.

(** ** [generate] and the training steps *)

Section GenerateFacts.
Import AdversarialPatchTensorFlowV2 AdversarialPatchOverlay Props.
Context {F : Type} `{Scalar F}.
Context {image label defence : Type}.
Variable shuffle_dataset : nat -> list (image * label) -> list (image * label).

Local Abbreviation attack := (t F (list image) (list label) defence).

Variable train_step_error : attack -> list image -> list label -> option exn.

Lemma mask_outcome (shape : nat * nat * nat) (nb_images sharpness : nat) :
  if broadcastable (fst (fst shape)) (snd (fst shape))
  then exists masks,
         _get_circular_patch_mask (F := F) shape nb_images sharpness = Return masks
  else exists msg,
         _get_circular_patch_mask (F := F) shape nb_images sharpness
         = Raise (ValueError msg).
Proof.
  destruct shape as [[height width] channels]. cbn [fst snd].
  unfold _get_circular_patch_mask.
  destruct (broadcastable height width); eexists; reflexivity.
Qed.

Lemma train_calls_no_reset (ds : list (list image * list label)) :
  forall (i : nat) (v : F),
    ~ In (ResetPatch v)
         (train_calls (F := F) (image := image) (label := label) i ds).
Proof.
  induction ds as [|[im tg] ds IH]; intros i v; [intros []|].
  cbn [train_calls]. intros [Hv|Hv]; [discriminate|exact (IH _ _ Hv)].
Qed.

(** A loop that returns has made the training steps of the first [max_iter]
    batches, one after the other. *)
Lemma generate_steps_calls (ds : list (list image * list label)) :
  forall (a a' : attack) (i : nat),
    generate_steps train_step_error a i ds = Return a' ->
    a' = do_calls a (train_calls i (firstn (max_iter a - i) ds)).
Proof.
  induction ds as [|[im tg] ds IH]; intros a a' i E.
  - rewrite firstn_nil. cbn in E. now injection E as <-.
  - cbn [generate_steps] in E. destruct (max_iter a <=? i)%nat eqn:Ei.
    + apply Nat.leb_le in Ei. replace (max_iter a - i)%nat with O by lia.
      now injection E as <-.
    + apply Nat.leb_gt in Ei.
      replace (max_iter a - i)%nat with (S (max_iter a - S i)) by lia.
      destruct (_get_circular_patch_mask _ _ _) as [masks|e]; [|discriminate].
      destruct (train_step_error a im tg) as [e|]; [discriminate|].
      cbn [firstn train_calls do_calls fold_left do_call].
      apply IH in E. exact E.
Qed.

(** The loop returns when the mask can be built and no step raises. *)
Lemma generate_steps_returns (ds : list (list image * list label)) :
  (forall a im tg, train_step_error a im tg = None) ->
  forall (a : attack) (i : nat),
    broadcastable (fst (fst (image_shape a))) (snd (fst (image_shape a))) = true ->
    exists a', generate_steps train_step_error a i ds = Return a'.
Proof.
  intros Hok. induction ds as [|[im tg] ds IH]; intros a i Hb.
  - eexists. reflexivity.
  - cbn [generate_steps]. destruct (max_iter a <=? i)%nat; [eexists; reflexivity|].
    pose proof (mask_outcome (image_shape a) (List.length im) 40) as Hm.
    rewrite Hb in Hm. destruct Hm as [masks ->]. rewrite Hok.
    apply IH. exact Hb.
Qed.

(** Without a mask the loop raises [ValueError] at its first step, or makes
    no step at all. *)
Lemma generate_steps_without_mask (ds : list (list image * list label))
    (a : attack) (i : nat) :
  broadcastable (fst (fst (image_shape a))) (snd (fst (image_shape a))) = false ->
  generate_steps train_step_error a i ds = Return a \/
  exists msg, generate_steps train_step_error a i ds = Raise (ValueError msg).
Proof.
  intros Hb. destruct ds as [|[im tg] ds]; [now left|].
  cbn [generate_steps]. destruct (max_iter a <=? i)%nat; [now left|].
  pose proof (mask_outcome (image_shape a) (List.length im) 40) as Hm.
  rewrite Hb in Hm. destruct Hm as [msg ->]. right. now exists msg.
Qed.

Lemma do_calls_train_image_shape (ds : list (list image * list label)) :
  forall (a : attack) (i : nat),
    image_shape (do_calls a (train_calls i ds)) = image_shape a.
Proof.
  induction ds as [|[im tg] ds IH]; intros a i; [reflexivity|].
  cbn [train_calls do_calls fold_left do_call].
  change (fold_left do_call ?cs ?b) with (do_calls b cs). now rewrite IH.
Qed.

Lemma do_calls_train_targeted (ds : list (list image * list label)) :
  forall (a : attack) (i : nat),
    ds <> [] -> targeted (do_calls a (train_calls i ds)) = Some true.
Proof.
  induction ds as [|[im tg] ds IH]; intros a i Hne; [contradiction|].
  cbn [train_calls do_calls fold_left do_call].
  destruct ds as [|x ds]; [reflexivity|].
  change (fold_left do_call ?cs ?b) with (do_calls b cs).
  apply IH. discriminate.
Qed.

Lemma length_flat_map_const {A B : Type} (f : A -> list B) (c : nat) (l : list A) :
  (forall a, List.length (f a) = c) ->
  List.length (flat_map f l) = (List.length l * c)%nat.
Proof.
  intros Hf. induction l as [|a l IH]; [reflexivity|].
  cbn [flat_map List.length]. now rewrite length_app, Hf, IH.
Qed.

Lemma flat_map_map {A B C : Type} (f : B -> C) (g : A -> list B) (l : list A) :
  flat_map (fun a => map f (g a)) l = map f (flat_map g l).
Proof.
  induction l as [|a l IH]; [reflexivity|].
  cbn [flat_map]. now rewrite map_app, IH.
Qed.

(** The batches of a non-empty list are non-empty slices of it. *)
Lemma batch_slices {A : Type} (batch_size : positive) (xs : list A) (b : list A) :
  In b (batch (Pos.to_nat batch_size) xs) ->
  b <> [] /\
  exists m,
    (m < Z.to_nat (ceil_div (Z.of_nat (List.length xs)) (Z.pos batch_size)))%nat /\
    b = slice xs (m * Pos.to_nat batch_size) (Pos.to_nat batch_size).
Proof.
  unfold batch. rewrite positive_nat_Z. intros Hb. apply in_map_iff in Hb.
  destruct Hb as (m & <- & Hm). apply in_seq in Hm.
  split; [|exists m; split; [lia|reflexivity]].
  destruct (ceil_div_bounds (Z.of_nat (List.length xs)) (Z.pos batch_size)
              ltac:(lia)) as [_ Hlow].
  intros Hnil. apply (f_equal (@List.length _)) in Hnil. unfold slice in Hnil.
  rewrite length_firstn, length_skipn in Hnil. cbn [List.length] in Hnil. nia.
Qed.

(** The batches [generate] trains on: the first [max_iter] batches of the
    repeated dataset. *)
Lemma dataset_batches (max_iter0 : nat) (batch_size : positive)
    (xy : list (image * label)) (shuffle : bool) :
  xy <> [] ->
  (forall r l, List.length (shuffle_dataset r l) = List.length l) ->
  let B := Pos.to_nat batch_size in
  let nb := Z.to_nat (ceil_div (Z.of_nat (List.length xy)) (Z.pos batch_size)) in
  exists batches : list (list (image * label)),
    dataset shuffle_dataset max_iter0 batch_size (List.length xy) xy shuffle
    = Return (map (fun b => (map fst b, map snd b)) batches) /\
    List.length batches
    = (repetitions max_iter0 batch_size (List.length xy) * nb)%nat /\
    Forall (fun b =>
              b <> [] /\
              exists r m,
                (m < nb)%nat /\
                b = slice (if shuffle then shuffle_dataset r xy else xy) (m * B) B)
           batches.
Proof.
  intros Hxy Hlen B nb. unfold dataset.
  destruct (List.length xy =? 0)%nat eqn:E.
  { apply Nat.eqb_eq in E. destruct xy; [contradiction|discriminate]. }
  rewrite flat_map_map. eexists. split; [reflexivity|]. split.
  - rewrite (length_flat_map_const _ nb), length_seq; [reflexivity|].
    intros r. unfold batch. rewrite length_map, length_seq, positive_nat_Z.
    destruct shuffle; [now rewrite Hlen|reflexivity].
  - apply Forall_forall. intros b Hb. apply in_flat_map in Hb.
    destruct Hb as (r & _ & Hb). apply batch_slices in Hb.
    destruct Hb as (Hne & m & Hm & ->). split; [exact Hne|].
    exists r, m. split; [|reflexivity].
    replace (List.length (if shuffle then shuffle_dataset r xy else xy))
      with (List.length xy) in Hm
      by (destruct shuffle; [now rewrite Hlen|reflexivity]).
    exact Hm.
Qed.

Lemma Forall_firstn_of {A : Type} (P : A -> Prop) (n : nat) (l : list A) :
  Forall P l -> Forall P (firstn n l).
Proof.
  intros Hl. revert n. induction Hl as [|a l Ha Hl IH]; intros [|n];
    cbn [firstn]; constructor; [exact Ha|apply IH].
Qed.

(** X19: on a non-empty data set, an image shape the mask can be built for
    and training steps in which TensorFlow raises nothing, [generate]
    returns, and it has made one training step per batch on the first
    [max_iter] batches of the dataset (all of them when the dataset has
    fewer): step [i] is made on batch [i], every batch is a non-empty slice
    [data[m * batch_size : (m + 1) * batch_size]] of the (shuffled) data,
    the images and the labels of a step come from the same slice, every
    step is targeted at the labels of its batch, and the patch returned is
    the patch of the attack after these steps. *)
Theorem generate_trains_on_batches (self : attack) (batch_size : positive)
    (xy : list (image * label)) (shuffle : bool) :
  xy <> [] ->
  (forall r l, List.length (shuffle_dataset r l) = List.length l) ->
  broadcastable (fst (fst (image_shape self))) (snd (fst (image_shape self))) = true ->
  (forall a im tg, train_step_error a im tg = None) ->
  let B := Pos.to_nat batch_size in
  let nb := Z.to_nat (ceil_div (Z.of_nat (List.length xy)) (Z.pos batch_size)) in
  exists self' mask batches,
    generate shuffle_dataset train_step_error self batch_size xy shuffle
    = Return (self', (value (_patch self'), mask)) /\
    self' = do_calls self
              (train_calls 0 (map (fun b => (map fst b, map snd b)) batches)) /\
    List.length batches
    = Nat.min (max_iter self)
              (repetitions (max_iter self) batch_size (List.length xy) * nb) /\
    Forall (fun b =>
              b <> [] /\
              exists r m,
                (m < nb)%nat /\
                b = slice (if shuffle then shuffle_dataset r xy else xy) (m * B) B)
           batches /\
    (batches <> [] -> targeted self' = Some true).
Proof.
  intros Hxy Hlen Hb Hok B nb. unfold generate.
  destruct (dataset_batches (max_iter self) batch_size xy shuffle Hxy Hlen)
    as (batches & -> & Hn & Hall).
  destruct (generate_steps_returns
              (map (fun b => (map fst b, map snd b)) batches) Hok self 0 Hb)
    as [self' E].
  rewrite E. apply generate_steps_calls in E.
  rewrite Nat.sub_0_r, firstn_map in E.
  assert (Hshape : image_shape self' = image_shape self)
    by (rewrite E; apply do_calls_train_image_shape).
  pose proof (mask_outcome (image_shape self) 1 40) as Hm.
  rewrite Hb in Hm. destruct Hm as [masks Hm]. rewrite Hshape, Hm.
  exists self', (hd [] masks), (firstn (max_iter self) batches).
  split; [reflexivity|]. split; [exact E|]. split; [|split].
  - rewrite length_firstn. fold nb in Hn. now rewrite Hn.
  - apply Forall_firstn_of. exact Hall.
  - intros Hne. rewrite E. apply do_calls_train_targeted.
    intros Hnil. apply map_eq_nil in Hnil. contradiction.
Qed.

(** X20: two calls of [generate] that raise.  On an empty data set the
    number of repetitions divides by zero ([ZeroDivisionError], even with
    [max_iter = 0]); on a non-empty data set and an image shape that is
    neither square nor one pixel high, the broadcast of the mask raises
    [ValueError], in the first training step or, when no step is made, in
    the mask the call returns. *)
Theorem generate_raises (self : attack) (batch_size : positive)
    (xy : list (image * label)) (shuffle : bool) :
  (xy = [] ->
   generate shuffle_dataset train_step_error self batch_size xy shuffle
   = Raise ZeroDivisionError) /\
  (xy <> [] ->
   broadcastable (fst (fst (image_shape self))) (snd (fst (image_shape self)))
   = false ->
   exists msg,
     generate shuffle_dataset train_step_error self batch_size xy shuffle
     = Raise (ValueError msg)).
Proof.
  split.
  - intros ->. reflexivity.
  - intros Hxy Hb. unfold generate, dataset.
    destruct (List.length xy =? 0)%nat eqn:E.
    { apply Nat.eqb_eq in E. destruct xy; [contradiction|discriminate]. }
    destruct (generate_steps_without_mask
                (flat_map
                   (fun r =>
                      map (fun b => (map fst b, map snd b))
                          (batch (Pos.to_nat batch_size)
                                 (if shuffle then shuffle_dataset r xy else xy)))
                   (seq 0 (repetitions (max_iter self) batch_size (List.length xy))))
                self 0 Hb) as [->|[msg ->]].
    + pose proof (mask_outcome (image_shape self) 1 40) as Hm.
      rewrite Hb in Hm. destruct Hm as [msg ->]. now exists msg.
    + now exists msg.
Qed.

End GenerateFacts.

Section PatchMore.
Import AdversarialPatchTensorFlowV2 AdversarialPatchOverlay Props.

(** X21: the checks of [__init__], in the order the code makes them.  An
    image without one or three channels fails the first assertion; then a
    missing patch shape raises [TypeError]; then a patch without one or
    three channels fails the second assertion; then a patch that is not
    square fails the third.  An attack that is returned has passed all of
    them, and holds the classifier, the shapes and the parameters it was
    given, a patch with one entry per pixel and channel, and no [targeted]
    flag yet. *)
Theorem init_checks_in_order {F : Type} `{Scalar F} {images target defence : Type}
    (classifier : classifier_t F images target defence)
    (learning_rate0 : F) (max_iter0 : nat) (shape : option (nat * nat * nat)) :
  let channels := snd (input_shape classifier) in
  let init0 := init classifier learning_rate0 max_iter0 shape in
  (in_1_3 channels = false ->
   init0 = Raise (AssertionError "Color channel need to be in last dimension")) /\
  (in_1_3 channels = true -> shape = None -> init0 = Raise TypeError) /\
  (forall w h c,
     in_1_3 channels = true -> shape = Some (w, h, c) -> in_1_3 c = false ->
     init0 = Raise (AssertionError "Color channel need to be in last dimension")) /\
  (forall w h c,
     in_1_3 channels = true -> shape = Some (w, h, c) -> in_1_3 c = true ->
     w <> h ->
     init0 = Raise (AssertionError "Patch height and width need to be the same.")) /\
  (forall a,
     init0 = Return a ->
     in_1_3 channels = true /\
     exists w c,
       shape = Some (w, w, c) /\ in_1_3 c = true /\
       estimator a = classifier /\ learning_rate a = learning_rate0 /\
       max_iter a = max_iter0 /\ patch_shape a = (w, w, c) /\
       image_shape a = input_shape classifier /\ targeted a = None /\
       List.length (value (_patch a)) = (w * w * c)%nat).
Proof.
  cbv zeta. unfold init. repeat split.
  - intros ->. reflexivity.
  - intros -> ->. reflexivity.
  - intros w h c -> -> Hc. cbn [assert and_then fst snd]. rewrite Hc. reflexivity.
  - intros w h c -> -> Hc Hwh. cbn [assert and_then fst snd]. rewrite Hc.
    apply Nat.eqb_neq in Hwh. cbn [assert and_then]. rewrite Hwh. reflexivity.
  - destruct (in_1_3 (snd (input_shape classifier))); [reflexivity|discriminate].
  - destruct (in_1_3 (snd (input_shape classifier))); [|discriminate].
    cbn [assert and_then] in H0.
    destruct shape as [[[w h] c]|]; [|discriminate]. cbn [fst snd] in H0.
    destruct (in_1_3 c) eqn:Ec; [|discriminate]. cbn [assert and_then] in H0.
    destruct (w =? h)%nat eqn:Ewh; [|discriminate].
    apply Nat.eqb_eq in Ewh. subst h.
    rewrite postprocessing_assertion_always_passes in H0.
    cbn [assert and_then] in H0. injection H0 as <-.
    exists w, c. cbn [estimator learning_rate max_iter patch_shape image_shape
                      targeted _patch].
    repeat split; try reflexivity; try exact Ec.
    unfold tf_Variable. cbn [value]. rewrite length_map.
    unfold scale, ones. rewrite length_map, repeat_length. reflexivity.
Qed.

Section OverQ.
Context {images target defence : Type}.
Local Open Scope Q_scope.

Lemma clip_of_within (lo hi x x' : Q) :
  within lo hi x -> x' == x -> f_max (f_min x' hi) lo == x.
Proof.
  intros [Hlo Hhi] E. unfold f_max, f_min. cbn [f_leb Scalar_Q].
  destruct (Qle_bool x' hi) eqn:E1.
  - destruct (Qle_bool x' lo) eqn:E2; [|exact E].
    apply Qle_bool_iff in E2. apply Qle_antisym; [exact Hlo|].
    now rewrite <- E.
  - apply Qle_bool_false in E1. exfalso. rewrite E in E1. lra.
Qed.

Lemma zero_gradient_update (lr lo hi : Q) (patch : tensor Q) :
  forall g : tensor Q,
    List.length g = List.length patch ->
    Forall (fun x => x == 0) g ->
    Forall (within lo hi) patch ->
    Forall2 Qeq
      (clip_by_value
         (map (fun pg => f_sub (fst pg) (f_mul lr (snd pg))) (combine patch g))
         lo hi)
      patch.
Proof.
  induction patch as [|p patch IH]; intros g Hlen Hg Hin; [constructor|].
  destruct g as [|g0 g]; [discriminate|].
  inversion Hg; subst. inversion Hin; subst.
  cbn [combine map clip_by_value]. constructor.
  - apply clip_of_within; [assumption|].
    cbn [fst snd f_sub f_mul Scalar_Q].
    match goal with Hz : g0 == 0 |- _ => rewrite Hz end. ring.
  - apply IH; [cbn in Hlen; lia|assumption|assumption].
Qed.

(** X22: a training step whose gradient is zero in every entry leaves a
    patch that lies within the clip values (as the [float32] numbers the
    projection clips to) as it is, targeted or not: the projection is the
    identity within the bounds. *)
Theorem zero_gradient_step_keeps_patch (a : t Q images target defence)
    (seed : nat) (images0 : images) (target0 : option target) (lo hi : Q) :
  clipped_to_classifier a ->
  clip_values (estimator a) = (lo, hi) ->
  Forall (within (round_float32 lo) (round_float32 hi)) (value (_patch a)) ->
  (forall tg,
     List.length (gradient (estimator a) (value (_patch a)) seed images0 tg)
     = List.length (value (_patch a)) /\
     Forall (fun x => x == 0)
            (gradient (estimator a) (value (_patch a)) seed images0 tg)) ->
  Forall2 Qeq (value (_patch (snd (_train_step a seed images0 target0))))
              (value (_patch a)).
Proof.
  unfold clipped_to_classifier. intros Hc Hclip Hin Hg.
  rewrite Hclip in Hc. cbn [fst snd] in Hc.
  destruct target0 as [tg|]; cbn [_train_step snd _patch negb map combine hd
                                  apply_gradients]; rewrite Hc;
    cbn [assign value].
  - destruct (Hg tg) as [Hlen Hz]. now apply zero_gradient_update.
  - destruct (Hg (predict (estimator a) images0)) as [Hlen Hz].
    apply zero_gradient_update; [now rewrite length_map| |exact Hin].
    apply Forall_forall. intros x Hx. apply in_map_iff in Hx.
    destruct Hx as (y & <- & Hy). rewrite Forall_forall in Hz.
    cbn [f_opp Scalar_Q]. rewrite (Hz y Hy). reflexivity.
Qed.

(** X23: the patch [generate] returns lies within the clip values of the
    classifier (as the [float32] numbers the patch variable is compared
    with), for an attack built by [__init__] on clip values that are in
    order. *)
Theorem generate_patch_within_clip_bounds {image label : Type}
    (shuffle_dataset : nat -> list (image * label) -> list (image * label))
    (train_step_error :
       t Q (list image) (list label) defence -> list image -> list label
       -> option exn)
    (classifier : classifier_t Q (list image) (list label) defence)
    (lr : Q) (mi : nat) (shape : option (nat * nat * nat))
    (a a' : t Q (list image) (list label) defence)
    (batch_size : positive) (xy : list (image * label)) (shuffle : bool)
    (patch : tensor Q) (mask : list (list (list Q))) :
  fst (clip_values classifier) <= snd (clip_values classifier) ->
  init classifier lr mi shape = Return a ->
  generate shuffle_dataset train_step_error a batch_size xy shuffle
  = Return (a', (patch, mask)) ->
  Forall (within (round_float32 (fst (clip_values classifier)))
                 (round_float32 (snd (clip_values classifier))))
         patch.
Proof.
  intros Hlh Hinit Hgen.
  destruct (init_clipped classifier lr mi shape a Hinit)
    as (Hc & Hf & Hest & n & Hval).
  unfold generate in Hgen.
  destruct (dataset _ _ _ _ _ _) as [ds|e]; [|discriminate].
  destruct (generate_steps _ _ _ _) as [a1|e] eqn:Esteps; [|discriminate].
  destruct (_get_circular_patch_mask _ _ _) as [masks|e]; [|discriminate].
  injection Hgen as <- <- _.
  apply generate_steps_calls in Esteps. rewrite Esteps.
  apply (do_calls_within (fst (clip_values classifier))
           (snd (clip_values classifier)) _ (round_float32_mono _ _ Hlh)).
  - intros v Hv. exfalso. exact (train_calls_no_reset _ _ _ Hv).
  - exact Hc.
  - exact Hf.
  - rewrite Hest. now destruct (clip_values classifier).
  - rewrite Hval. apply Forall_repeat. now apply midpoint_within.
Qed.

End OverQ.
End PatchMore.

(** ** The properties above on concrete inputs *)

Section MoreRuns.
Import AdversarialTrainerCertified Props Outline Fixture Fixture2.
Local Open Scope Q_scope.

(** Discharge [trains] on a concrete trainer. *)
Ltac prove_trains :=
  split; [discriminate|];
  split; [reflexivity|];
  split; [discriminate|];
  split; [reflexivity|];
  split; [intros _; discriminate|];
  right; split; [reflexivity|];
  eexists; split; [reflexivity|discriminate].

(** Discharge [trains_with] on a concrete trainer. *)
Ltac prove_trains_with :=
  repeat split;
  first [reflexivity | discriminate | lia | intros _; discriminate].


Lemma fit_steps_lr_scheduler_once_per_epoch_witness :
  exists w',
    fit clf trainer_pgd_2 data interval_loss_cce_name None (Some 2%Z) true
        (Some tt) w0 = (Return tt, w') /\
    epochs_begun (w_trace w') = 2%nat /\
    lr_scheduler_steps (w_trace w') = 2%nat.
Proof.
  destruct (fit_steps_lr_scheduler_once_per_epoch clf trainer_pgd_2 data
              interval_loss_cce_name None (Some 2%Z) true (Some tt) 2%Z w0)
    as (w' & E & He & Hl & _); [prove_trains|].
  exists w'. split; [exact E|]. rewrite He, Hl. split; reflexivity.
Defined.



(** With a shuffle that leaves the indices in place, each of the two epochs
    attacks a permutation of the three rows. *)
Lemma pgd_batches_partition_indices_witness :
  exists w' inds,
    fit clf trainer_pgd_2 data interval_loss_cce_name None (Some 2%Z) true
        (@None unit) w0 = (Return tt, w') /\
    List.length inds = 2%nat /\
    Reference.attacked_rows (w_trace w')
    = flat_map (fun ind => [slice ind 0 2; slice ind 2 2]) inds /\
    Forall (fun ind => Permutation ind [0; 1; 2]%nat) inds.
Proof.
  destruct (pgd_batches_partition_indices clf trainer_pgd_2 tt data
              interval_loss_cce_name 10%Z None (Some 2%Z) true (@None unit)
              2%Z w0)
    as (w' & inds & E & Hlen & Hr & Hall);
    [prove_trains_with|reflexivity|intros seed ind; apply Permutation_refl|].
  exists w', inds. split; [exact E|]. split; [exact Hlen|]. split; [exact Hr|].
  eapply Forall_impl; [|exact Hall]. intros ind [Hperm _]. exact Hperm.
Defined.

Lemma fit_without_epochs_raises_witness :
  fit clf trainer_no_batch_size data interval_loss_cce_name (Some 10%Z) None true
      (@None unit) w0
  = (Raise (UnboundLocalError "epochs"), mkWorld 0%nat 0%nat [EvModelTrain true]).
Proof.
  apply (fit_without_epochs_raises clf trainer_no_batch_size data
           interval_loss_cce_name (Some 10%Z) true (@None unit) w0);
    [discriminate|reflexivity|discriminate].
Defined.

Lemma fit_pgd_batch_size_zero_raises_witness :
  fit clf trainer_pgd_0 data interval_loss_cce_name None None true (@None unit) w0
  = (Raise ZeroDivisionError, mkWorld 0%nat 0%nat [EvModelTrain true]).
Proof.
  apply (fit_pgd_batch_size_zero_raises clf trainer_pgd_0 data
           interval_loss_cce_name None None true (@None unit) w0);
    [discriminate|reflexivity].
Defined.

Lemma fit_zero_epochs_witness :
  fit clf default_trainer data interval_loss_cce_name None (Some 0%Z) true
      (@None unit) w0
  = (Raise ZeroDivisionError, mkWorld 0%nat 0%nat [EvModelTrain true]) /\
  fit clf trainer_no_schedule data interval_loss_cce_name None (Some 0%Z) true
      (@None unit) w0
  = (Return tt, mkWorld 0%nat 0%nat [EvModelTrain true]).
Proof.
  split.
  - apply (fit_zero_epochs clf default_trainer data interval_loss_cce_name None
             true (@None unit) w0); [discriminate|discriminate|reflexivity].
  - apply (fit_zero_epochs clf trainer_no_schedule data interval_loss_cce_name
             None true (@None unit) w0); [discriminate|discriminate|reflexivity].
Defined.

Lemma fit_with_conversion_function_raises_witness :
  exists w',
    fit clf trainer_with_conversion data interval_loss_cce_name None (Some 2%Z)
        true (@None unit) w0
    = (Raise (UnboundLocalError "eps_bound"), w') /\
    w_params w' = 0%nat /\
    w_trace w'
    = [EvModelTrain true; EvCertificationScheduleStep (0 + (1 # 10) / 2);
       EvRandomShuffle; EvZeroGrad;
       EvSetForwardMode concrete; EvSetForwardMode abstract].
Proof.
  destruct (fit_with_conversion_function_raises clf trainer_with_conversion data
              interval_loss_cce_name None (Some 2%Z) true (@None unit) w0
              (fun s b => (s, b)) 2%Z) as (w' & E & Hp & Ht);
    try reflexivity; try discriminate.
  - intros seed xs Hxs. exact Hxs.
  - exists w'. split; [exact E|]. rewrite Hp, Ht. split; reflexivity.
Defined.

Lemma fit_batch_size_zero_raises_witness :
  exists w',
    fit clf default_trainer data interval_loss_cce_name (Some 0%Z) (Some 2%Z)
        true (@None unit) w0
    = (Raise ZeroDivisionError, w') /\
    w_params w' = 0%nat /\
    outline (w_trace w')
    = [MModelTrain true; MScheduleStep (0 + (1 # 10) / 2); MShuffle; MZeroGrad].
Proof.
  destruct (fit_batch_size_zero_raises clf default_trainer data
              interval_loss_cce_name (Some 0%Z) (Some 2%Z) true (@None unit) w0 2%Z)
    as (w' & E & Hp & Ht);
    try reflexivity; try discriminate.
  - intros seed xs Hxs. exact Hxs.
  - exists w'. split; [exact E|]. rewrite Hp, Ht. split; reflexivity.
Defined.

(** With a batch size of two, the first two of the three samples. *)
Lemma certified_loop_visits_batch_size_witness :
  exists certified' w',
    certified_loop clf default_trainer interval_loss_cce_name (1 # 10)
      (Some 2%Z) 0 data (0, 0%nat) w0
    = (Return (0 + 1 + 1, certified'), w') /\
    (certified' <= 2)%nat.
Proof.
  destruct (certified_loop_visits_batch_size clf default_trainer
              interval_loss_cce_name (1 # 10) 2%Z data 0 0%nat w0 eq_refl)
    as (c' & w' & E & _ & Hle); [lia|].
  exists c', w'. split; [exact E|]. cbn in Hle. lia.
Defined.

Lemma fit_leaves_concrete_mode_witness :
  last_forward_mode
    (w_trace (snd (fit clf trainer_pgd_2 data interval_loss_cce_name None
                       (Some 1%Z) true (@None unit) w0)))
    None
  = Some concrete.
Proof.
  apply (fit_leaves_concrete_mode clf trainer_pgd_2 data interval_loss_cce_name
           None (Some 1%Z) true (@None unit) 1%Z w0);
    [vm_compute; reflexivity|reflexivity|reflexivity|reflexivity|discriminate].
Defined.

End MoreRuns.

Section MorePatchRuns.
Import AdversarialPatchTensorFlowV2 AdversarialPatchOverlay Props Fixture Fixture3.
Local Open Scope Q_scope.

Lemma circular_mask_within_unit_interval_witness :
  exists masks,
    _get_circular_patch_mask (F := Q) (3, 3, 1)%nat 1 40 = Return masks /\
    Forall (Forall (Forall (Forall (within 0 1)))) masks.
Proof.
  eexists. split; [reflexivity|].
  apply (circular_mask_within_unit_interval (3, 3, 1)%nat 1 40). reflexivity.
Defined.

Lemma circular_mask_is_one_at_centre_witness :
  exists row v,
    nth_error (mask_2d (F := Q) 3 40) 1 = Some row /\
    nth_error row 1 = Some v /\
    v == 1.
Proof. apply (circular_mask_is_one_at_centre 1 39). lia. Defined.

(** At scale one, with a rotation whose cosine and sine are [3/5] and
    [4/5], the centre [(1, 1)] of a [2 x 2] image stays in place. *)
Lemma transform_vector_is_about_the_centre_witness :
  let v := transform_vector 3 (fun _ => 3 # 5) (fun _ => 4 # 5) overlay
             (2, 2, 1)%nat (Some 1) (1 # 2, 1 # 3, 1 # 4, 1 # 5) in
  nth 0 v 0 * (inject_Z 2 / 2) + nth 1 v 0 * (inject_Z 2 / 2) + nth 2 v 0
  == inject_Z 2 / 2.
Proof.
  pose proof (transform_vector_is_about_the_centre 3 (fun _ => 3 # 5)
                (fun _ => 4 # 5) overlay (2, 2, 1)%nat 1
                (1 # 2, 1 # 3, 1 # 4, 1 # 5)) as Hv.
  cbv zeta in Hv.
  destruct Hv as (_ & Hx & _ & H1); [discriminate|].
  destruct (H1 (Qeq_refl 1)) as [Hxs _].
  rewrite Hxs in Hx. cbv zeta.
  apply (Qeq_trans _ _ _ Hx). reflexivity.
Defined.

Lemma generate_trains_on_batches_witness :
  exists self' mask,
    generate (fun _ l => l) (fun _ _ _ => None) batch_attack 2 xy true
    = Return (self', (value (_patch self'), mask)) /\
    targeted self' = Some true.
Proof.
  destruct (generate_trains_on_batches (fun _ l => l) (fun _ _ _ => None)
              batch_attack 2%positive xy true)
    as (self' & mask & batches & E & _ & Hn & _ & Ht);
    [discriminate|reflexivity|reflexivity|reflexivity|].
  exists self', mask. split; [exact E|]. apply Ht.
  intros Hnil. rewrite Hnil in Hn. vm_compute in Hn. discriminate.
Defined.

(** The number of repetitions is computed in binary64: for [max_iter = 15],
    three images and batches of eleven, [3 / 11] rounds down and
    [15 / (3 / 11)] to a number above [55], so that the dataset is repeated
    [56] times where the exact quotient gives [55]; likewise [max_iter = 21],
    seven images and batches of five give [16] repetitions for an exact
    quotient of [15], and [max_iter = 2], one image and batches of five the
    ten repetitions of the exact quotient. *)
Example repetitions_in_binary64 :
  repetitions 15 11 3 = 56%nat /\
  ceil_div (15 * 11) 3 = 55%Z /\
  repetitions 21 5 7 = 16%nat /\
  ceil_div (21 * 5) 7 = 15%Z /\
  repetitions 2 5 1 = 10%nat.
Proof. vm_compute. repeat split; reflexivity. Qed.

Lemma init_checks_in_order_witness :
  init (F := Q) batch_classifier 5 3 None = Raise TypeError /\
  init (F := Q) batch_classifier 5 3 (Some (2, 3, 1)%nat)
  = Raise (AssertionError "Patch height and width need to be the same.").
Proof.
  destruct (init_checks_in_order batch_classifier 5 3 None) as (_ & H2 & _).
  destruct (init_checks_in_order batch_classifier 5 3 (Some (2, 3, 1)%nat))
    as (_ & _ & _ & H4 & _).
  split.
  - apply H2; reflexivity.
  - apply (H4 2%nat 3%nat 1%nat); [reflexivity|reflexivity|reflexivity|discriminate].
Defined.

Lemma generate_raises_witness :
  generate (fun _ l => l) (fun _ _ _ => None) batch_attack 2
    (@nil (nat * nat)) true
  = Raise ZeroDivisionError /\
  exists msg,
    generate (fun _ l => l) (fun _ _ _ => None) (wide_attack 3) 2 xy true
    = Raise (ValueError msg).
Proof.
  split.
  - apply (generate_raises (fun _ l => l) (fun _ _ _ => None) batch_attack
             2%positive [] true).
    reflexivity.
  - apply (generate_raises (fun _ l => l) (fun _ _ _ => None) (wide_attack 3)
             2%positive xy true); [discriminate|reflexivity].
Defined.

Lemma zero_gradient_step_keeps_patch_witness :
  exists a,
    init flat_classifier 5 3 (Some (2, 2, 1)%nat) = Return a /\
    Forall2 Qeq (value (_patch (snd (_train_step a 0 tt None)))) (value (_patch a)).
Proof.
  eexists. split; [reflexivity|].
  apply (zero_gradient_step_keeps_patch _ 0%nat tt None 0 1).
  - reflexivity.
  - reflexivity.
  - repeat constructor; discriminate.
  - intros tg. split; [reflexivity|]. repeat constructor.
Defined.

Lemma generate_patch_within_clip_bounds_witness :
  exists a a' patch mask,
    init batch_classifier 5 3 (Some (2, 2, 1)%nat) = Return a /\
    generate (fun _ l => l) (fun _ _ _ => None) a 2 xy true
    = Return (a', (patch, mask)) /\
    Forall (within 0 1) patch.
Proof.
  eexists _, _, _, _. split; [reflexivity|]. split; [reflexivity|].
  eapply Forall_impl;
    [|eapply (generate_patch_within_clip_bounds (fun _ l => l)
                (fun _ _ _ => None) batch_classifier
                5 3 (Some (2, 2, 1)%nat) _ _ 2%positive xy true);
      [discriminate|reflexivity|reflexivity]].
  intros x [Hlo Hhi]. split; [exact Hlo|].
  apply Qle_trans with (1 := Hhi). vm_compute. discriminate.
Defined.

End MorePatchRuns.
